(** * customer-map backend: geocoding resolver and radius search

    A shallow embedding of
      - [backend/services/geocoding_service.py] (class [GeocodingService]),
      - [backend/database.py] ([search_addresses_by_location] and
        [_calculate_distance] of [CustomerDirectoryRepository]),
      - [backend/models.py] ([LocationSearchFilters]) and the location
        endpoint of [backend/main.py],
    followed by the properties of the resolver cache, the retry loop, the
    batch variant and the radius search.

    Conventions.
      - A Python [str] is a [string]; each [ascii] is the code point of one
        character (code points below 256).
      - A Python [float] is a rational number ([Q]): the finite values and
        their comparisons.  The operations of the [math] module are
        parameters of the development.
      - Python [int]s are [Z].
      - The external geocoding provider is a state machine that is a
        parameter of the development; every call to it and every
        [time.sleep] is recorded, in order, in the log of the world. *)

From Stdlib Require Import Bool List String Ascii NArith ZArith QArith Qround.
From Stdlib Require Import Lia Lqa Permutation Sorted.
Import ListNotations.

Set Implicit Arguments.

(* ================================================================= *)
(** ** Python strings *)

Module PyStr.

(** [str.isspace] on one character, for code points below 256:
    TAB..CR (9..13), FS..US and SPACE (28..32), NEL (133), NBSP (160). *)
Definition isspace (c : ascii) : bool :=
  let n := N_of_ascii c in
  ((9 <=? n) && (n <=? 13) || (28 <=? n) && (n <=? 32)
   || (n =? 133) || (n =? 160))%N.

Fixpoint lstrip (s : string) : string :=
  match s with
  | EmptyString => EmptyString
  | String c s' => if isspace c then lstrip s' else s
  end.

Fixpoint rstrip (s : string) : string :=
  match s with
  | EmptyString => EmptyString
  | String c s' =>
      match rstrip s' with
      | EmptyString => if isspace c then EmptyString else String c EmptyString
      | t => String c t
      end
  end.

(** [s.strip()] with no argument. *)
Definition strip (s : string) : string := rstrip (lstrip s).

(** [c.lower()] for one character: A..Z and the capital letters of
    Latin-1 (all of 0xC0..0xDE but the multiplication sign). *)
Definition lower_char (c : ascii) : ascii :=
  let n := N_of_ascii c in
  if ((65 <=? n) && (n <=? 90)
      || (192 <=? n) && (n <=? 222) && negb (n =? 215))%N
  then ascii_of_N (n + 32) else c.

Fixpoint lower (s : string) : string :=
  match s with
  | EmptyString => EmptyString
  | String c s' => String (lower_char c) (lower s')
  end.

(** Truth value of a string: [bool(s)]. *)
Definition truthy (s : string) : bool :=
  match s with EmptyString => false | String _ _ => true end.

(** Truth value of an optional string ([None] is false). *)
Definition truthy_opt (o : option string) : bool :=
  match o with None => false | Some s => truthy s end.

(** Every character of the string is white space (the empty string
    included). *)
Fixpoint all_space (s : string) : bool :=
  match s with
  | EmptyString => true
  | String c s' => isspace c && all_space s'
  end.

End PyStr.

(* ================================================================= *)
(** ** Python floats: comparisons *)

Module PyFloat.
(** [a < b]. *)
Definition lt (a b : Q) : bool :=
  match a ?= b with Lt => true | _ => false end.

(** [a <= b]. *)
Definition le (a b : Q) : bool := Qle_bool a b.
End PyFloat.

(* ================================================================= *)
(** ** The world: provider, clock and cache *)

(** [Tuple[Optional[float], Optional[float]]]. *)
Definition coordinates : Type := option Q * option Q.

(** The sentinel [(None, None)]. *)
Definition Unresolved : coordinates := (None, None).

(** One entry of the list returned by [client.geocode]:
    [result['geometry']['location']] and [result.get('formatted_address')]. *)
Record geocode_result : Type := {
  location_lat : Q;
  location_lng : Q;
  formatted_address : option string
}.

(** What a provider call does: it returns, raises
    [googlemaps.exceptions.ApiError], or raises another [Exception]. *)
Inductive outcome (A : Type) : Type :=
| Returned (results : A)
| RaisedApiError
| RaisedException.
Arguments RaisedApiError {A}.
Arguments RaisedException {A}.

Definition is_error {A} (r : outcome A) : bool :=
  match r with Returned _ => false | _ => true end.

(** Observable effects, in the order they happen. *)
Inductive event : Type :=
| EvGeocode (address : string)
| EvReverseGeocode (lat lng : Q)
| EvSleep (seconds : Q).

Definition is_provider_call (e : event) : bool :=
  match e with EvSleep _ => false | _ => true end.

Definition is_sleep (e : event) : bool :=
  match e with EvSleep _ => true | _ => false end.

(** Number of external provider calls in a log. *)
Definition provider_calls (log : list event) : nat :=
  List.length (filter is_provider_call log).

(** Number of [time.sleep] calls in a log. *)
Definition sleeps (log : list event) : nat :=
  List.length (filter is_sleep log).

(** The state of [functools.lru_cache(maxsize=1000)] wrapped around
    [_cached_geocode]: the entries from the most recently used to the least
    recently used, and the two counters of [cache_info()].  A key is the
    pair of positional arguments [(address_hash, address)]. *)
Record lru_cache : Type := {
  entries : list ((string * string) * coordinates);
  hits : nat;
  misses : nat
}.

Definition maxsize : nat := 1000.

Definition empty_cache : lru_cache :=
  {| entries := []; hits := 0; misses := 0 |}.

Definition key_eqb (k1 k2 : string * string) : bool :=
  String.eqb (fst k1) (fst k2) && String.eqb (snd k1) (snd k2).

Fixpoint cache_find (k : string * string)
    (l : list ((string * string) * coordinates)) : option coordinates :=
  match l with
  | [] => None
  | (k', v) :: l' => if key_eqb k k' then Some v else cache_find k l'
  end.

Fixpoint cache_remove (k : string * string)
    (l : list ((string * string) * coordinates))
    : list ((string * string) * coordinates) :=
  match l with
  | [] => []
  | (k', v) :: l' => if key_eqb k k' then l' else (k', v) :: cache_remove k l'
  end.

(** A hit moves the entry to the most recent position. *)
Definition cache_touch (k : string * string) (v : coordinates) (c : lru_cache)
    : lru_cache :=
  {| entries := (k, v) :: cache_remove k (entries c);
     hits := S (hits c);
     misses := misses c |}.

(** A miss stores the computed value as the most recent entry; when the
    cache is full the least recently used entry is dropped. *)
Definition cache_store (k : string * string) (v : coordinates) (c : lru_cache)
    : lru_cache :=
  {| entries := firstn maxsize ((k, v) :: entries c);
     hits := hits c;
     misses := S (misses c) |}.

Section Service.

(** The state of the external provider and its two operations
    ([googlemaps.Client.geocode] and [.reverse_geocode]). *)
Variable provider : Type.
Variable geocode_api :
  provider -> string -> outcome (list geocode_result) * provider.
Variable reverse_api :
  provider -> Q -> Q -> outcome (list string) * provider.

(** [hashlib.md5(s.encode('utf-8')).hexdigest()]. *)
Variable md5_hexdigest : string -> string.

Record world : Type := {
  w_provider : provider;
  w_log : list event;
  w_cache : lru_cache
}.

(** Computations that read and change the world. *)
Definition M (A : Type) : Type := world -> A * world.

Definition ret {A} (a : A) : M A := fun w => (a, w).

Definition bind {A B} (c : M A) (k : A -> M B) : M B :=
  fun w => let (a, w') := c w in k a w'.

Notation "x <- c ;; k" := (bind c (fun x => k))
  (at level 61, c at next level, right associativity).
Notation "c ;;; k" := (bind c (fun _ => k))
  (at level 61, right associativity).

(** [time.sleep(seconds)]. *)
Definition time_sleep (seconds : Q) : M unit :=
  fun w => (tt, {| w_provider := w_provider w;
                   w_log := w_log w ++ [EvSleep seconds];
                   w_cache := w_cache w |}).

(** [self.client.geocode(address, language='en', region='US')]. *)
Definition client_geocode (address : string)
    : M (outcome (list geocode_result)) :=
  fun w => let (r, p) := geocode_api (w_provider w) address in
           (r, {| w_provider := p;
                  w_log := w_log w ++ [EvGeocode address];
                  w_cache := w_cache w |}).

(** [self.client.reverse_geocode((lat, lng), language='en')]; a result is
    represented by its ['formatted_address']. *)
Definition client_reverse_geocode (lat lng : Q) : M (outcome (list string)) :=
  fun w => let (r, p) := reverse_api (w_provider w) lat lng in
           (r, {| w_provider := p;
                  w_log := w_log w ++ [EvReverseGeocode lat lng];
                  w_cache := w_cache w |}).

(* =============================================================== *)
(** ** class GeocodingService *)

Record GeocodingService : Type := {
  client : option string;      (* the client, identified by its key *)
  max_retries : Z;
  retry_delay : Q;
  cache_size : Z
}.

(** [GeocodingService.__init__(api_key)]: no client for a missing or empty
    key, a [googlemaps.Client] for any other key. *)
Definition __init__ (api_key : option string) : GeocodingService :=
  {| client := if PyStr.truthy_opt api_key then api_key else None;
     max_retries := 3;
     retry_delay := 1;
     cache_size := 1000 |}.

(** The world when the service starts. *)
Definition initial_world (p : provider) : world :=
  {| w_provider := p; w_log := []; w_cache := empty_cache |}.

(** [range(n)]. *)
Definition py_range (n : Z) : list Z :=
  map Z.of_nat (seq 0 (Z.to_nat n)).

Definition _get_cache_key (address : string) : string :=
  md5_hexdigest (PyStr.lower address).

(** The body of [for attempt in range(self.max_retries)] of
    [_geocode_with_retry], over the attempts that remain. *)
Fixpoint geocode_attempts (self : GeocodingService) (address : string)
    (attempts : list Z) : M coordinates :=
  match attempts with
  | [] => ret Unresolved
  | attempt :: rest =>
      r <- client_geocode address ;;
      match r with
      | Returned (first :: _) =>
          ret (Some (location_lat first), Some (location_lng first))
      | Returned [] => ret Unresolved
      | RaisedApiError =>
          if (attempt <? max_retries self - 1)%Z
          then time_sleep (retry_delay self * inject_Z (attempt + 1)) ;;;
               geocode_attempts self address rest
          else ret Unresolved
      | RaisedException =>
          if (attempt <? max_retries self - 1)%Z
          then time_sleep (retry_delay self) ;;;
               geocode_attempts self address rest
          else ret Unresolved
      end
  end.

Definition _geocode_with_retry (self : GeocodingService) (address : string)
    : M coordinates :=
  match client self with
  | None => ret Unresolved
  | Some _ => geocode_attempts self address (py_range (max_retries self))
  end.

(** [_cached_geocode], that is [_geocode_with_retry] behind
    [lru_cache(maxsize=1000)]. *)
Definition _cached_geocode (self : GeocodingService)
    (address_hash address : string) : M coordinates :=
  fun w =>
    let k := (address_hash, address) in
    match cache_find k (entries (w_cache w)) with
    | Some v =>
        (v, {| w_provider := w_provider w;
               w_log := w_log w;
               w_cache := cache_touch k v (w_cache w) |})
    | None =>
        let (v, w') := _geocode_with_retry self address w in
        (v, {| w_provider := w_provider w';
               w_log := w_log w';
               w_cache := cache_store k v (w_cache w') |})
    end.

(** [get_coordinates]: the resolver.  [_cached_geocode] raises nothing
    here (its arguments are hashable strings and [_geocode_with_retry]
    catches every [Exception]), so the [except] branch is never taken. *)
Definition get_coordinates (self : GeocodingService) (address : string)
    : M coordinates :=
  if negb (PyStr.truthy address) || negb (PyStr.truthy (PyStr.strip address))
  then ret Unresolved
  else
    let address := PyStr.strip address in
    let address_hash := _get_cache_key address in
    _cached_geocode self address_hash address.

(** One dictionary of the list returned by [batch_geocode]. *)
Record batch_entry : Type := {
  be_address : string;
  be_lat : option Q;
  be_lng : option Q;
  be_success : bool
}.

Definition is_not_None {A} (o : option A) : bool :=
  match o with None => false | Some _ => true end.

(** [enumerate(l)]. *)
Definition enumerate {A} (l : list A) : list (Z * A) :=
  combine (py_range (Z.of_nat (List.length l))) l.

(** The body of [for i, address in enumerate(addresses)] of
    [batch_geocode]; [len_addresses] is [len(addresses)] and [results]
    the list built so far.  The literal [0.1] is the rational 1/10. *)
Fixpoint batch_loop (self : GeocodingService) (len_addresses : Z)
    (items : list (Z * string)) (results : list batch_entry)
    : M (list batch_entry) :=
  match items with
  | [] => ret results
  | (i, address) :: rest =>
      c <- get_coordinates self address ;;
      let result := {| be_address := address;
                       be_lat := fst c;
                       be_lng := snd c;
                       be_success :=
                         is_not_None (fst c) && is_not_None (snd c) |} in
      let results := results ++ [result] in
      (if (i <? len_addresses - 1)%Z then time_sleep (1 # 10) else ret tt) ;;;
      batch_loop self len_addresses rest results
  end.

Definition batch_geocode (self : GeocodingService) (addresses : list string)
    : M (list batch_entry) :=
  batch_loop self (Z.of_nat (List.length addresses)) (enumerate addresses) [].

(** The body of [for attempt in range(self.max_retries)] of
    [reverse_geocode]. *)
Fixpoint reverse_attempts (self : GeocodingService) (lat lng : Q)
    (attempts : list Z) : M (option string) :=
  match attempts with
  | [] => ret None
  | attempt :: rest =>
      r <- client_reverse_geocode lat lng ;;
      match r with
      | Returned (address :: _) => ret (Some address)
      | Returned [] => ret None
      | RaisedApiError =>
          if (attempt <? max_retries self - 1)%Z
          then time_sleep (retry_delay self * inject_Z (attempt + 1)) ;;;
               reverse_attempts self lat lng rest
          else ret None
      | RaisedException =>
          if (attempt <? max_retries self - 1)%Z
          then time_sleep (retry_delay self) ;;;
               reverse_attempts self lat lng rest
          else ret None
      end
  end.

Definition reverse_geocode (self : GeocodingService) (lat lng : Q)
    : M (option string) :=
  match client self with
  | None => ret None
  | Some _ => reverse_attempts self lat lng (py_range (max_retries self))
  end.

(** [get_place_details]: one provider call, no retry; the details are
    those of the first result. *)
Definition get_place_details (self : GeocodingService) (address : string)
    : M (option geocode_result) :=
  match client self with
  | None => ret None
  | Some _ =>
      r <- client_geocode address ;;
      match r with
      | Returned (result :: _) => ret (Some result)
      | _ => ret None
      end
  end.

Definition validate_coordinates (self : GeocodingService) (lat lng : Q)
    : bool :=
  PyFloat.le (-90) lat && PyFloat.le lat 90
  && (PyFloat.le (-180) lng && PyFloat.le lng 180).

(** [clear_cache]: [cache_clear()] drops the entries and resets the
    counters. *)
Definition clear_cache (self : GeocodingService) : M unit :=
  fun w => (tt, {| w_provider := w_provider w;
                   w_log := w_log w;
                   w_cache := empty_cache |}).

(** The requests that the service answers, and the world after a
    sequence of them. *)
Inductive request : Type :=
| ReqGetCoordinates (address : string)
| ReqBatchGeocode (addresses : list string)
| ReqReverseGeocode (lat lng : Q)
| ReqGetPlaceDetails (address : string)
| ReqClearCache.

Definition serve (self : GeocodingService) (r : request) (w : world)
    : world :=
  match r with
  | ReqGetCoordinates a => snd (get_coordinates self a w)
  | ReqBatchGeocode l => snd (batch_geocode self l w)
  | ReqReverseGeocode lat lng => snd (reverse_geocode self lat lng w)
  | ReqGetPlaceDetails a => snd (get_place_details self a w)
  | ReqClearCache => snd (clear_cache self w)
  end.

Inductive reachable (self : GeocodingService) : world -> Prop :=
| reachable_initial : forall p, reachable self (initial_world p)
| reachable_serve : forall w r,
    reachable self w -> reachable self (serve self r w).

(* --------------------------------------------------------------- *)
(** *** Vocabulary of the retry policy *)

(** The provider after [k] successive [geocode] calls for [address]. *)
Fixpoint after_geocode_calls (address : string) (k : nat) (p : provider)
    : provider :=
  match k with
  | O => p
  | S k' => after_geocode_calls address k' (snd (geocode_api p address))
  end.

(** What the provider answers to the call that follows [i] earlier ones
    (attempt number [i + 1]). *)
Definition nth_response (address : string) (p : provider) (i : nat)
    : outcome (list geocode_result) :=
  fst (geocode_api (after_geocode_calls address i p) address).

(** The wait that follows a failed attempt: linear in the attempt number
    after an API-level error, constant after any other exception. *)
Definition wait_after (self : GeocodingService)
    (r : outcome (list geocode_result)) (attempt_number : Z) : Q :=
  match r with
  | RaisedApiError => retry_delay self * inject_Z attempt_number
  | _ => retry_delay self
  end.

(** The events of [k] failed attempts when the first of them is attempt
    number [j + 1]. *)
Definition failed_from (self : GeocodingService) (address : string)
    (p : provider) (j k : nat) : list event :=
  flat_map
    (fun i => [EvGeocode address;
               EvSleep (wait_after self (nth_response address p i)
                                   (Z.of_nat (j + i) + 1))])
    (seq 0 k).

(** The events of [k] failed attempts, each followed by its wait. *)
Definition failed_attempts (self : GeocodingService) (address : string)
    (p : provider) (k : nat) : list event :=
  flat_map
    (fun i => [EvGeocode address;
               EvSleep (wait_after self (nth_response address p i)
                                   (Z.of_nat i + 1))])
    (seq 0 k).

(** The events of [n] attempts of which none is answered: a wait after
    each attempt but the last. *)
Definition exhausted_attempts (self : GeocodingService) (address : string)
    (p : provider) (n : nat) : list event :=
  match n with
  | O => []
  | S m => failed_attempts self address p m ++ [EvGeocode address]
  end.

(** The key under which [get_coordinates] looks an address up in the
    cache: the arguments that it passes to [_cached_geocode]. *)
Definition cache_key (address : string) : string * string :=
  (_get_cache_key (PyStr.strip address), PyStr.strip address).

(** A world in which nothing was ever resolved: every cached value is
    Unresolved and the provider was never called. *)
Definition quiet (w : world) : Prop :=
  Forall (fun e => snd e = Unresolved) (entries (w_cache w))
  /\ provider_calls (w_log w) = 0%nat.

(** The coordinates read off a returned list of results. *)
Definition first_location (results : list geocode_result) : coordinates :=
  match results with
  | first :: _ => (Some (location_lat first), Some (location_lng first))
  | [] => Unresolved
  end.

(* --------------------------------------------------------------- *)
(** *** Vocabulary of the batch variant *)

(** The dictionary built for one address of a batch. *)
Definition entry_of (address : string) (c : coordinates) : batch_entry :=
  {| be_address := address;
     be_lat := fst c;
     be_lng := snd c;
     be_success := is_not_None (fst c) && is_not_None (snd c) |}.

(** A batch, address by address: each address is resolved by
    [get_coordinates] in the world left by the previous one, and a sleep of
    1/10 s follows every address but the last. *)
Inductive batch_run (self : GeocodingService)
    : list string -> world -> list batch_entry -> world -> Prop :=
| batch_run_nil : forall w, batch_run self [] w [] w
| batch_run_last : forall address w,
    batch_run self [address] w
      [entry_of address (fst (get_coordinates self address w))]
      (snd (get_coordinates self address w))
| batch_run_more : forall address rest w results w',
    rest <> [] ->
    batch_run self rest
      (snd (time_sleep (1 # 10) (snd (get_coordinates self address w))))
      results w' ->
    batch_run self (address :: rest) w
      (entry_of address (fst (get_coordinates self address w)) :: results) w'.

End Service.

(* ================================================================= *)
(** ** models.py and database.py: the radius search *)

(** A row of the table [customer_directory]. *)
Module CustomerDirectoryDB.
Record t : Type := {
  id : Z;
  customer_id : string;
  customer_name : string;
  address_id : string;
  country : string;
  country_db : option string;
  address_line1 : string;
  address_line2 : option string;
  zip_code : string;
  city : string;
  state : string;
  full_address : string;
  full_description : option string;
  lat : option Q;
  lng : option Q;
  tags : option string;
  sales_radius : option Z;
  total_amount : option Z
}.
End CustomerDirectoryDB.

(** The pydantic model [LocationSearchFilters] with the constraints of its
    fields. *)
Module LocationSearchFilters.
Record t : Type := {
  center_lat : Q;
  center_lng : Q;
  radius_km : Q;
  country : option string;
  state : option string;
  city : option string;
  page : Z;
  page_size : Z
}.

(** [ge], [le] and [gt] of the [Field] declarations. *)
Definition valid (f : t) : bool :=
  PyFloat.le (-90) (center_lat f) && PyFloat.le (center_lat f) 90
  && (PyFloat.le (-180) (center_lng f) && PyFloat.le (center_lng f) 180)
  && (PyFloat.lt 0 (radius_km f) && PyFloat.le (radius_km f) 1000)
  && (1 <=? page f)%Z
  && ((1 <=? page_size f)%Z && (page_size f <=? 100)%Z).

(** The constructor: [None] stands for pydantic's [ValidationError]. *)
Definition new (center_lat center_lng radius_km : Q)
    (country state city : option string) (page page_size : Z) : option t :=
  let f := {| center_lat := center_lat; center_lng := center_lng;
              radius_km := radius_km; country := country; state := state;
              city := city; page := page; page_size := page_size |} in
  if valid f then Some f else None.

Definition with_page (f : t) (p : Z) : t :=
  {| center_lat := center_lat f; center_lng := center_lng f;
     radius_km := radius_km f; country := country f; state := state f;
     city := city f; page := p; page_size := page_size f |}.
End LocationSearchFilters.

Module Row := CustomerDirectoryDB.
Module Filters := LocationSearchFilters.

(** [l.sort(key=key)] on float keys: the stable sort, which compares keys
    with [<] only.  An element is put in front of the first element of the
    sorted rest whose key is not smaller than its own. *)
Section PySort.
Variable A : Type.
Variable key : A -> Q.

Fixpoint sort_insert (x : A) (l : list A) : list A :=
  match l with
  | [] => [x]
  | y :: l' =>
      if PyFloat.lt (key y) (key x)
      then y :: sort_insert x l'
      else x :: y :: l'
  end.

Fixpoint py_sort (l : list A) : list A :=
  match l with
  | [] => []
  | x :: l' => sort_insert x (py_sort l')
  end.

(** Ascending keys. *)
Definition ascending (l : list A) : Prop :=
  StronglySorted (fun x y => (key x <= key y)%Q) l.
End PySort.

(** [l[start:stop]] for integers [start] and [stop] of either sign. *)
Definition py_slice {A} (l : list A) (start stop : Z) : list A :=
  let len := Z.of_nat (List.length l) in
  let clamp := fun i : Z =>
    if (i <? 0)%Z then Z.max 0 (i + len) else Z.min i len in
  let lo := clamp start in
  let hi := clamp stop in
  firstn (Z.to_nat (hi - lo)) (skipn (Z.to_nat lo) l).

(** An HTTP answer: a body, or an error status. *)
Inductive http (A : Type) : Type :=
| Ok (body : A)
| HttpError (status : Z).
Arguments HttpError {A}.

Section Repository.

(** [column.ilike(pattern)] as the database evaluates it: the value of
    the column first, the pattern second. *)
Variable ilike : string -> string -> bool.

(** The [math] module and float arithmetic: [fl] rounds an exact result
    to a float, [float_pow] is [**], and [math_sqrt] fails ([None], a
    [ValueError]) outside its domain. *)
Variable fl : Q -> Q.
Variable float_pow : Q -> Z -> Q.
Variable math_radians math_sin math_cos : Q -> Q.
Variable math_atan2 : Q -> Q -> Q.
Variable math_sqrt : Q -> option Q.

(** [round(x, 2)]. *)
Variable round_2 : Q -> Q.

Definition _calculate_distance (lat1 lng1 lat2 lng2 : Q) : option Q :=
  let R := 6371 in
  let lat1_rad := math_radians lat1 in
  let lng1_rad := math_radians lng1 in
  let lat2_rad := math_radians lat2 in
  let lng2_rad := math_radians lng2 in
  let dlat := fl (lat2_rad - lat1_rad) in
  let dlng := fl (lng2_rad - lng1_rad) in
  let a :=
    fl (float_pow (math_sin (fl (dlat / 2))) 2
        + fl (fl (math_cos lat1_rad * math_cos lat2_rad)
              * float_pow (math_sin (fl (dlng / 2))) 2)) in
  match math_sqrt a with
  | None => None
  | Some sqrt_a =>
      match math_sqrt (fl (1 - a)) with
      | None => None
      | Some sqrt_1a =>
          let c := fl (2 * math_atan2 sqrt_a sqrt_1a) in
          Some (fl (R * c))
      end
  end.

(** One optional substring filter of the query:
    [if value: query.filter(column.ilike(f"%{value}%"))]. *)
Definition ilike_filter (value : option string) (column : string) : bool :=
  match value with
  | Some v =>
      if PyStr.truthy v then ilike column ("%" ++ v ++ "%")%string else true
  | None => true
  end.

(** The [WHERE] clause built by [search_addresses_by_location]. *)
Definition query_where (filters : Filters.t) (row : Row.t) : bool :=
  (is_not_None (Row.lat row) && is_not_None (Row.lng row))
  && ilike_filter (Filters.country filters) (Row.country row)
  && ilike_filter (Filters.state filters) (Row.state row)
  && ilike_filter (Filters.city filters) (Row.city row).

(** [query.all()]: the rows of the table, in scan order, that satisfy the
    clause. *)
Definition query_all (table : list Row.t) (filters : Filters.t)
    : list Row.t :=
  filter (query_where filters) table.

(** The body of [for address in all_addresses];
    [addresses_with_distance] is the list built so far.  [None] is an
    exception: the [ValueError] of [math.sqrt], or the [TypeError] of
    [math.radians(None)]. *)
Fixpoint distance_loop (filters : Filters.t) (all_addresses : list Row.t)
    (addresses_with_distance : list (Row.t * Q))
    : option (list (Row.t * Q)) :=
  match all_addresses with
  | [] => Some addresses_with_distance
  | address :: rest =>
      match Row.lat address, Row.lng address with
      | Some address_lat, Some address_lng =>
          match _calculate_distance (Filters.center_lat filters)
                  (Filters.center_lng filters) address_lat address_lng with
          | Some distance =>
              distance_loop filters rest
                (if PyFloat.le distance (Filters.radius_km filters)
                 then addresses_with_distance ++ [(address, distance)]
                 else addresses_with_distance)
          | None => None
          end
      | _, _ => None
      end
  end.

Definition search_addresses_by_location (table : list Row.t)
    (filters : Filters.t) : option (list (Row.t * Q) * Z) :=
  let all_addresses := query_all table filters in
  match distance_loop filters all_addresses [] with
  | None => None
  | Some addresses_with_distance =>
      let addresses_with_distance := py_sort (@snd Row.t Q) addresses_with_distance in
      let total := Z.of_nat (List.length addresses_with_distance) in
      let skip := ((Filters.page filters - 1) * Filters.page_size filters)%Z in
      let paginated_addresses :=
        py_slice addresses_with_distance skip
                 (skip + Filters.page_size filters) in
      Some (paginated_addresses, total)
  end.

(** [CustomerDirectoryResponse.model_validate] on a row; [None] is a
    validation error. *)
Variable response : Type.
Variable model_validate : Row.t -> option response.

(** The answer of [GET /api/customers/search/location] (main.py). *)
Record location_response : Type := {
  items : list (response * Q);   (* each row with its [distance_km] *)
  total : Z;
  page : Z;
  page_size : Z;
  total_pages : Z
}.

(** The body of [for address, distance in addresses_with_distance] of
    the endpoint: each row is validated and gets its rounded distance. *)
Fixpoint location_items (addresses_with_distance : list (Row.t * Q))
    : option (list (response * Q)) :=
  match addresses_with_distance with
  | [] => Some []
  | (address, distance) :: rest =>
      match model_validate address with
      | None => None
      | Some address_data =>
          match location_items rest with
          | None => None
          | Some items => Some ((address_data, round_2 distance) :: items)
          end
      end
  end.

(** The endpoint: the parameters are validated (422), the filters are
    built, the repository is searched, the rows are validated, and any
    exception becomes a 500. *)
Definition search_by_location_endpoint (table : list Row.t)
    (center_lat center_lng radius_km : Q)
    (country state city : option string) (page page_size : Z)
    : http location_response :=
  match Filters.new center_lat center_lng radius_km country state city
                    page page_size with
  | None => HttpError 422
  | Some filters =>
      match search_addresses_by_location table filters with
      | None => HttpError 500
      | Some (addresses_with_distance, total) =>
          let total_pages := Qceiling (inject_Z total / inject_Z page_size) in
          match location_items addresses_with_distance with
          | None => HttpError 500
          | Some items =>
              Ok {| items := items;
                    total := total;
                    page := page;
                    page_size := page_size;
                    total_pages := total_pages |}
          end
      end
  end.

(* --------------------------------------------------------------- *)
(** *** Vocabulary of the radius search *)

(** The distance of a row from the centre of the search, when the row
    has coordinates and the computation raises nothing. *)
Definition distance_of (filters : Filters.t) (row : Row.t) : option Q :=
  match Row.lat row, Row.lng row with
  | Some row_lat, Some row_lng =>
      _calculate_distance (Filters.center_lat filters)
        (Filters.center_lng filters) row_lat row_lng
  | _, _ => None
  end.

(** The candidates within the radius, with their distances, in scan
    order. *)
Fixpoint within_radius (filters : Filters.t) (candidates : list Row.t)
    : list (Row.t * Q) :=
  match candidates with
  | [] => []
  | row :: rest =>
      match distance_of filters row with
      | Some d =>
          if PyFloat.le d (Filters.radius_km filters)
          then (row, d) :: within_radius filters rest
          else within_radius filters rest
      | None => within_radius filters rest
      end
  end.

(** The rows within the radius in the order of the answer: by distance,
    rows at the same distance in scan order. *)
Definition ranked (table : list Row.t) (filters : Filters.t)
    : list (Row.t * Q) :=
  py_sort (@snd Row.t Q) (within_radius filters (query_all table filters)).

(** No row of the query makes the distance computation raise. *)
Definition no_math_error (table : list Row.t) (filters : Filters.t) : Prop :=
  forall row, In row (query_all table filters) ->
              distance_of filters row <> None.

(** The items of page [p]. *)
Definition page_items (table : list Row.t) (filters : Filters.t) (p : Z)
    : list (Row.t * Q) :=
  match search_addresses_by_location table (Filters.with_page filters p) with
  | Some (paginated_addresses, _) => paginated_addresses
  | None => []
  end.

(** Pages [1 .. n], one after the other. *)
Definition pages_concat (table : list Row.t) (filters : Filters.t) (n : nat)
    : list (Row.t * Q) :=
  flat_map (fun p => page_items table filters (Z.of_nat p)) (seq 1 n).

End Repository.

(* ================================================================= *)
(** ** Stand-ins for the collaborators, used to run the model *)

Module Stub.

(** A provider is the number of calls it has answered. *)
Definition new_york : geocode_result :=
  {| location_lat := 407128 # 10000;
     location_lng := - (740060 # 10000);
     formatted_address := Some "New York, NY, USA"%string |}.

(** API-level errors on the first two calls, an answer afterwards. *)
Definition geocode_fails_twice (calls_so_far : nat) (address : string)
    : outcome (list geocode_result) * nat :=
  (if (calls_so_far <? 2)%nat then RaisedApiError else Returned [new_york],
   S calls_so_far).

(** A transport error on every call. *)
Definition geocode_always_fails (calls_so_far : nat) (address : string)
    : outcome (list geocode_result) * nat :=
  (RaisedException, S calls_so_far).

(** An answer on every call. *)
Definition geocode_answers (calls_so_far : nat) (address : string)
    : outcome (list geocode_result) * nat :=
  (Returned [new_york], S calls_so_far).

(** An API-level error on every reverse call. *)
Definition reverse_always_fails (calls_so_far : nat) (lat lng : Q)
    : outcome (list string) * nat :=
  (RaisedApiError, S calls_so_far).

(** The digest is any function of the text; here the text itself. *)
Definition digest (s : string) : string := s.

(** A plane instead of a sphere: enough to run the search. *)
Definition ilike_any (column pattern : string) : bool := true.
Definition fl (x : Q) : Q := Qred x.
Definition float_pow (x : Q) (n : Z) : Q := Qred (x ^ n).
Definition math_radians (x : Q) : Q := x.
Definition math_sin (x : Q) : Q := x.
Definition math_cos (x : Q) : Q := 1.
Definition math_atan2 (y x : Q) : Q := y.
Definition math_sqrt (x : Q) : option Q :=
  if PyFloat.le 0 x then Some x else None.
Definition round_2 (x : Q) : Q := x.
Definition model_validate (row : Row.t) : option Row.t := Some row.

Definition row (id : Z) (lat lng : option Q) : Row.t :=
  {| Row.id := id;
     Row.customer_id := "C1"; Row.customer_name := "Ada";
     Row.address_id := "A1"; Row.country := "US"; Row.country_db := None;
     Row.address_line1 := "1 Main St"; Row.address_line2 := None;
     Row.zip_code := "10001"; Row.city := "New York"; Row.state := "NY";
     Row.full_address := "1 Main St, New York, NY";
     Row.full_description := None;
     Row.lat := lat; Row.lng := lng; Row.tags := None;
     Row.sales_radius := Some 10%Z; Row.total_amount := None |}%string.

(** Three rows: one at the centre (0, 0), one without coordinates, one a
    little to the north. *)
Definition table : list Row.t :=
  [row 1 (Some 0) (Some 0); row 2 None None; row 3 (Some (1 # 1000)) (Some 0)].

Definition filters (radius_km : Q) (page page_size : Z) : Filters.t :=
  {| Filters.center_lat := 0; Filters.center_lng := 0;
     Filters.radius_km := radius_km;
     Filters.country := None; Filters.state := None; Filters.city := None;
     Filters.page := page; Filters.page_size := page_size |}.

End Stub.

(* ================================================================= *)
(** ** Floats as CPython computes them *)

(** A Python [float] is an IEEE 754 binary64 number; the finite ones are
    the rationals [m * 2^e] with [|m| < 2^53] and [-1074 <= e].  Every
    arithmetic operation returns the float nearest to the exact result,
    the one with an even [m] in a tie.  Overflow is left out: the exact
    results met here are far below [2^1024]. *)
Module Binary64.

(** The integer nearest to [n / d] for [d > 0], the even one in a tie. *)
Definition nearest_even (n d : Z) : Z :=
  let q := (n / d)%Z in
  let r := (n mod d)%Z in
  match (2 * r ?= d)%Z with
  | Lt => q
  | Gt => (q + 1)%Z
  | Eq => if Z.even q then q else (q + 1)%Z
  end.

(** The float [m * 2^e], in lowest terms. *)
Definition double (m e : Z) : Q :=
  Qred (if (0 <=? e)%Z then inject_Z (m * 2 ^ e)
        else Qmake m (Z.to_pos (2 ^ (- e)))).

(** [2^e <= n / d], for positive [n] and [d]. *)
Definition ge_pow2 (n d e : Z) : bool :=
  if (0 <=? e)%Z then (d * 2 ^ e <=? n)%Z else (d <=? n * 2 ^ (- e))%Z.

(** The exponent of the last place of [n / d]: the [e] with
    [2^52 <= (n / d) / 2^e < 2^53], and [-1074] for the subnormal
    numbers. *)
Definition last_place (n d : Z) : Z :=
  let e0 := (Z.log2 n - Z.log2 d)%Z in
  Z.max (if ge_pow2 n d e0 then e0 - 52 else e0 - 53) (-1074).

(** Rounding to the nearest float. *)
Definition round (x : Q) : Q :=
  let n := Z.abs (Qnum x) in
  let d := Zpos (Qden x) in
  if (n =? 0)%Z then 0
  else
    let e := last_place n d in
    let m := if (0 <=? e)%Z then nearest_even n (d * 2 ^ e)
             else nearest_even (n * 2 ^ (- e)) d in
    double (Z.sgn (Qnum x) * m) e.

(** [x ** n] for a small integer [n]: the C library's [pow], which
    returns the nearest float here. *)
Definition pow (x : Q) (n : Z) : Q := round (x ^ n).

(** [math.radians]: CPython multiplies by the float nearest to
    [pi / 180], which is 0x1.1df46a2529d39p-6. *)
Definition deg_to_rad : Q := double 0x11df46a2529d39 (-58).
Definition radians (x : Q) : Q := round (x * deg_to_rad).

End Binary64.

(** The values that the C library behind CPython's [math] returns at the
    arguments met when the distance from (2.5, 0) to (2.5, 0) and to its
    antipode (-2.5, 180) is computed.  At other arguments these stand-ins
    answer as the functions of [Stub] do. *)
Module Libm.

Definition math_sin (x : Q) : Q :=
  if Qeq_bool x (Binary64.double (-0x1657184ae74487) (-57))
  then Binary64.double (-0x165547c4694e11) (-57)
  else if Qeq_bool x (Binary64.double 0x1921fb54442d18 (-52))
  then 1
  else Stub.math_sin x.

Definition math_cos (x : Q) : Q :=
  if Qeq_bool x (Binary64.double 0x1657184ae74487 (-57))
     || Qeq_bool x (Binary64.double (-0x1657184ae74487) (-57))
  then Binary64.double 0x1ff833f9da45f7 (-53)
  else Stub.math_cos x.

(** A table with a row at (2.5, 0) and a row at (-2.5, 180). *)
Definition table : list Row.t :=
  [Stub.row 1 (Some (5 # 2)) (Some 0);
   Stub.row 2 (Some (-5 # 2)) (Some 180)].

End Libm.

(** The filters of a search around (2.5, 0) without text filters. *)
Definition around_centre (radius_km : Q) (page page_size : Z) : Filters.t :=
  {| Filters.center_lat := 5 # 2; Filters.center_lng := 0;
     Filters.radius_km := radius_km;
     Filters.country := None; Filters.state := None; Filters.city := None;
     Filters.page := page; Filters.page_size := page_size |}.

(** The first page of the same search, narrowed to one country. *)
Definition around_centre_in (country : string) (radius_km : Q)
    (page_size : Z) : Filters.t :=
  {| Filters.center_lat := 5 # 2; Filters.center_lng := 0;
     Filters.radius_km := radius_km;
     Filters.country := Some country;
     Filters.state := None; Filters.city := None;
     Filters.page := 1; Filters.page_size := page_size |}.

(* ================================================================= *)
(** ** geocoding_service.py: the cache statistics, the reverse
       vocabulary, and the geocoding endpoints of main.py *)

Section ServiceMore.

Variable provider : Type.
Variable geocode_api :
  provider -> string -> outcome (list geocode_result) * provider.
Variable reverse_api :
  provider -> Q -> Q -> outcome (list string) * provider.
Variable md5_hexdigest : string -> string.

(** [x / y] on two integers, [y] not zero: the float nearest to the
    quotient. *)
Variable int_truediv : Z -> Z -> Q.

(** The dictionary returned by [get_cache_info]. *)
Record cache_stats : Type := {
  ci_hits : Z;
  ci_misses : Z;
  ci_maxsize : Z;
  ci_currsize : Z;
  ci_hit_rate : Q
}.

Definition get_cache_info (self : GeocodingService)
    : M provider cache_stats :=
  fun w =>
    let cache_info_hits := Z.of_nat (hits (w_cache w)) in
    let cache_info_misses := Z.of_nat (misses (w_cache w)) in
    ({| ci_hits := cache_info_hits;
        ci_misses := cache_info_misses;
        ci_maxsize := Z.of_nat maxsize;
        ci_currsize := Z.of_nat (List.length (entries (w_cache w)));
        ci_hit_rate :=
          if (cache_info_hits + cache_info_misses >? 0)%Z
          then int_truediv cache_info_hits
                 (cache_info_hits + cache_info_misses)
          else 0 |}, w).

(** The body of [POST /api/batch-geocode] (main.py). *)
Record batch_response : Type := {
  br_results : list batch_entry;
  br_total : Z;
  br_success_count : Z;
  br_failure_count : Z
}.

Definition batch_geocode_addresses (self : GeocodingService)
    (addresses : list string) : M provider (http batch_response) :=
  if (Z.of_nat (List.length addresses) >? 100)%Z
  then ret (HttpError 400)
  else
    bind (batch_geocode geocode_api md5_hexdigest self addresses)
      (fun results =>
         ret (Ok {| br_results := results;
                    br_total := Z.of_nat (List.length addresses);
                    br_success_count :=
                      Z.of_nat (List.length (filter be_success results));
                    br_failure_count :=
                      Z.of_nat (List.length
                        (filter (fun r => negb (be_success r)) results)) |})).

(** The body of [POST /api/geocode] (main.py): 404 when a coordinate is
    missing. *)
Definition geocode_address (self : GeocodingService) (address : string)
    : M provider (http (string * Q * Q)) :=
  bind (get_coordinates geocode_api md5_hexdigest self address)
    (fun c =>
       match c with
       | (Some lat, Some lng) => ret (Ok (address, lat, lng))
       | _ => ret (HttpError 404)
       end).

(* --------------------------------------------------------------- *)
(** *** Vocabulary of the reverse retry policy *)

(** The provider after [k] successive [reverse_geocode] calls. *)
Fixpoint after_reverse_calls (lat lng : Q) (k : nat) (p : provider)
    : provider :=
  match k with
  | O => p
  | S k' => after_reverse_calls lat lng k' (snd (reverse_api p lat lng))
  end.

Definition nth_reverse_response (lat lng : Q) (p : provider) (i : nat)
    : outcome (list string) :=
  fst (reverse_api (after_reverse_calls lat lng i p) lat lng).

Definition reverse_wait_after (self : GeocodingService)
    (r : outcome (list string)) (attempt_number : Z) : Q :=
  match r with
  | RaisedApiError => retry_delay self * inject_Z attempt_number
  | _ => retry_delay self
  end.

(** The events of [k] failed reverse attempts when the first of them is
    attempt number [j + 1]. *)
Definition reverse_failed_from (self : GeocodingService) (lat lng : Q)
    (p : provider) (j k : nat) : list event :=
  flat_map
    (fun i => [EvReverseGeocode lat lng;
               EvSleep (reverse_wait_after self
                          (nth_reverse_response lat lng p i)
                          (Z.of_nat (j + i) + 1))])
    (seq 0 k).

Definition reverse_exhausted (self : GeocodingService) (lat lng : Q)
    (p : provider) (n : nat) : list event :=
  match n with
  | O => []
  | S m => reverse_failed_from self lat lng p 0 m ++ [EvReverseGeocode lat lng]
  end.

(** The address read off a returned list of results. *)
Definition first_address (results : list string) : option string :=
  match results with
  | address :: _ => Some address
  | [] => None
  end.

(* --------------------------------------------------------------- *)
(** *** Vocabulary of the cache *)

(** Both coordinates or none. *)
Definition paired (c : coordinates) : Prop :=
  fst c = None <-> snd c = None.

(** A cache as [lru_cache] keeps it: at most [maxsize] entries, no key
    twice, and here every value a pair of coordinates or Unresolved. *)
Definition cache_ok (c : lru_cache) : Prop :=
  (List.length (entries c) <= maxsize)%nat
  /\ NoDup (map fst (entries c))
  /\ Forall (fun e => paired (snd e)) (entries c).

End ServiceMore.

(** The time slept in a log, in seconds. *)
Fixpoint total_sleep (log : list event) : Q :=
  match log with
  | [] => 0
  | EvSleep seconds :: rest => seconds + total_sleep rest
  | _ :: rest => total_sleep rest
  end.

(** The attempt numbers after which the loop may wait, added up: of [m]
    attempts from attempt number [j + 1] on, all but the last. *)
Fixpoint wait_budget (j m : nat) : Z :=
  match m with
  | O => 0
  | S m' =>
      match m' with
      | O => 0
      | S _ => (Z.of_nat j + 1 + wait_budget (S j) m')%Z
      end
  end.

(** Stand-ins used to run the service and its cache. *)
Module Fixture.

(** Quotients are kept exact. *)
Definition int_truediv (x y : Z) : Q := inject_Z x / inject_Z y.

(** An answer with two results on every reverse call. *)
Definition reverse_answers (calls_so_far : nat) (lat lng : Q)
    : outcome (list string) * nat :=
  (Returned ["1 Main St, New York"; "New York"]%string, S calls_so_far).

(** A transport error, an API-level error, then answers. *)
Definition reverse_fails_twice (calls_so_far : nat) (lat lng : Q)
    : outcome (list string) * nat :=
  (match calls_so_far with
   | O => RaisedException
   | S O => RaisedApiError
   | _ => Returned ["1 Main St, New York"]%string
   end, S calls_so_far).

(** A cache that is full: 1000 addresses, named by their number, none of
    them resolved. *)
Definition numbered (i : nat) : string :=
  String (ascii_of_nat (48 + i / 100))
    (String (ascii_of_nat (48 + (i / 10) mod 10))
       (String (ascii_of_nat (48 + i mod 10)) EmptyString)).

Definition full_cache : lru_cache :=
  {| entries := map (fun i => ((Stub.digest (PyStr.lower (numbered i)),
                                numbered i), Unresolved))
                  (seq 0 maxsize);
     hits := 0;
     misses := maxsize |}.

Definition full_world : world nat :=
  {| w_provider := maxsize; w_log := []; w_cache := full_cache |}.

End Fixture.

(* ================================================================= *)
(** ** models.py: the request models *)

(** [CustomerDirectoryCreate], as validated by pydantic. *)
Module CustomerDirectoryCreate.
Record t : Type := {
  customer_id : string;
  customer_name : string;
  address_id : string;
  country : string;
  country_db : option string;
  address_line1 : string;
  address_line2 : option string;
  zip_code : option string;
  city : option string;
  state : option string;
  full_address : string;
  full_description : option string;
  tags : list string;
  sales_radius : option Z
}.
End CustomerDirectoryCreate.

(** [CustomerDirectoryUpdate].  A field is unset ([None]: left out of
    [model_dump(exclude_unset=True)]), or set to a value that may itself be
    [None]. *)
Module CustomerDirectoryUpdate.
Record t : Type := {
  customer_name : option (option string);
  country : option (option string);
  country_db : option (option string);
  address_line1 : option (option string);
  address_line2 : option (option string);
  zip_code : option (option string);
  city : option (option string);
  state : option (option string);
  full_address : option (option string);
  full_description : option (option string);
  tags : option (option (list string));
  sales_radius : option (option Z)
}.

(** Reading an attribute: the value, [None] when unset. *)
Definition get {A} (field : option (option A)) : option A :=
  match field with
  | Some v => v
  | None => None
  end.
End CustomerDirectoryUpdate.

Inductive SortOrder : Type := ASC | DESC.

Inductive SortField : Type :=
| NAME | COUNTRY | CITY | STATE | ZIP_CODE | SALES_RADIUS.

(** [SearchFilters]. *)
Module SearchFilters.
Record t : Type := {
  query : option string;
  customer_id : option string;
  country : option string;
  state : option string;
  city : option string;
  zip_code : option string;
  tags : option (list string);
  min_sales_radius : option Z;
  max_sales_radius : option Z;
  sort_by : option SortField;
  sort_order : option SortOrder;
  page : Z;
  page_size : Z
}.

Definition with_page (f : t) (p : Z) : t :=
  {| query := query f; customer_id := customer_id f; country := country f;
     state := state f; city := city f; zip_code := zip_code f;
     tags := tags f; min_sales_radius := min_sales_radius f;
     max_sales_radius := max_sales_radius f; sort_by := sort_by f;
     sort_order := sort_order f; page := p; page_size := page_size f |}.
End SearchFilters.

Module NewRow := CustomerDirectoryCreate.
Module Patch := CustomerDirectoryUpdate.

(* ================================================================= *)
(** ** database.py: the repository *)

(** The table [customer_directory]: its rows in scan order, and the id
    that AUTO_INCREMENT gives to the next row. *)
Record database : Type := {
  db_rows : list Row.t;
  db_next_id : Z
}.

(** Truth value of an optional integer. *)
Definition truthy_int (o : option Z) : bool :=
  match o with
  | Some z => negb (z =? 0)%Z
  | None => false
  end.

(** [query.offset(skip).limit(limit).all()]; the database refuses a
    negative offset or limit ([None]). *)
Definition offset_limit {A} (rows : list A) (skip limit : Z)
    : option (list A) :=
  if ((skip <? 0) || (limit <? 0))%Z then None
  else Some (firstn (Z.to_nat limit) (skipn (Z.to_nat skip) rows)).

Definition with_coordinates (row : Row.t) : bool :=
  is_not_None (Row.lat row) && is_not_None (Row.lng row).

(** [row.lat = lat; row.lng = lng]. *)
Definition set_coordinates (row : Row.t) (lat lng : option Q) : Row.t :=
  {| Row.id := Row.id row;
     Row.customer_id := Row.customer_id row;
     Row.customer_name := Row.customer_name row;
     Row.address_id := Row.address_id row;
     Row.country := Row.country row;
     Row.country_db := Row.country_db row;
     Row.address_line1 := Row.address_line1 row;
     Row.address_line2 := Row.address_line2 row;
     Row.zip_code := Row.zip_code row;
     Row.city := Row.city row;
     Row.state := Row.state row;
     Row.full_address := Row.full_address row;
     Row.full_description := Row.full_description row;
     Row.lat := lat;
     Row.lng := lng;
     Row.tags := Row.tags row;
     Row.sales_radius := Row.sales_radius row;
     Row.total_amount := Row.total_amount row |}.

(** [UPDATE ... WHERE id = record_id]. *)
Definition update_where_id (rows : list Row.t) (record_id : Z)
    (change : Row.t -> Row.t) : list Row.t :=
  map (fun row => if (Row.id row =? record_id)%Z then change row else row)
      rows.

(** [DELETE ... WHERE id = record_id]. *)
Definition delete_where_id (rows : list Row.t) (record_id : Z)
    : list Row.t :=
  filter (fun row => negb (Row.id row =? record_id)%Z) rows.

Section RepositoryMore.

(** [column.ilike(pattern)], [column == value] on strings (the collation
    of the database decides), and [ORDER BY column ASC|DESC] ([true] for
    [DESC]). *)
Variable ilike : string -> string -> bool.
Variable sql_eq : string -> string -> bool.
Variable sql_order_by : SortField -> bool -> list Row.t -> list Row.t.

(** [json.dumps] on a list of strings. *)
Variable json_dumps : list string -> string.

(** [create_customer_address]; [None] is the [IntegrityError] raised by
    the commit when [zip_code], [city] or [state] is missing. *)
Definition create_customer_address (db : database) (address_data : NewRow.t)
    (lat lng : option Q) : option (Row.t * database) :=
  match NewRow.zip_code address_data, NewRow.city address_data,
        NewRow.state address_data with
  | Some zip_code, Some city, Some state =>
      let db_address :=
        {| Row.id := db_next_id db;
           Row.customer_id := NewRow.customer_id address_data;
           Row.customer_name := NewRow.customer_name address_data;
           Row.address_id := NewRow.address_id address_data;
           Row.country := NewRow.country address_data;
           Row.country_db := NewRow.country_db address_data;
           Row.address_line1 := NewRow.address_line1 address_data;
           Row.address_line2 := NewRow.address_line2 address_data;
           Row.zip_code := zip_code;
           Row.city := city;
           Row.state := state;
           Row.full_address := NewRow.full_address address_data;
           Row.full_description := NewRow.full_description address_data;
           Row.lat := lat;
           Row.lng := lng;
           Row.tags :=
             match NewRow.tags address_data with
             | [] => None
             | tags => Some (json_dumps tags)
             end;
           Row.sales_radius :=
             match NewRow.sales_radius address_data with
             | Some r => Some (if (r =? 0)%Z then 10%Z else r)
             | None => Some 10%Z
             end;
           Row.total_amount := None |} in
      Some (db_address,
            {| db_rows := db_rows db ++ [db_address];
               db_next_id := (db_next_id db + 1)%Z |})
  | _, _, _ => None
  end.

Definition get_address_by_id (db : database) (record_id : Z)
    : option Row.t :=
  find (fun row => (Row.id row =? record_id)%Z) (db_rows db).

Definition get_addresses_by_customer_id (db : database)
    (customer_id : string) : list Row.t :=
  filter (fun row => sql_eq (Row.customer_id row) customer_id) (db_rows db).

Definition get_address_by_address_id (db : database)
    (customer_id address_id : string) : option Row.t :=
  find (fun row => sql_eq (Row.customer_id row) customer_id
                   && sql_eq (Row.address_id row) address_id)
       (db_rows db).

Definition get_customer_addresses (db : database) (skip limit : Z)
    : option (list Row.t) :=
  offset_limit (db_rows db) skip limit.

Definition get_addresses_count (db : database) : Z :=
  Z.of_nat (List.length (db_rows db)).

(** One assignment of [for field, value in update_data.items():
    setattr(db_address, field, value)] to a NOT NULL column: the value
    when the field is unset, [None] when it is set to [None]. *)
Definition assign_required {A} (field : option (option A)) (old : A)
    : option A :=
  match field with
  | None => Some old
  | Some None => None
  | Some (Some v) => Some v
  end.

(** The same for a column that may be NULL. *)
Definition assign_nullable {A} (field : option (option A)) (old : option A)
    : option A :=
  match field with
  | None => old
  | Some v => v
  end.

(** The row after the assignments of [update_customer_address]; [None]
    when a NOT NULL column is set to [None]. *)
Definition apply_update (row : Row.t) (address_data : Patch.t)
    (lat lng : option Q) : option Row.t :=
  match assign_required (Patch.customer_name address_data) (Row.customer_name row),
        assign_required (Patch.country address_data) (Row.country row),
        assign_required (Patch.address_line1 address_data) (Row.address_line1 row),
        assign_required (Patch.zip_code address_data) (Row.zip_code row),
        assign_required (Patch.city address_data) (Row.city row),
        assign_required (Patch.state address_data) (Row.state row),
        assign_required (Patch.full_address address_data) (Row.full_address row)
  with
  | Some customer_name, Some country, Some address_line1, Some zip_code,
    Some city, Some state, Some full_address =>
      Some {| Row.id := Row.id row;
              Row.customer_id := Row.customer_id row;
              Row.customer_name := customer_name;
              Row.address_id := Row.address_id row;
              Row.country := country;
              Row.country_db :=
                assign_nullable (Patch.country_db address_data)
                                (Row.country_db row);
              Row.address_line1 := address_line1;
              Row.address_line2 :=
                assign_nullable (Patch.address_line2 address_data)
                                (Row.address_line2 row);
              Row.zip_code := zip_code;
              Row.city := city;
              Row.state := state;
              Row.full_address := full_address;
              Row.full_description :=
                assign_nullable (Patch.full_description address_data)
                                (Row.full_description row);
              Row.lat := match lat with Some _ => lat | None => Row.lat row end;
              Row.lng := match lng with Some _ => lng | None => Row.lng row end;
              Row.tags :=
                match Patch.tags address_data with
                | None => Row.tags row
                | Some (Some (tag :: tags)) => Some (json_dumps (tag :: tags))
                | Some _ => None
                end;
              Row.sales_radius :=
                assign_nullable (Patch.sales_radius address_data)
                                (Row.sales_radius row);
              Row.total_amount := Row.total_amount row |}
  | _, _, _, _, _, _, _ => None
  end.

(** [update_customer_address]: the outer [None] is the [IntegrityError] of
    the commit, the inner one the answer for an unknown record. *)
Definition update_customer_address (db : database) (record_id : Z)
    (address_data : Patch.t) (lat lng : option Q)
    : option (option Row.t * database) :=
  match get_address_by_id db record_id with
  | None => Some (None, db)
  | Some db_address =>
      match apply_update db_address address_data lat lng with
      | None => None
      | Some updated =>
          Some (Some updated,
                {| db_rows := update_where_id (db_rows db) record_id
                                (fun _ => updated);
                   db_next_id := db_next_id db |})
      end
  end.

Definition delete_customer_address (db : database) (record_id : Z)
    : bool * database :=
  match get_address_by_id db record_id with
  | None => (false, db)
  | Some db_address =>
      (true, {| db_rows := delete_where_id (db_rows db) record_id;
                db_next_id := db_next_id db |})
  end.

(** One optional substring filter on a column that is never NULL. *)
Definition ilike_opt (value : option string) (column : string) : bool :=
  match value with
  | Some v =>
      if PyStr.truthy v then ilike column ("%" ++ v ++ "%")%string else true
  | None => true
  end.

(** [column.ilike(pattern)] on a column that may be NULL. *)
Definition ilike_null (column : option string) (pattern : string) : bool :=
  match column with
  | Some c => ilike c pattern
  | None => false
  end.

(** The [WHERE] clause built by [search_customer_addresses]. *)
Definition search_where (filters : SearchFilters.t) (row : Row.t) : bool :=
  (match SearchFilters.query filters with
   | Some q =>
       if PyStr.truthy q then
         let search_term := ("%" ++ q ++ "%")%string in
         ilike (Row.customer_id row) search_term
         || ilike (Row.customer_name row) search_term
         || ilike (Row.full_address row) search_term
         || ilike (Row.address_line1 row) search_term
         || ilike (Row.city row) search_term
         || ilike (Row.state row) search_term
         || ilike (Row.zip_code row) search_term
         || ilike_null (Row.tags row) search_term
       else true
   | None => true
   end)
  && (match SearchFilters.customer_id filters with
      | Some c => if PyStr.truthy c then sql_eq (Row.customer_id row) c else true
      | None => true
      end)
  && ilike_opt (SearchFilters.country filters) (Row.country row)
  && ilike_opt (SearchFilters.state filters) (Row.state row)
  && ilike_opt (SearchFilters.city filters) (Row.city row)
  && ilike_opt (SearchFilters.zip_code filters) (Row.zip_code row)
  && (match SearchFilters.tags filters with
      | Some tags =>
          forallb (fun tag => ilike_null (Row.tags row)
                                ("%" ++ tag ++ "%")%string) tags
      | None => true
      end)
  && (if truthy_int (SearchFilters.min_sales_radius filters)
      then match Row.sales_radius row, SearchFilters.min_sales_radius filters with
           | Some r, Some m => (m <=? r)%Z
           | _, _ => false
           end
      else true)
  && (if truthy_int (SearchFilters.max_sales_radius filters)
      then match Row.sales_radius row, SearchFilters.max_sales_radius filters with
           | Some r, Some m => (r <=? m)%Z
           | _, _ => false
           end
      else true).

(** The rows of the query of [search_customer_addresses], in its order. *)
Definition search_query (db : database) (filters : SearchFilters.t)
    : list Row.t :=
  let matching := filter (search_where filters) (db_rows db) in
  match SearchFilters.sort_by filters with
  | Some field =>
      sql_order_by field
        (match SearchFilters.sort_order filters with
         | Some DESC => true
         | _ => false
         end)
        matching
  | None => matching
  end.

Definition search_customer_addresses (db : database)
    (filters : SearchFilters.t) : option (list Row.t * Z) :=
  let query := search_query db filters in
  let total := Z.of_nat (List.length query) in
  let skip := ((SearchFilters.page filters - 1)
               * SearchFilters.page_size filters)%Z in
  match offset_limit query skip (SearchFilters.page_size filters) with
  | Some addresses => Some (addresses, total)
  | None => None
  end.

(* --------------------------------------------------------------- *)
(** *** Vocabulary of the listings *)

(** Page [p] of the listing of [GET /api/customers], as the endpoint asks
    the repository for it. *)
Definition listing_page (db : database) (page_size : Z) (p : nat)
    : list Row.t :=
  match get_customer_addresses db ((Z.of_nat p - 1) * page_size) page_size with
  | Some addresses => addresses
  | None => []
  end.

(** Page [p] of a search. *)
Definition search_page (db : database) (filters : SearchFilters.t) (p : nat)
    : list Row.t :=
  match search_customer_addresses db
          (SearchFilters.with_page filters (Z.of_nat p)) with
  | Some (addresses, _) => addresses
  | None => []
  end.

(** Every id in the table is below the next id, and no id is there twice:
    what a primary key with AUTO_INCREMENT keeps. *)
Definition keyed (db : database) : Prop :=
  NoDup (map Row.id (db_rows db))
  /\ Forall (fun row => (Row.id row < db_next_id db)%Z) (db_rows db).

End RepositoryMore.

(* ================================================================= *)
(** ** main.py: the endpoints that write coordinates *)

(** The status of one entry of the details of a batch update.  (The
    status "error" belongs to the [except] branch of the loop, which the
    resolver never enters: it raises nothing.) *)
Inductive update_status : Type := StatusSuccess | StatusFailed.

Record update_detail : Type := {
  ud_id : Z;
  ud_customer_name : string;
  ud_address : string;
  ud_lat : option Q;
  ud_lng : option Q;
  ud_status : update_status
}.

(** The dictionary [results] of [batch_update_coordinates]. *)
Record update_results : Type := {
  ur_processed : Z;
  ur_successful : Z;
  ur_failed : Z;
  ur_details : list update_detail
}.

(** Its two answers: nothing to update, or the results. *)
Inductive batch_update_body : Type :=
| NothingToUpdate
| Updated (results : update_results).

(** The answer of [GET /api/geocode/status]. *)
Record geocode_status : Type := {
  gs_total_addresses : Z;
  gs_with_coordinates : Z;
  gs_without_coordinates : Z;
  gs_completion_rate : Q
}.

(** [PaginatedResponse]. *)
Record paginated_response (R : Type) : Type := {
  pr_items : list R;
  pr_total : Z;
  pr_page : Z;
  pr_page_size : Z;
  pr_total_pages : Z
}.

(** [[f(x) for x in l]] where [f] may raise. *)
Fixpoint traverse {A B} (f : A -> option B) (l : list A) : option (list B) :=
  match l with
  | [] => Some []
  | x :: rest =>
      match f x with
      | Some y =>
          match traverse f rest with
          | Some ys => Some (y :: ys)
          | None => None
          end
      | None => None
      end
  end.

Section Api.

Variable provider : Type.
Variable geocode_api :
  provider -> string -> outcome (list geocode_result) * provider.
Variable md5_hexdigest : string -> string.
Variable sql_eq : string -> string -> bool.
Variable json_dumps : list string -> string.

(** [CustomerDirectoryResponse.model_validate(row)]: the response model
    of a row, [None] when the validation raises. *)
Variable response : Type.
Variable model_validate : Row.t -> option response.

(** Float arithmetic of the status endpoint. *)
Variable int_truediv : Z -> Z -> Q.
Variable fl : Q -> Q.
Variable round_2 : Q -> Q.

Local Abbreviation get_coordinates :=
  (get_coordinates geocode_api md5_hexdigest).

(** [POST /api/customers]. *)
Definition create_endpoint (self : GeocodingService) (db : database)
    (address_data : NewRow.t) : M provider (http response * database) :=
  match get_address_by_address_id sql_eq db
          (NewRow.customer_id address_data)
          (NewRow.address_id address_data) with
  | Some existing_address => ret (HttpError 400, db)
  | None =>
      bind (get_coordinates self (NewRow.full_address address_data))
        (fun c =>
           match create_customer_address json_dumps db address_data
                   (fst c) (snd c) with
           | None => ret (HttpError 500, db)
           | Some (db_address, db') =>
               match model_validate db_address with
               | Some body => ret (Ok body, db')
               | None => ret (HttpError 500, db')
               end
           end)
  end.

(** [PUT /api/customers/{record_id}]. *)
Definition update_endpoint (self : GeocodingService) (db : database)
    (record_id : Z) (address_data : Patch.t)
    : M provider (http response * database) :=
  match get_address_by_id db record_id with
  | None => ret (HttpError 404, db)
  | Some existing_address =>
      bind
        (match Patch.get (Patch.full_address address_data) with
         | Some full_address =>
             if PyStr.truthy full_address
                && negb (String.eqb full_address
                           (Row.full_address existing_address))
             then get_coordinates self full_address
             else ret Unresolved
         | None => ret Unresolved
         end)
        (fun c =>
           match update_customer_address json_dumps db record_id address_data
                   (fst c) (snd c) with
           | Some (Some updated_address, db') =>
               match model_validate updated_address with
               | Some body => ret (Ok body, db')
               | None => ret (HttpError 500, db')
               end
           | Some (None, db') => ret (HttpError 500, db')
           | None => ret (HttpError 500, db)
           end)
  end.

(** [GET /api/customers]: 422 for parameters out of range. *)
Definition list_endpoint (db : database) (page page_size : Z)
    : http (paginated_response response) :=
  if ((1 <=? page) && (1 <=? page_size) && (page_size <=? 100))%Z then
    let skip := ((page - 1) * page_size)%Z in
    match get_customer_addresses db skip page_size with
    | None => HttpError 500
    | Some addresses =>
        let total := get_addresses_count db in
        let total_pages := Qceiling (inject_Z total / inject_Z page_size) in
        match traverse model_validate addresses with
        | None => HttpError 500
        | Some items =>
            Ok {| pr_items := items;
                  pr_total := total;
                  pr_page := page;
                  pr_page_size := page_size;
                  pr_total_pages := total_pages |}
        end
    end
  else HttpError 422.

(** The body of [for address in addresses_without_coords] of
    [batch_update_coordinates].  The literal [0.2] is the rational 2/10. *)
Fixpoint batch_update_loop (self : GeocodingService)
    (addresses : list Row.t) (db : database) (results : update_results)
    : M provider (update_results * database) :=
  match addresses with
  | [] => ret (results, db)
  | address :: rest =>
      bind (get_coordinates self (Row.full_address address))
        (fun c =>
           let step :=
             match c with
             | (Some lat, Some lng) =>
                 ({| ur_processed := ur_processed results;
                     ur_successful := (ur_successful results + 1)%Z;
                     ur_failed := ur_failed results;
                     ur_details :=
                       ur_details results ++
                       [{| ud_id := Row.id address;
                           ud_customer_name := Row.customer_name address;
                           ud_address := Row.full_address address;
                           ud_lat := Some lat;
                           ud_lng := Some lng;
                           ud_status := StatusSuccess |}] |},
                  {| db_rows :=
                       update_where_id (db_rows db) (Row.id address)
                         (fun row => set_coordinates row (Some lat) (Some lng));
                     db_next_id := db_next_id db |})
             | _ =>
                 ({| ur_processed := ur_processed results;
                     ur_successful := ur_successful results;
                     ur_failed := (ur_failed results + 1)%Z;
                     ur_details :=
                       ur_details results ++
                       [{| ud_id := Row.id address;
                           ud_customer_name := Row.customer_name address;
                           ud_address := Row.full_address address;
                           ud_lat := None;
                           ud_lng := None;
                           ud_status := StatusFailed |}] |},
                  db)
             end in
           let results' :=
             {| ur_processed := (ur_processed (fst step) + 1)%Z;
                ur_successful := ur_successful (fst step);
                ur_failed := ur_failed (fst step);
                ur_details := ur_details (fst step) |} in
           bind (time_sleep (2 # 10))
             (fun _ => batch_update_loop self rest (snd step) results'))
  end.

(** The rows selected by [batch_update_coordinates]. *)
Definition addresses_without_coords (db : database) (offset limit : Z)
    : option (list Row.t) :=
  offset_limit (filter (fun row => negb (with_coordinates row)) (db_rows db))
               offset limit.

(** [POST /api/geocode/batch-update]: 422 for parameters out of range. *)
Definition batch_update_coordinates (self : GeocodingService) (db : database)
    (limit offset : Z) : M provider (http batch_update_body * database) :=
  if ((1 <=? limit) && (limit <=? 100) && (0 <=? offset))%Z then
    match addresses_without_coords db offset limit with
    | None => ret (HttpError 500, db)
    | Some [] => ret (Ok NothingToUpdate, db)
    | Some addresses =>
        bind (batch_update_loop self addresses db
                {| ur_processed := 0; ur_successful := 0; ur_failed := 0;
                   ur_details := [] |})
          (fun out => ret (Ok (Updated (fst out)), snd out))
    end
  else ret (HttpError 422, db).

(** [GET /api/geocode/status]. *)
Definition get_geocode_status (db : database) : geocode_status :=
  let total_addresses := Z.of_nat (List.length (db_rows db)) in
  let addresses_with_coords :=
    Z.of_nat (List.length (filter with_coordinates (db_rows db))) in
  {| gs_total_addresses := total_addresses;
     gs_with_coordinates := addresses_with_coords;
     gs_without_coordinates := (total_addresses - addresses_with_coords)%Z;
     gs_completion_rate :=
       if (total_addresses >? 0)%Z
       then round_2 (fl (int_truediv addresses_with_coords total_addresses
                         * 100))
       else 0 |}.

End Api.

(** The three things that one turn of the batch update does to its
    results and to the table. *)
Definition record_success (results : update_results) (address : Row.t)
    (lat lng : Q) : update_results :=
  {| ur_processed := (ur_processed results + 1)%Z;
     ur_successful := (ur_successful results + 1)%Z;
     ur_failed := ur_failed results;
     ur_details :=
       ur_details results ++
       [{| ud_id := Row.id address;
           ud_customer_name := Row.customer_name address;
           ud_address := Row.full_address address;
           ud_lat := Some lat;
           ud_lng := Some lng;
           ud_status := StatusSuccess |}] |}.

Definition record_failure (results : update_results) (address : Row.t)
    : update_results :=
  {| ur_processed := (ur_processed results + 1)%Z;
     ur_successful := ur_successful results;
     ur_failed := (ur_failed results + 1)%Z;
     ur_details :=
       ur_details results ++
       [{| ud_id := Row.id address;
           ud_customer_name := Row.customer_name address;
           ud_address := Row.full_address address;
           ud_lat := None;
           ud_lng := None;
           ud_status := StatusFailed |}] |}.

Definition write_coordinates (db : database) (address : Row.t) (lat lng : Q)
    : database :=
  {| db_rows :=
       update_where_id (db_rows db) (Row.id address)
         (fun row => set_coordinates row (Some lat) (Some lng));
     db_next_id := db_next_id db |}.

(** The number of rows with both coordinates. *)
Definition count_with_coordinates (db : database) : nat :=
  List.length (filter with_coordinates (db_rows db)).

(** Every row has both coordinates or none. *)
Definition rows_paired (db : database) : Prop :=
  Forall (fun row => paired (Row.lat row, Row.lng row)) (db_rows db).

(** Stand-ins used to run the repository and the endpoints. *)
Module Desk.

Definition sql_eq (a b : string) : bool := String.eqb a b.
Definition sql_order_by (field : SortField) (desc : bool)
    (rows : list Row.t) : list Row.t := rows.
Definition json_dumps (tags : list string) : string :=
  String.concat "," tags.
Definition model_validate (row : Row.t) : option Row.t := Some row.

(** A table of two rows: one with coordinates, one without. *)
Definition db : database :=
  {| db_rows := [Stub.row 1 (Some 0) (Some 0); Stub.row 2 None None];
     db_next_id := 3 |}.

Definition new_row : NewRow.t :=
  {| NewRow.customer_id := "C9"; NewRow.customer_name := "Grace";
     NewRow.address_id := "A1"; NewRow.country := "US";
     NewRow.country_db := None; NewRow.address_line1 := "5 Elm St";
     NewRow.address_line2 := None; NewRow.zip_code := Some "10002";
     NewRow.city := Some "New York"; NewRow.state := Some "NY";
     NewRow.full_address := "5 Elm St, New York, NY";
     NewRow.full_description := None; NewRow.tags := ["vip"];
     NewRow.sales_radius := None |}%string.

(** A patch that sets nothing but the full address. *)
Definition patch_address (full_address : string) : Patch.t :=
  {| Patch.customer_name := None; Patch.country := None;
     Patch.country_db := None; Patch.address_line1 := None;
     Patch.address_line2 := None; Patch.zip_code := None;
     Patch.city := None; Patch.state := None;
     Patch.full_address := Some (Some full_address);
     Patch.full_description := None; Patch.tags := None;
     Patch.sales_radius := None |}.

Definition no_filters (page page_size : Z) : SearchFilters.t :=
  {| SearchFilters.query := None; SearchFilters.customer_id := None;
     SearchFilters.country := None; SearchFilters.state := None;
     SearchFilters.city := None; SearchFilters.zip_code := None;
     SearchFilters.tags := None; SearchFilters.min_sales_radius := None;
     SearchFilters.max_sales_radius := None;
     SearchFilters.sort_by := Some NAME; SearchFilters.sort_order := Some ASC;
     SearchFilters.page := page; SearchFilters.page_size := page_size |}.

End Desk.


(* ================================================================= *)
(** * Properties of the resolver *)

(** ** Strings *)

Lemma lstrip_all_space s : PyStr.all_space s = true -> PyStr.lstrip s = EmptyString.
Proof.
  induction s as [|c s IH]; simpl; intros H.
  - reflexivity.
  - apply andb_true_iff in H. destruct H as [Hc Hs].
    rewrite Hc. now apply IH.
Qed.

Lemma strip_all_space s : PyStr.all_space s = true -> PyStr.strip s = EmptyString.
Proof.
  intros H. unfold PyStr.strip. now rewrite (lstrip_all_space _ H).
Qed.

(** ** Logs *)

Lemma provider_calls_app l1 l2 :
  provider_calls (l1 ++ l2) = (provider_calls l1 + provider_calls l2)%nat.
Proof.
  unfold provider_calls. now rewrite filter_app, length_app.
Qed.

Lemma sleeps_app l1 l2 : sleeps (l1 ++ l2) = (sleeps l1 + sleeps l2)%nat.
Proof.
  unfold sleeps. now rewrite filter_app, length_app.
Qed.

Lemma flat_map_seq_succ {A} (f : nat -> list A) k :
  flat_map f (seq 0 (S k)) = f 0%nat ++ flat_map (fun i => f (S i)) (seq 0 k).
Proof.
  simpl. f_equal. rewrite <- seq_shift.
  induction (seq 0 k) as [|x l IH]; simpl; [reflexivity | now rewrite IH].
Qed.

Section ServiceProperties.

Variable provider : Type.
Variable geocode_api :
  provider -> string -> outcome (list geocode_result) * provider.
Variable reverse_api :
  provider -> Q -> Q -> outcome (list string) * provider.
Variable md5_hexdigest : string -> string.

Local Abbreviation world := (world provider).
Local Abbreviation geocode_attempts := (geocode_attempts geocode_api).
Local Abbreviation _geocode_with_retry := (_geocode_with_retry geocode_api).
Local Abbreviation _cached_geocode := (_cached_geocode geocode_api).
Local Abbreviation get_coordinates :=
  (get_coordinates geocode_api md5_hexdigest).
Local Abbreviation batch_geocode := (batch_geocode geocode_api md5_hexdigest).
Local Abbreviation batch_loop := (batch_loop geocode_api md5_hexdigest).
Local Abbreviation reverse_attempts := (reverse_attempts reverse_api).
Local Abbreviation reverse_geocode := (reverse_geocode reverse_api).
Local Abbreviation get_place_details := (get_place_details geocode_api).
Local Abbreviation serve := (serve geocode_api reverse_api md5_hexdigest).
Local Abbreviation reachable :=
  (reachable geocode_api reverse_api md5_hexdigest).
Local Abbreviation batch_run := (batch_run geocode_api md5_hexdigest).
Local Abbreviation nth_response := (nth_response geocode_api).
Local Abbreviation quiet := (@quiet provider).
Local Abbreviation failed_from := (failed_from geocode_api).
Local Abbreviation cache_key := (cache_key md5_hexdigest).
Local Abbreviation after_geocode_calls := (after_geocode_calls geocode_api).
Local Abbreviation failed_attempts := (failed_attempts geocode_api).
Local Abbreviation exhausted_attempts := (exhausted_attempts geocode_api).

(** ** The retry loop *)

Lemma failed_from_0 self a p k :
  failed_from self a p 0 k = failed_attempts self a p k.
Proof. reflexivity. Qed.

Lemma failed_from_succ self a p j k :
  failed_from self a p j (S k) =
    EvGeocode a
    :: EvSleep (wait_after self (fst (geocode_api p a)) (Z.of_nat j + 1))
    :: failed_from self a (snd (geocode_api p a)) (S j) k.
Proof.
  unfold failed_from. rewrite flat_map_seq_succ. simpl.
  rewrite Nat.add_0_r. do 2 f_equal.
  apply flat_map_ext. intros i. unfold nth_response. simpl.
  now replace (Z.of_nat (j + S i)) with (Z.of_nat (S (j + i))) by lia.
Qed.

Lemma provider_calls_failed_from self a p j k :
  provider_calls (failed_from self a p j k) = k.
Proof.
  revert p j. induction k as [|k IH]; intros p j.
  - reflexivity.
  - rewrite failed_from_succ.
    change (S (provider_calls (failed_from self a (snd (geocode_api p a)) (S j) k)) = S k).
    now rewrite IH.
Qed.

Lemma retry_test self j m :
  (j + S (S m))%nat = Z.to_nat (max_retries self) ->
  (Z.of_nat j <? max_retries self - 1)%Z = true.
Proof. intros H. apply Z.ltb_lt. lia. Qed.

Lemma last_test self j :
  (j + 1)%nat = Z.to_nat (max_retries self) ->
  (Z.of_nat j <? max_retries self - 1)%Z = false.
Proof. intros H. apply Z.ltb_ge. lia. Qed.

(** One turn of the loop. *)
Lemma geocode_attempts_cons self a attempt rest (w : world) :
  geocode_attempts self a (attempt :: rest) w =
    let (r, p) := geocode_api (w_provider w) a in
    let w1 := {| w_provider := p;
                 w_log := w_log w ++ [EvGeocode a];
                 w_cache := w_cache w |} in
    match r with
    | Returned rs => (first_location rs, w1)
    | _ =>
        if (attempt <? max_retries self - 1)%Z
        then geocode_attempts self a rest
               {| w_provider := p;
                  w_log := (w_log w ++ [EvGeocode a])
                             ++ [EvSleep (wait_after self r (attempt + 1))];
                  w_cache := w_cache w |}
        else (Unresolved, w1)
    end.
Proof.
  cbn [geocode_attempts]. unfold bind, client_geocode.
  destruct (geocode_api (w_provider w) a) as [[[|first rs]| |] p];
    try reflexivity;
    destruct (attempt <? max_retries self - 1)%Z; reflexivity.
Qed.

Lemma nth_response_succ a (p : provider) i :
  nth_response a p (S i) = nth_response a (snd (geocode_api p a)) i.
Proof. reflexivity. Qed.

Lemma nth_response_0 a (p : provider) :
  nth_response a p 0 = fst (geocode_api p a).
Proof. reflexivity. Qed.

(** The loop when attempt [k] (counted from the current one) is the first
    to be answered. *)
Lemma geocode_attempts_answered self a : forall k m j (w : world) rs,
  (j + m)%nat = Z.to_nat (max_retries self) ->
  (k < m)%nat ->
  (forall i, (i < k)%nat -> is_error (nth_response a (w_provider w) i) = true) ->
  nth_response a (w_provider w) k = Returned rs ->
  geocode_attempts self a (map Z.of_nat (seq j m)) w =
    (first_location rs,
     {| w_provider := after_geocode_calls a (S k) (w_provider w);
        w_log := w_log w ++ failed_from self a (w_provider w) j k
                       ++ [EvGeocode a];
        w_cache := w_cache w |}).
Proof.
  induction k as [|k IH]; intros m j w rs Hn Hk Herr Hans.
  - destruct m as [|m]; [lia|].
    change (map Z.of_nat (seq j (S m)))
      with (Z.of_nat j :: map Z.of_nat (seq (S j) m)).
    rewrite geocode_attempts_cons. rewrite nth_response_0 in Hans.
    cbn [after_geocode_calls].
    destruct (geocode_api (w_provider w) a) as [r p].
    cbn [fst snd] in *. subst r. reflexivity.
  - destruct m as [|[|m]]; try lia.
    assert (H0 := Herr 0%nat ltac:(lia)). rewrite nth_response_0 in H0.
    change (map Z.of_nat (seq j (S (S m))))
      with (Z.of_nat j :: map Z.of_nat (seq (S j) (S m))).
    rewrite geocode_attempts_cons, failed_from_succ.
    rewrite (retry_test self j m Hn).
    rewrite nth_response_succ in Hans.
    assert (Herr' : forall i, (i < k)%nat ->
              is_error (nth_response a (snd (geocode_api (w_provider w) a)) i) = true).
    { intros i Hi. rewrite <- nth_response_succ. apply Herr. lia. }
    change (after_geocode_calls a (S (S k)) (w_provider w))
      with (after_geocode_calls a (S k) (snd (geocode_api (w_provider w) a))).
    destruct (geocode_api (w_provider w) a) as [r p].
    cbn [fst snd] in *.
    destruct r as [rs0| |]; [discriminate H0| |];
      (rewrite IH with (rs := rs); cbn [w_provider w_log w_cache];
       [ rewrite <- !app_assoc; reflexivity | lia | lia | assumption | assumption ]).
Qed.

(** The loop when none of the [m] attempts that remain is answered. *)
Lemma geocode_attempts_exhausted self a : forall m j (w : world),
  (j + m)%nat = Z.to_nat (max_retries self) ->
  (forall i, (i < m)%nat -> is_error (nth_response a (w_provider w) i) = true) ->
  geocode_attempts self a (map Z.of_nat (seq j m)) w =
    (Unresolved,
     {| w_provider := after_geocode_calls a m (w_provider w);
        w_log := w_log w ++
                 match m with
                 | O => []
                 | S m' => failed_from self a (w_provider w) j m'
                             ++ [EvGeocode a]
                 end;
        w_cache := w_cache w |}).
Proof.
  induction m as [|m IH]; intros j w Hn Herr.
  - simpl. rewrite app_nil_r. now destruct w.
  - assert (H0 := Herr 0%nat ltac:(lia)). rewrite nth_response_0 in H0.
    change (map Z.of_nat (seq j (S m)))
      with (Z.of_nat j :: map Z.of_nat (seq (S j) m)).
    rewrite geocode_attempts_cons.
    assert (Herr' : forall i, (i < m)%nat ->
              is_error (nth_response a (snd (geocode_api (w_provider w) a)) i) = true).
    { intros i Hi. rewrite <- nth_response_succ. apply Herr. lia. }
    change (after_geocode_calls a (S m) (w_provider w))
      with (after_geocode_calls a m (snd (geocode_api (w_provider w) a))).
    destruct m as [|m].
    + rewrite (last_test self j) by lia.
      cbn [failed_from flat_map seq app after_geocode_calls].
      destruct (geocode_api (w_provider w) a) as [[rs| |] p];
        cbn [fst snd] in *; [discriminate H0| |]; reflexivity.
    + rewrite (retry_test self j m Hn), failed_from_succ.
      destruct (geocode_api (w_provider w) a) as [r p].
      cbn [fst snd] in *.
      destruct r as [rs0| |]; [discriminate H0| |];
        (rewrite IH; cbn [w_provider w_log w_cache];
         [ rewrite <- !app_assoc; reflexivity | lia | assumption ]).
Qed.

(** Whatever the provider answers, the loop only adds events to the log,
    makes at most one call for each attempt, and leaves the cache alone. *)
Lemma geocode_attempts_bound self a : forall attempts (w : world),
  exists evs,
    w_log (snd (geocode_attempts self a attempts w)) = w_log w ++ evs
    /\ (provider_calls evs <= List.length attempts)%nat
    /\ w_cache (snd (geocode_attempts self a attempts w)) = w_cache w
    /\ (attempts <> [] -> exists evs', evs = EvGeocode a :: evs').
Proof.
  induction attempts as [|attempt rest IH]; intros w.
  - exists []. simpl. rewrite app_nil_r. repeat split; auto. congruence.
  - rewrite geocode_attempts_cons.
    destruct (geocode_api (w_provider w) a) as [r p].
    assert (Hstop : exists evs,
              w_log w ++ [EvGeocode a] = w_log w ++ evs
              /\ (provider_calls evs <= List.length (attempt :: rest))%nat
              /\ w_cache w = w_cache w
              /\ (attempt :: rest <> [] -> exists evs', evs = EvGeocode a :: evs')).
    { exists [EvGeocode a]. repeat split; simpl; try lia.
      - unfold provider_calls. simpl. lia.
      - intros _. now exists []. }
    destruct r as [rs| |]; cbn [snd w_log w_cache]; try exact Hstop;
      (destruct (attempt <? max_retries self - 1)%Z;
       cbn [snd w_log w_cache]; try exact Hstop;
       match goal with
       | |- context [geocode_attempts self a rest ?w1] =>
           destruct (IH w1) as (evs & Hlog & Hcalls & Hcache & _);
           rewrite Hlog, Hcache; cbn [w_log w_cache];
           eexists; repeat split;
           [ rewrite <- !app_assoc; simpl; reflexivity
           | change (S (provider_calls evs) <= S (List.length rest))%nat; lia
           | intros _; eexists; reflexivity ]
       end).
Qed.

(** ** The resolver *)

Lemma key_eqb_refl k : key_eqb k k = true.
Proof. unfold key_eqb. now rewrite !String.eqb_refl. Qed.

Lemma truthy_strip a :
  PyStr.truthy (PyStr.strip a) = true -> PyStr.truthy a = true.
Proof. destruct a; [discriminate | reflexivity]. Qed.

Lemma get_coordinates_blank self a (w : world) :
  PyStr.truthy (PyStr.strip a) = false ->
  get_coordinates self a w = (Unresolved, w).
Proof.
  intros H. unfold get_coordinates. rewrite H.
  now rewrite orb_true_r.
Qed.

Lemma get_coordinates_hit self a (w : world) v :
  PyStr.truthy (PyStr.strip a) = true ->
  cache_find (cache_key a) (entries (w_cache w)) = Some v ->
  get_coordinates self a w =
    (v, {| w_provider := w_provider w;
           w_log := w_log w;
           w_cache := cache_touch (cache_key a) v (w_cache w) |}).
Proof.
  intros Ht Hf. unfold get_coordinates.
  rewrite Ht, (truthy_strip _ Ht). cbn [negb orb].
  unfold _cached_geocode. fold (cache_key a). now rewrite Hf.
Qed.

Lemma get_coordinates_miss self a (w : world) :
  PyStr.truthy (PyStr.strip a) = true ->
  cache_find (cache_key a) (entries (w_cache w)) = None ->
  get_coordinates self a w =
    (fst (_geocode_with_retry self (PyStr.strip a) w),
     {| w_provider := w_provider (snd (_geocode_with_retry self (PyStr.strip a) w));
        w_log := w_log (snd (_geocode_with_retry self (PyStr.strip a) w));
        w_cache := cache_store (cache_key a)
                     (fst (_geocode_with_retry self (PyStr.strip a) w))
                     (w_cache (snd (_geocode_with_retry self (PyStr.strip a) w))) |}).
Proof.
  intros Ht Hf. unfold get_coordinates.
  rewrite Ht, (truthy_strip _ Ht). cbn [negb orb].
  unfold _cached_geocode. fold (cache_key a). rewrite Hf.
  now destruct (_geocode_with_retry self (PyStr.strip a) w).
Qed.

Lemma cache_store_find k v c :
  cache_find k (entries (cache_store k v c)) = Some v.
Proof.
  unfold cache_store. cbn [entries].
  change (firstn maxsize ((k, v) :: entries c))
    with ((k, v) :: firstn (pred maxsize) (entries c)).
  cbn [cache_find]. now rewrite key_eqb_refl.
Qed.

Lemma cache_touch_find k v c :
  cache_find k (entries (cache_touch k v c)) = Some v.
Proof.
  unfold cache_touch. cbn [entries cache_find]. now rewrite key_eqb_refl.
Qed.

Lemma geocode_with_retry_client self key a (w : world) :
  client self = Some key ->
  _geocode_with_retry self a w =
    geocode_attempts self a
      (map Z.of_nat (seq 0 (Z.to_nat (max_retries self)))) w.
Proof. intros H. unfold _geocode_with_retry, py_range. now rewrite H. Qed.

(** C1. On a cache miss for a non-empty address, with [n = max_retries]
    and [a] the trimmed address: the resolver calls the provider at most
    [n] times.  If attempt [k + 1 <= n] is the first that the provider
    answers, the log grows by [k] failed attempts, each followed by its
    wait ([retry_delay * attempt_number] after an API-level error,
    [retry_delay] after another exception), and by the answered call with
    no wait after it; the result is the location of the first result, or
    Unresolved at once when the list is empty.  If none of the [n] attempts
    is answered, the result is Unresolved after exactly [n] calls, with a
    wait after each attempt but the last. *)
Theorem retry_policy self key address (w : world) :
  client self = Some key ->
  PyStr.truthy (PyStr.strip address) = true ->
  cache_find (cache_key address) (entries (w_cache w)) = None ->
  let a := PyStr.strip address in
  let n := Z.to_nat (max_retries self) in
  let p := w_provider w in
  let res := fst (get_coordinates self address w) in
  let log' := w_log (snd (get_coordinates self address w)) in
  (exists evs, log' = w_log w ++ evs /\ (provider_calls evs <= n)%nat)
  /\ (forall k rs,
        (k < n)%nat ->
        (forall i, (i < k)%nat -> is_error (nth_response a p i) = true) ->
        nth_response a p k = Returned rs ->
        res = first_location rs
        /\ log' = w_log w ++ failed_attempts self a p k ++ [EvGeocode a]
        /\ provider_calls (failed_attempts self a p k ++ [EvGeocode a]) = S k)
  /\ ((forall i, (i < n)%nat -> is_error (nth_response a p i) = true) ->
        res = Unresolved
        /\ log' = w_log w ++ exhausted_attempts self a p n
        /\ provider_calls (exhausted_attempts self a p n) = n).
Proof.
  intros Hclient Hne Hmiss a n p res log'.
  subst res log'. rewrite (get_coordinates_miss self address w Hne Hmiss).
  cbn [fst snd w_log]. fold a.
  rewrite (geocode_with_retry_client self a w Hclient). fold n.
  split; [|split].
  - destruct (geocode_attempts_bound self a (map Z.of_nat (seq 0 n)) w)
      as (evs & Hlog & Hcalls & _).
    exists evs. split; [exact Hlog|].
    now rewrite length_map, length_seq in Hcalls.
  - intros k rs Hk Herr Hans.
    rewrite (@geocode_attempts_answered self a k n 0%nat w rs);
      try assumption; [|reflexivity].
    cbn [fst snd w_log]. rewrite failed_from_0. repeat split.
    rewrite provider_calls_app, <- failed_from_0, provider_calls_failed_from.
    unfold provider_calls. simpl. lia.
  - intros Herr.
    rewrite (@geocode_attempts_exhausted self a n 0%nat w);
      try assumption; [|reflexivity].
    cbn [fst snd w_log]. repeat split.
    unfold exhausted_attempts. destruct n as [|m]; [reflexivity|].
    rewrite provider_calls_app, <- failed_from_0, provider_calls_failed_from.
    unfold provider_calls. simpl. lia.
Qed.

(** C2. Resolving the same address twice in a row, with no [clear_cache]
    in between, gives the same result twice, and the second call does not
    touch the provider (nor the clock): whether the first result was a pair
    of coordinates or Unresolved. *)
Theorem resolve_twice_memoized self address (w : world) :
  let first := get_coordinates self address w in
  let second := get_coordinates self address (snd first) in
  fst second = fst first
  /\ w_log (snd second) = w_log (snd first)
  /\ w_provider (snd second) = w_provider (snd first)
  /\ provider_calls (w_log (snd second)) = provider_calls (w_log (snd first)).
Proof.
  intros first second.
  assert (H : fst second = fst first
              /\ w_log (snd second) = w_log (snd first)
              /\ w_provider (snd second) = w_provider (snd first)).
  { subst first second.
    destruct (PyStr.truthy (PyStr.strip address)) eqn:Ht.
    - assert (Hin : cache_find (cache_key address)
                      (entries (w_cache (snd (get_coordinates self address w))))
                    = Some (fst (get_coordinates self address w))).
      { destruct (cache_find (cache_key address) (entries (w_cache w))) as [v|] eqn:Hf.
        - rewrite (get_coordinates_hit self address w Ht Hf).
          cbn [fst snd w_cache]. apply cache_touch_find.
        - rewrite (get_coordinates_miss self address w Ht Hf).
          cbn [fst snd w_cache]. apply cache_store_find. }
      rewrite (get_coordinates_hit self address _ Ht Hin).
      cbn [fst snd w_log w_provider]. auto.
    - rewrite !(get_coordinates_blank self address _ Ht).
      cbn [fst snd]. auto. }
  destruct H as (H1 & H2 & H3). repeat split; try assumption.
  now rewrite H2.
Qed.

(** C3 (the code at the failing input).  The digest of the lower-cased
    address is the same for "Main St" and "main st", but the cache entry
    also holds the address as typed: after "Main St" has been resolved,
    resolving "main st" misses the cache and calls the provider again. *)
Theorem cache_entry_is_case_sensitive (p : provider) :
  let self := __init__ (Some "AIza"%string) in
  let w1 := snd (get_coordinates self "Main St" (initial_world p)) in
  let w2 := snd (get_coordinates self "main st" w1) in
  _get_cache_key md5_hexdigest "Main St" = _get_cache_key md5_hexdigest "main st"
  /\ cache_find (cache_key "main st") (entries (w_cache w1)) = None
  /\ exists evs, w_log w2 = w_log w1 ++ EvGeocode "main st" :: evs.
Proof.
  intros self w1 w2.
  assert (Hmiss : cache_find (cache_key "main st") (entries (w_cache w1)) = None).
  { subst w1.
    rewrite (get_coordinates_miss self "Main St" (initial_world p)
               eq_refl eq_refl).
    cbn [snd w_cache]. unfold cache_store. cbn [entries].
    match goal with
    | |- context [firstn maxsize (?x :: ?l)] =>
        change (firstn maxsize (x :: l)) with (x :: firstn (pred maxsize) l)
    end.
    cbn [cache_find].
    replace (key_eqb (cache_key "main st") (cache_key "Main St")) with false.
    - destruct (geocode_attempts_bound self "Main St"
                  (map Z.of_nat (seq 0 3)) (initial_world p))
        as (_ & _ & _ & Hc & _).
      change (_geocode_with_retry self (PyStr.strip "Main St") (initial_world p))
        with (geocode_attempts self "Main St" (map Z.of_nat (seq 0 3))
                (initial_world p)).
      now rewrite Hc.
    - unfold key_eqb, cache_key. cbn [fst snd].
      rewrite andb_comm. reflexivity. }
  split; [reflexivity|]. split; [exact Hmiss|].
  subst w2. rewrite (get_coordinates_miss self "main st" w1 eq_refl Hmiss).
  cbn [snd w_log].
  change (_geocode_with_retry self (PyStr.strip "main st") w1)
    with (geocode_attempts self "main st" (map Z.of_nat (seq 0 3)) w1).
  destruct (geocode_attempts_bound self "main st" (map Z.of_nat (seq 0 3)) w1)
    as (evs & Hlog & _ & _ & Hfirst).
  destruct Hfirst as [evs' ->]; [discriminate|].
  exists evs'. exact Hlog.
Qed.

(** C4. For an address that is empty or made of white space only, the
    resolver returns Unresolved and leaves the world as it was: no provider
    call, no retry, no wait, no cache entry. *)
Theorem blank_address_unresolved self address (w : world) :
  PyStr.all_space address = true ->
  get_coordinates self address w = (Unresolved, w)
  /\ provider_calls (w_log (snd (get_coordinates self address w)))
     = provider_calls (w_log w).
Proof.
  intros H.
  assert (E : get_coordinates self address w = (Unresolved, w)).
  { apply get_coordinates_blank. now rewrite (strip_all_space _ H). }
  now rewrite E.
Qed.

(** ** The batch variant *)

Lemma geocode_with_retry_log self a (w : world) :
  exists evs,
    w_log (snd (_geocode_with_retry self a w)) = w_log w ++ evs
    /\ (provider_calls evs <= Z.to_nat (max_retries self))%nat.
Proof.
  unfold _geocode_with_retry. destruct (client self).
  - destruct (geocode_attempts_bound self a (py_range (max_retries self)) w)
      as (evs & Hlog & Hcalls & _).
    exists evs. split; [exact Hlog|].
    unfold py_range in Hcalls. now rewrite length_map, length_seq in Hcalls.
  - exists []. simpl. rewrite app_nil_r. split; [reflexivity|].
    unfold provider_calls. simpl. lia.
Qed.

Lemma get_coordinates_log self a (w : world) :
  exists evs, w_log (snd (get_coordinates self a w)) = w_log w ++ evs.
Proof.
  destruct (PyStr.truthy (PyStr.strip a)) eqn:Ht.
  - destruct (cache_find (cache_key a) (entries (w_cache w))) as [v|] eqn:Hf.
    + rewrite (get_coordinates_hit self a w Ht Hf). exists [].
      cbn [snd w_log]. now rewrite app_nil_r.
    + rewrite (get_coordinates_miss self a w Ht Hf). cbn [snd w_log].
      destruct (geocode_with_retry_log self (PyStr.strip a) w) as (evs & H & _).
      now exists evs.
  - rewrite (get_coordinates_blank self a w Ht). exists [].
    cbn [snd]. now rewrite app_nil_r.
Qed.

Lemma batch_loop_cons self n i address rest acc (w : world) :
  batch_loop self n ((i, address) :: rest) acc w =
    let c := get_coordinates self address w in
    batch_loop self n rest (acc ++ [entry_of address (fst c)])
      (if (i <? n - 1)%Z then snd (time_sleep (1 # 10) (snd c)) else snd c).
Proof.
  cbn [batch_loop]. unfold bind.
  destruct (get_coordinates self address w) as [c w1]. cbn [fst snd].
  destruct (i <? n - 1)%Z; reflexivity.
Qed.

(** The loop over the addresses from index [j] on is a run of the batch. *)
Lemma batch_loop_run self n : forall addresses j acc (w : world),
  (j + List.length addresses)%nat = n ->
  exists results w',
    batch_loop self (Z.of_nat n)
      (combine (map Z.of_nat (seq j (List.length addresses))) addresses) acc w
    = (acc ++ results, w')
    /\ batch_run self addresses w results w'.
Proof.
  induction addresses as [|address rest IH]; intros j acc w Hn.
  - exists [], w. simpl. rewrite app_nil_r. split; [reflexivity | constructor].
  - cbn [List.length seq map combine]. rewrite batch_loop_cons. cbv zeta.
    destruct rest as [|address' rest'].
    + replace (Z.of_nat j <? Z.of_nat n - 1)%Z with false
        by (symmetry; apply Z.ltb_ge; simpl in Hn; lia).
      eexists; eexists. split; [reflexivity | constructor].
    + replace (Z.of_nat j <? Z.of_nat n - 1)%Z with true
        by (symmetry; apply Z.ltb_lt; simpl in Hn; lia).
      destruct (IH (S j) (acc ++ [entry_of address (fst (get_coordinates self address w))])
                  (snd (time_sleep (1 # 10) (snd (get_coordinates self address w)))))
        as (results & w' & Heq & Hrun).
      { simpl in *. lia. }
      exists (entry_of address (fst (get_coordinates self address w)) :: results), w'.
      split.
      * rewrite Heq, <- app_assoc. reflexivity.
      * constructor; [discriminate | exact Hrun].
Qed.

Lemma batch_run_entries self addresses (w : world) results w' :
  batch_run self addresses w results w' ->
  map be_address results = addresses
  /\ Forall (fun e => be_success e = true
                      <-> (be_lat e <> None /\ be_lng e <> None)) results
  /\ exists evs, w_log w' = w_log w ++ evs
                 /\ (List.length addresses - 1 <= sleeps evs)%nat.
Proof.
  assert (Hentry : forall a c,
             be_success (entry_of a c) = true
             <-> (be_lat (entry_of a c) <> None /\ be_lng (entry_of a c) <> None)).
  { intros a [[x|] [y|]]; simpl; split; try discriminate;
      try (intros [H1 H2]; congruence); repeat split; discriminate. }
  induction 1 as [w | address w | address rest w results w' Hne Hrun IH].
  - repeat split; auto. exists []. rewrite app_nil_r. simpl. auto.
  - repeat split; auto.
    destruct (get_coordinates_log self address w) as (evs & Hlog).
    exists evs. split; [exact Hlog | simpl; lia].
  - destruct IH as (Hmap & Hall & evs & Hlog & Hsleeps).
    split; [simpl; now rewrite Hmap|]. split; [constructor; auto|].
    destruct (get_coordinates_log self address w) as (evs0 & Hlog0).
    unfold time_sleep in Hlog. cbn [snd w_log] in Hlog.
    rewrite Hlog0 in Hlog.
    exists (evs0 ++ [EvSleep (1 # 10)] ++ evs). split.
    + rewrite Hlog, <- !app_assoc. reflexivity.
    + rewrite !sleeps_app. change (sleeps [EvSleep (1 # 10)]) with 1%nat.
      destruct rest; [congruence|]. simpl in *. lia.
Qed.

(** C9 (amended).  A batch answers every address, in order, with one
    entry holding the address as given and the result of resolving it;
    [success] is true exactly when both coordinates are present; an
    Unresolved address does not stop the batch.  A sleep of 1/10 s follows
    every address but the last, whether it was served from the cache or
    not: a batch of [n] addresses sleeps at least [n - 1] times. *)
Theorem batch_geocode_entries self addresses (w : world) :
  let results := fst (batch_geocode self addresses w) in
  let w' := snd (batch_geocode self addresses w) in
  batch_run self addresses w results w'
  /\ map be_address results = addresses
  /\ Forall (fun e => be_success e = true
                      <-> (be_lat e <> None /\ be_lng e <> None)) results
  /\ exists evs, w_log w' = w_log w ++ evs
                 /\ (List.length addresses - 1 <= sleeps evs)%nat.
Proof.
  intros results w'. subst results w'.
  destruct (@batch_loop_run self (List.length addresses) addresses 0%nat [] w
              eq_refl) as (results & w' & Heq & Hrun).
  unfold batch_geocode, enumerate, py_range.
  rewrite Nat2Z.id, Heq. cbn [fst snd app].
  split; [exact Hrun|]. exact (batch_run_entries Hrun).
Qed.

(** ** The reverse variant *)

Lemma reverse_attempts_bound self lat lng : forall attempts (w : world),
  exists evs,
    w_log (snd (reverse_attempts self lat lng attempts w)) = w_log w ++ evs
    /\ (provider_calls evs <= List.length attempts)%nat
    /\ (attempts <> [] -> exists evs', evs = EvReverseGeocode lat lng :: evs').
Proof.
  induction attempts as [|attempt rest IH]; intros w.
  - exists []. simpl. rewrite app_nil_r. repeat split; auto. congruence.
  - cbn [reverse_attempts]. unfold bind at 1. unfold client_reverse_geocode.
    destruct (reverse_api (w_provider w) lat lng) as [r p].
    assert (Hstop : forall (res : option string), exists evs,
              w_log (snd (ret res
                {| w_provider := p;
                   w_log := w_log w ++ [EvReverseGeocode lat lng];
                   w_cache := w_cache w |})) = w_log w ++ evs
              /\ (provider_calls evs <= List.length (attempt :: rest))%nat
              /\ (attempt :: rest <> [] ->
                  exists evs', evs = EvReverseGeocode lat lng :: evs')).
    { intros res. exists [EvReverseGeocode lat lng]. repeat split.
      - unfold provider_calls. simpl. lia.
      - intros _. now exists []. }
    destruct r as [[|address results]| |]; try apply Hstop;
      (destruct (attempt <? max_retries self - 1)%Z; try apply Hstop;
       unfold bind, time_sleep;
       match goal with
       | |- context [reverse_attempts self lat lng rest ?w1] =>
           destruct (IH w1) as (evs & Hlog & Hcalls & _);
           rewrite Hlog; cbn [w_log];
           eexists; repeat split;
           [ rewrite <- !app_assoc; simpl; reflexivity
           | change (S (provider_calls evs) <= S (List.length rest))%nat; lia
           | intros _; eexists; reflexivity ]
       end).
Qed.

(** ** A service without a client *)

Lemma cache_find_In k l v :
  cache_find k l = Some v -> exists k', In (k', v) l.
Proof.
  induction l as [|[k' v'] l IH]; simpl; [discriminate|].
  destruct (key_eqb k k').
  - intros [= ->]. exists k'. now left.
  - intros H. destruct (IH H) as [k'' Hin]. exists k''. now right.
Qed.

Lemma Forall_cache_remove (P : (string * string) * coordinates -> Prop) k l :
  Forall P l -> Forall P (cache_remove k l).
Proof.
  induction 1 as [|[k' v] l Hx Hl IH]; simpl; [constructor|].
  destruct (key_eqb k k'); [assumption | now constructor].
Qed.

Lemma Forall_firstn_keep {A} (P : A -> Prop) n (l : list A) :
  Forall P l -> Forall P (firstn n l).
Proof.
  revert l. induction n as [|n IH]; intros l H; simpl; [constructor|].
  destruct H; constructor; auto.
Qed.

Lemma get_coordinates_no_client self a (w : world) :
  client self = None ->
  quiet w ->
  fst (get_coordinates self a w) = Unresolved
  /\ w_log (snd (get_coordinates self a w)) = w_log w
  /\ w_provider (snd (get_coordinates self a w)) = w_provider w
  /\ quiet (snd (get_coordinates self a w)).
Proof.
  intros Hc [Hcache Hcalls].
  destruct (PyStr.truthy (PyStr.strip a)) eqn:Ht.
  - destruct (cache_find (cache_key a) (entries (w_cache w))) as [v|] eqn:Hf.
    + rewrite (get_coordinates_hit self a w Ht Hf). cbn [fst snd w_log w_provider].
      destruct (cache_find_In _ _ Hf) as [k' Hin].
      assert (Hv : v = Unresolved)
        by exact (proj1 (Forall_forall _ _) Hcache _ Hin).
      repeat split; auto. cbn [w_cache cache_touch entries].
      constructor; [exact Hv | now apply Forall_cache_remove].
    + rewrite (get_coordinates_miss self a w Ht Hf).
      unfold _geocode_with_retry. rewrite Hc. cbn [ret fst snd w_log w_provider].
      repeat split; auto. cbn [w_cache cache_store entries].
      apply Forall_firstn_keep. now constructor.
  - rewrite (get_coordinates_blank self a w Ht). cbn [fst snd].
    repeat split; auto.
Qed.

Lemma batch_loop_no_client self n : forall pairs acc (w : world),
  client self = None ->
  quiet w ->
  quiet (snd (batch_loop self n pairs acc w)).
Proof.
  induction pairs as [|[i address] rest IH]; intros acc w Hc Hq.
  - exact Hq.
  - rewrite batch_loop_cons. cbv zeta. apply IH; [exact Hc|].
    destruct (@get_coordinates_no_client self address w Hc Hq)
      as (_ & Hlog & _ & [Hcache Hcalls]).
    destruct (i <? n - 1)%Z; [|now split].
    split; [exact Hcache|].
    unfold time_sleep. cbn [snd w_log].
    rewrite provider_calls_app, Hcalls. reflexivity.
Qed.

Lemma reachable_no_client self (w : world) :
  client self = None -> reachable self w -> quiet w.
Proof.
  intros Hc. induction 1 as [p | w r Hw IH].
  - split; [constructor | reflexivity].
  - destruct r as [a | l | lat lng | a |]; cbn [serve].
    + apply (@get_coordinates_no_client self a w Hc IH).
    + now apply batch_loop_no_client.
    + unfold reverse_geocode. now rewrite Hc.
    + unfold get_place_details. now rewrite Hc.
    + split; [constructor | apply IH].
Qed.

(** C10. A service built without an API key has no client.  In every
    world that it can reach, the resolver returns Unresolved and the
    reverse operation returns [None], at once: the log is left as it was
    (no provider call, no wait), and the provider was never called. *)
Theorem no_client_unresolved api_key (w : world) :
  PyStr.truthy_opt api_key = false ->
  let self := __init__ api_key in
  reachable self w ->
  forall address lat lng,
    fst (get_coordinates self address w) = Unresolved
    /\ w_log (snd (get_coordinates self address w)) = w_log w
    /\ reverse_geocode self lat lng w = (None, w)
    /\ provider_calls (w_log w) = 0%nat.
Proof.
  intros Hkey self Hreach address lat lng.
  assert (Hc : client self = None).
  { unfold self, __init__. cbn [client]. now rewrite Hkey. }
  assert (Hq := reachable_no_client Hc Hreach).
  destruct (@get_coordinates_no_client self address w Hc Hq)
    as (Hres & Hlog & _ & _).
  repeat split; auto.
  - unfold reverse_geocode. now rewrite Hc.
  - apply Hq.
Qed.

End ServiceProperties.

(* ================================================================= *)
(** * The resolver on concrete providers *)

(** The retry policy on the provider that fails twice and then answers
    (three attempts, the answer is returned), and on the provider that
    always fails (Unresolved after exactly three attempts). *)
Lemma retry_policy_witness :
  let self := __init__ (Some "AIza"%string) in
  (fst (get_coordinates Stub.geocode_fails_twice Stub.digest self
          " Main St " (initial_world 0%nat))
   = (Some (location_lat Stub.new_york), Some (location_lng Stub.new_york))
   /\ w_log (snd (get_coordinates Stub.geocode_fails_twice Stub.digest self
                    " Main St " (initial_world 0%nat)))
      = [EvGeocode "Main St"; EvSleep (1 * inject_Z 1);
         EvGeocode "Main St"; EvSleep (1 * inject_Z 2);
         EvGeocode "Main St"])
  /\ (fst (get_coordinates Stub.geocode_always_fails Stub.digest self
             " Main St " (initial_world 0%nat))
      = Unresolved
      /\ w_log (snd (get_coordinates Stub.geocode_always_fails Stub.digest self
                       " Main St " (initial_world 0%nat)))
         = [EvGeocode "Main St"; EvSleep 1;
            EvGeocode "Main St"; EvSleep 1;
            EvGeocode "Main St"]).
Proof.
  intros self. split.
  - destruct (@retry_policy nat Stub.geocode_fails_twice Stub.digest self
                "AIza"%string " Main St "%string (initial_world 0%nat)
                eq_refl eq_refl eq_refl) as (_ & Hans & _).
    destruct (Hans 2%nat [Stub.new_york]) as (Hres & Hlog & _).
    + simpl. lia.
    + intros [|[|i]] Hi; [reflexivity | reflexivity | lia].
    + reflexivity.
    + split; [exact Hres | exact Hlog].
  - destruct (@retry_policy nat Stub.geocode_always_fails Stub.digest self
                "AIza"%string " Main St "%string (initial_world 0%nat)
                eq_refl eq_refl eq_refl) as (_ & _ & Hall).
    destruct Hall as (Hres & Hlog & _).
    + intros i _. reflexivity.
    + split; [exact Hres | exact Hlog].
Defined.

(** A string of blanks is answered without a look at the provider. *)
Lemma blank_address_unresolved_witness :
  get_coordinates Stub.geocode_answers Stub.digest
    (__init__ (Some "AIza"%string)) "   " (initial_world 0%nat)
  = (Unresolved, initial_world 0%nat).
Proof.
  apply (@blank_address_unresolved nat Stub.geocode_answers Stub.digest
           (__init__ (Some "AIza"%string)) "   "%string (initial_world 0%nat)).
  reflexivity.
Defined.

(** Without a key, an address stays Unresolved although the provider
    would have answered, also after earlier requests. *)
Lemma no_client_unresolved_witness :
  let self := __init__ (Some ""%string) in
  let w := serve Stub.geocode_answers Stub.reverse_always_fails Stub.digest
             self (ReqBatchGeocode ["Main St"; "Elm St"]%string)
             (initial_world 0%nat) in
  fst (get_coordinates Stub.geocode_answers Stub.digest self "Main St" w)
  = Unresolved
  /\ reverse_geocode Stub.reverse_always_fails self 10 20 w = (None, w).
Proof.
  intros self w.
  destruct (@no_client_unresolved nat Stub.geocode_answers
              Stub.reverse_always_fails Stub.digest (Some ""%string) w
              eq_refl
              (reachable_serve _ (reachable_initial _ _ _ self 0%nat))
              "Main St"%string 10 20) as (Hres & _ & Hrev & _).
  split; [exact Hres | exact Hrev].
Defined.

(** C8 (counterexample).  Latitude 91 is out of range, and
    [validate_coordinates] says so; but the reverse operation sends it to
    the provider three times, waiting 1 s and 2 s in between. *)
Lemma reverse_out_of_range_is_retried :
  let self := __init__ (Some "AIza"%string) in
  let log := w_log (snd (reverse_geocode Stub.reverse_always_fails self
                           91 0 (initial_world 0%nat))) in
  validate_coordinates self 91 0 = false
  /\ log = [EvReverseGeocode 91 0; EvSleep (1 * inject_Z 1);
            EvReverseGeocode 91 0; EvSleep (1 * inject_Z 2);
            EvReverseGeocode 91 0]
  /\ ~ (validate_coordinates self 91 0 = false ->
        provider_calls log = 0%nat /\ sleeps log = 0%nat).
Proof.
  intros self log. split; [reflexivity|]. split; [reflexivity|].
  intros H. destruct (H eq_refl) as [H0 _]. discriminate H0.
Qed.

(** C9 (counterexample).  A batch of three times the same address on a
    provider that answers: one provider call, the second and third entries
    are cache hits, and still two sleeps, the second of them between two
    entries served from the cache.  The sleeps are not those between
    successive provider calls: there is one call and no such gap. *)
Lemma batch_sleeps_after_cache_hits :
  let run := batch_geocode Stub.geocode_answers Stub.digest
               (__init__ (Some "AIza"%string)) ["x"; "x"; "x"]%string
               (initial_world 0%nat) in
  w_log (snd run) = [EvGeocode "x"; EvSleep (1 # 10); EvSleep (1 # 10)]
  /\ hits (w_cache (snd run)) = 2%nat
  /\ misses (w_cache (snd run)) = 1%nat
  /\ ~ (sleeps (w_log (snd run)) = (provider_calls (w_log (snd run)) - 1)%nat).
Proof.
  intros run. split; [reflexivity|]. split; [reflexivity|].
  split; [reflexivity|]. intros H. discriminate H.
Qed.

(* ================================================================= *)
(** * Properties of the radius search *)

(** ** Float comparisons *)

Lemma float_lt_iff a b : PyFloat.lt a b = true <-> (a < b)%Q.
Proof.
  unfold PyFloat.lt. rewrite Qlt_alt.
  destruct (a ?= b); split; congruence.
Qed.

Lemma float_lt_false a b : PyFloat.lt a b = false <-> (b <= a)%Q.
Proof.
  rewrite <- not_true_iff_false, float_lt_iff. split; intros H; lra.
Qed.

Lemma float_le_iff a b : PyFloat.le a b = true <-> (a <= b)%Q.
Proof. apply Qle_bool_iff. Qed.

(** ** The stable sort *)

Section PySortProperties.

Variable A : Type.
Variable key : A -> Q.

Local Abbreviation sort_insert := (sort_insert key).
Local Abbreviation py_sort := (py_sort key).
Local Abbreviation ascending := (ascending key).

Lemma sort_insert_perm x l : Permutation (sort_insert x l) (x :: l).
Proof.
  induction l as [|y l IH]; simpl.
  - apply Permutation_refl.
  - destruct (PyFloat.lt (key y) (key x)).
    + apply perm_trans with (y :: x :: l); [now apply perm_skip | apply perm_swap].
    + apply Permutation_refl.
Qed.

Lemma py_sort_perm l : Permutation (py_sort l) l.
Proof.
  induction l as [|x l IH]; simpl.
  - constructor.
  - apply perm_trans with (x :: py_sort l);
      [apply sort_insert_perm | now apply perm_skip].
Qed.

Lemma sort_insert_ascending x l : ascending l -> ascending (sort_insert x l).
Proof.
  unfold ascending.
  induction 1 as [|y l Hl IH Hy]; simpl.
  - constructor; constructor.
  - destruct (PyFloat.lt (key y) (key x)) eqn:E.
    + constructor; [exact IH|].
      apply (Permutation_Forall (Permutation_sym (sort_insert_perm x l))).
      constructor; [|exact Hy].
      apply float_lt_iff in E. lra.
    + apply float_lt_false in E.
      constructor; [now constructor|].
      constructor; [exact E|].
      apply (Forall_impl _ (fun z (Hz : (key y <= key z)%Q) =>
                              Qle_trans _ _ _ E Hz) Hy).
Qed.

Lemma py_sort_ascending l : ascending (py_sort l).
Proof.
  induction l as [|x l IH]; simpl.
  - constructor.
  - now apply sort_insert_ascending.
Qed.

(** The elements whose key equals a given value keep their order. *)
Lemma sort_insert_stable d x l :
  filter (fun y => Qeq_bool (key y) d) (sort_insert x l)
  = filter (fun y => Qeq_bool (key y) d) (x :: l).
Proof.
  induction l as [|y l IH]; [reflexivity|].
  cbn [sort_insert].
  destruct (PyFloat.lt (key y) (key x)) eqn:E; [|reflexivity].
  apply float_lt_iff in E.
  cbn [filter] in *. rewrite IH.
  destruct (Qeq_bool (key x) d) eqn:Ex; [|reflexivity].
  destruct (Qeq_bool (key y) d) eqn:Ey; [|reflexivity].
  apply Qeq_bool_iff in Ex, Ey. lra.
Qed.

Lemma py_sort_stable d l :
  filter (fun y => Qeq_bool (key y) d) (py_sort l)
  = filter (fun y => Qeq_bool (key y) d) l.
Proof.
  induction l as [|x l IH]; [reflexivity|].
  cbn [py_sort]. rewrite sort_insert_stable.
  cbn [filter]. now rewrite IH.
Qed.

End PySortProperties.

(** ** Slices and pages *)

Lemma py_slice_window {A} (l : list A) (a n : Z) :
  (0 <= a)%Z -> (0 <= n)%Z ->
  py_slice l a (a + n) = firstn (Z.to_nat n) (skipn (Z.to_nat a) l).
Proof.
  intros Ha Hn. unfold py_slice.
  replace (a <? 0)%Z with false by (symmetry; apply Z.ltb_ge; lia).
  replace (a + n <? 0)%Z with false by (symmetry; apply Z.ltb_ge; lia).
  destruct (Z_lt_ge_dec a (Z.of_nat (List.length l))) as [Hlt|Hge].
  - rewrite (Z.min_l a) by lia.
    destruct (Z_le_gt_dec (a + n) (Z.of_nat (List.length l))) as [Hle|Hgt].
    + rewrite Z.min_l by lia. f_equal. lia.
    + rewrite Z.min_r by lia.
      rewrite !firstn_all2; [reflexivity | |]; rewrite length_skipn; lia.
  - rewrite (Z.min_r a) by lia. rewrite Z.min_r by lia.
    rewrite (skipn_all2 (n := Z.to_nat a)) by lia.
    rewrite Z.sub_diag, firstn_nil. reflexivity.
Qed.

Lemma firstn_add_skipn {A} (a b : nat) (l : list A) :
  firstn (a + b) l = firstn a l ++ firstn b (skipn a l).
Proof.
  revert l. induction a as [|a IH]; intros l; [reflexivity|].
  destruct l as [|x l]; simpl.
  - now rewrite firstn_nil.
  - now rewrite IH.
Qed.

(** Windows of [size] elements, one after the other, give back a prefix. *)
Lemma windows_concat {A} (size : nat) (l : list A) (n : nat) :
  flat_map (fun p => firstn size (skipn ((p - 1) * size) l)) (seq 1 n)
  = firstn (n * size) l.
Proof.
  induction n as [|n IH]; [reflexivity|].
  rewrite seq_S, flat_map_app, IH. cbn [flat_map].
  rewrite app_nil_r.
  replace ((1 + n - 1) * size)%nat with (n * size)%nat by lia.
  replace (S n * size)%nat with (n * size + size)%nat by lia.
  now rewrite firstn_add_skipn.
Qed.

Lemma flat_map_agree {A B} (g h : A -> list B) (l : list A) :
  (forall x, In x l -> g x = h x) -> flat_map g l = flat_map h l.
Proof.
  induction l as [|x l IH]; intros H; [reflexivity|].
  simpl. rewrite (H x) by now left.
  rewrite IH; [reflexivity|]. intros y Hy. apply H. now right.
Qed.

(** The page of an element, from its position. *)
Lemma In_window {A} (size : nat) (l : list A) (x : A) :
  (0 < size)%nat -> In x l ->
  exists p, (1 <= p)%nat /\ In x (firstn size (skipn ((p - 1) * size) l)).
Proof.
  intros Hs Hin. apply In_nth_error in Hin. destruct Hin as [i Hi].
  exists (S (i / size)). split; [lia|].
  apply nth_error_In with (n := (i mod size)%nat).
  rewrite nth_error_firstn.
  replace (i mod size <? size)%nat with true
    by (symmetry; apply Nat.ltb_lt; apply Nat.mod_upper_bound; lia).
  rewrite nth_error_skipn.
  replace ((S (i / size) - 1) * size + i mod size)%nat with i; [exact Hi|].
  rewrite (Nat.div_mod_eq i size) at 1. lia.
Qed.

Lemma In_window_inv {A} (size a : nat) (l : list A) (x : A) :
  In x (firstn size (skipn a l)) -> In x l.
Proof.
  intros H. apply In_nth_error in H. destruct H as [i Hi].
  rewrite nth_error_firstn in Hi.
  destruct (i <? size)%nat; [|discriminate].
  rewrite nth_error_skipn in Hi. exact (nth_error_In _ _ Hi).
Qed.

(** [ceil(total / page_size)] pages hold [total] elements. *)
Lemma total_pages_enough (total page_size : Z) :
  (0 <= total)%Z -> (1 <= page_size)%Z ->
  (total <= Qceiling (inject_Z total / inject_Z page_size) * page_size)%Z
  /\ (0 <= Qceiling (inject_Z total / inject_Z page_size))%Z.
Proof.
  intros Ht Hp.
  assert (H := Qle_ceiling (inject_Z total / inject_Z page_size)).
  set (tp := Qceiling (inject_Z total / inject_Z page_size)) in *.
  destruct page_size as [|q|q]; try lia.
  unfold Qle, Qdiv, Qmult, Qinv, inject_Z in H. simpl in H.
  split; nia.
Qed.

(** ** The search *)

Section RepositoryProperties.

Variable ilike : string -> string -> bool.
Variable fl : Q -> Q.
Variable float_pow : Q -> Z -> Q.
Variable math_radians math_sin math_cos : Q -> Q.
Variable math_atan2 : Q -> Q -> Q.
Variable math_sqrt : Q -> option Q.

Local Abbreviation _calculate_distance :=
  (_calculate_distance fl float_pow math_radians math_sin math_cos
     math_atan2 math_sqrt).
Local Abbreviation distance_of :=
  (distance_of fl float_pow math_radians math_sin math_cos math_atan2
     math_sqrt).
Local Abbreviation within_radius :=
  (within_radius fl float_pow math_radians math_sin math_cos math_atan2
     math_sqrt).
Local Abbreviation distance_loop :=
  (distance_loop fl float_pow math_radians math_sin math_cos math_atan2
     math_sqrt).
Local Abbreviation query_where := (query_where ilike).
Local Abbreviation query_all := (query_all ilike).
Local Abbreviation ilike_filter := (ilike_filter ilike).
Local Abbreviation search_addresses_by_location :=
  (search_addresses_by_location ilike fl float_pow math_radians math_sin
     math_cos math_atan2 math_sqrt).
Local Abbreviation ranked :=
  (ranked ilike fl float_pow math_radians math_sin math_cos math_atan2
     math_sqrt).
Local Abbreviation no_math_error :=
  (no_math_error ilike fl float_pow math_radians math_sin math_cos
     math_atan2 math_sqrt).
Local Abbreviation page_items :=
  (page_items ilike fl float_pow math_radians math_sin math_cos math_atan2
     math_sqrt).
Local Abbreviation pages_concat :=
  (pages_concat ilike fl float_pow math_radians math_sin math_cos math_atan2
     math_sqrt).

Lemma distance_loop_cons f address rest acc :
  distance_loop f (address :: rest) acc =
    match distance_of f address with
    | Some distance =>
        distance_loop f rest
          (if PyFloat.le distance (Filters.radius_km f)
           then acc ++ [(address, distance)] else acc)
    | None => None
    end.
Proof.
  cbn [distance_loop]. unfold distance_of.
  destruct (Row.lat address), (Row.lng address); reflexivity.
Qed.

(** When the loop ends, it has built the rows within the radius. *)
Lemma distance_loop_some f : forall cands acc l,
  distance_loop f cands acc = Some l -> l = acc ++ within_radius f cands.
Proof.
  induction cands as [|address rest IH]; intros acc l H.
  - simpl in H. injection H as <-. now rewrite app_nil_r.
  - rewrite distance_loop_cons in H. cbn [within_radius].
    destruct (distance_of f address) as [d|]; [|discriminate].
    destruct (PyFloat.le d (Filters.radius_km f)).
    + rewrite (IH _ _ H), <- app_assoc. reflexivity.
    + exact (IH _ _ H).
Qed.

(** The loop ends when no distance computation raises. *)
Lemma distance_loop_total f : forall cands acc,
  (forall row, In row cands -> distance_of f row <> None) ->
  distance_loop f cands acc = Some (acc ++ within_radius f cands).
Proof.
  induction cands as [|address rest IH]; intros acc H.
  - simpl. now rewrite app_nil_r.
  - rewrite distance_loop_cons. cbn [within_radius].
    destruct (distance_of f address) as [d|] eqn:E.
    + destruct (PyFloat.le d (Filters.radius_km f));
        rewrite IH by (intros row Hr; apply H; now right);
        [rewrite <- app_assoc|]; reflexivity.
    + exfalso. apply (H address); [now left | exact E].
Qed.

Lemma In_within_radius f row d : forall cands,
  In (row, d) (within_radius f cands)
  <-> In row cands /\ distance_of f row = Some d
      /\ (d <= Filters.radius_km f)%Q.
Proof.
  induction cands as [|c rest IH]; cbn [within_radius In].
  - tauto.
  - destruct (distance_of f c) as [dc|] eqn:E.
    + destruct (PyFloat.le dc (Filters.radius_km f)) eqn:L.
      * cbn [In]. rewrite IH. split.
        -- intros [[= <- <-] | (Hin & Hd & Hle)].
           ++ apply float_le_iff in L. auto.
           ++ auto.
        -- intros ([<- | Hin] & Hd & Hle).
           ++ left. congruence.
           ++ right. auto.
      * rewrite IH. split.
        -- intros (Hin & Hd & Hle). auto.
        -- intros ([<- | Hin] & Hd & Hle); [|auto].
           exfalso. rewrite E in Hd. injection Hd as ->.
           apply float_le_iff in Hle. congruence.
    + rewrite IH. split.
      * intros (Hin & Hd & Hle). auto.
      * intros ([<- | Hin] & Hd & Hle); [congruence | auto].
Qed.

Lemma within_radius_fst_incl f row : forall cands,
  In row (map fst (within_radius f cands)) -> In row cands.
Proof.
  intros cands H. apply in_map_iff in H. destruct H as ([r d] & <- & Hin).
  apply In_within_radius in Hin. tauto.
Qed.

Lemma within_radius_NoDup f : forall cands,
  NoDup cands -> NoDup (map fst (within_radius f cands)).
Proof.
  induction 1 as [|c rest Hnot Hnd IH]; cbn [within_radius].
  - constructor.
  - destruct (distance_of f c) as [dc|]; [|exact IH].
    destruct (PyFloat.le dc (Filters.radius_km f)); [|exact IH].
    cbn [map fst]. constructor; [|exact IH].
    intros Hin. apply Hnot. exact (within_radius_fst_incl _ _ _ Hin).
Qed.

Lemma In_ranked table f x :
  In x (ranked table f) <-> In x (within_radius f (query_all table f)).
Proof.
  unfold ranked. split; intros H.
  - exact (Permutation_in _ (py_sort_perm _ _) H).
  - exact (Permutation_in _ (Permutation_sym (py_sort_perm _ _)) H).
Qed.

(** What the search returns, when it returns. *)
Lemma search_some table f paginated total :
  search_addresses_by_location table f = Some (paginated, total) ->
  paginated =
    py_slice (ranked table f)
      ((Filters.page f - 1) * Filters.page_size f)
      ((Filters.page f - 1) * Filters.page_size f + Filters.page_size f)
  /\ total = Z.of_nat (List.length (ranked table f)).
Proof.
  unfold search_addresses_by_location.
  destruct (distance_loop f (query_all table f) []) as [l|] eqn:E;
    [|discriminate].
  apply distance_loop_some in E. simpl in E. subst l.
  intros [= <- <-]. split; reflexivity.
Qed.

(** The search returns when no distance computation raises. *)
Lemma search_total table f :
  no_math_error table f ->
  search_addresses_by_location table f =
    Some (py_slice (ranked table f)
            ((Filters.page f - 1) * Filters.page_size f)
            ((Filters.page f - 1) * Filters.page_size f + Filters.page_size f),
          Z.of_nat (List.length (ranked table f))).
Proof.
  intros H. unfold search_addresses_by_location.
  rewrite (distance_loop_total f (query_all table f) [] H). reflexivity.
Qed.

(** The page number plays no part before the slice. *)
Lemma within_radius_with_page f p : forall cands,
  within_radius (Filters.with_page f p) cands = within_radius f cands.
Proof.
  induction cands as [|c rest IH]; [reflexivity|].
  cbn [within_radius]. rewrite IH. reflexivity.
Qed.

Lemma ranked_with_page table f p :
  ranked table (Filters.with_page f p) = ranked table f.
Proof.
  unfold ranked. rewrite within_radius_with_page. reflexivity.
Qed.

Lemma page_items_window table f p :
  no_math_error table f ->
  (1 <= p)%Z -> (1 <= Filters.page_size f)%Z ->
  page_items table f p =
    firstn (Z.to_nat (Filters.page_size f))
      (skipn ((Z.to_nat p - 1) * Z.to_nat (Filters.page_size f))
             (ranked table f)).
Proof.
  intros H Hp Hs. unfold page_items.
  rewrite (search_total (table := table) (f := Filters.with_page f p) H).
  cbn [Filters.page Filters.page_size Filters.with_page].
  rewrite ranked_with_page.
  rewrite py_slice_window by nia.
  do 2 f_equal. nia.
Qed.

Lemma In_query_all table f row :
  In row (query_all table f)
  <-> In row table
      /\ Row.lat row <> None /\ Row.lng row <> None
      /\ ilike_filter (Filters.country f) (Row.country row) = true
      /\ ilike_filter (Filters.state f) (Row.state row) = true
      /\ ilike_filter (Filters.city f) (Row.city row) = true.
Proof.
  unfold query_all. rewrite filter_In. unfold query_where.
  rewrite !andb_true_iff.
  assert (Hnn : forall (o : option Q), is_not_None o = true <-> o <> None).
  { intros [x|]; simpl; split; congruence. }
  rewrite !Hnn. tauto.
Qed.

(** The search where no distance computation raises.  It looks at
    exactly the rows of the table that have both coordinates and pass the
    country, state and city filters; only for these is a distance computed
    (rows outside the query may even have none).  When no such computation
    raises, the search returns for every
    page, and a pair (row, distance) is on some page exactly when the row
    is one of those rows, the distance is its computed distance from the
    centre, and that distance is at most the radius: the boundary is
    included. *)
Theorem radius_search_inclusion table f :
  (1 <= Filters.page_size f)%Z ->
  no_math_error table f ->
  (forall row,
     In row (query_all table f)
     <-> In row table
         /\ Row.lat row <> None /\ Row.lng row <> None
         /\ ilike_filter (Filters.country f) (Row.country row) = true
         /\ ilike_filter (Filters.state f) (Row.state row) = true
         /\ ilike_filter (Filters.city f) (Row.city row) = true)
  /\ (forall p, exists paginated total,
        search_addresses_by_location table (Filters.with_page f p)
        = Some (paginated, total))
  /\ (forall row d,
        (exists p, (1 <= p)%Z /\ In (row, d) (page_items table f p))
        <-> In row (query_all table f)
            /\ distance_of f row = Some d
            /\ (d <= Filters.radius_km f)%Q).
Proof.
  intros Hs Herr. split; [|split].
  - intros row. apply In_query_all.
  - intros p. eexists; eexists.
    apply (search_total (table := table) (f := Filters.with_page f p) Herr).
  - intros row d. rewrite <- In_within_radius, <- In_ranked. split.
    + intros (p & Hp & Hin).
      rewrite (@page_items_window table f p Herr Hp Hs) in Hin.
      exact (In_window_inv _ _ _ _ Hin).
    + intros Hin.
      destruct (In_window (size := Z.to_nat (Filters.page_size f))
                  (ranked table f) (row, d)) as (p & Hp & Hw);
        [lia | exact Hin |].
      exists (Z.of_nat p). split; [lia|].
      rewrite (@page_items_window table f (Z.of_nat p) Herr) by lia.
      now rewrite Nat2Z.id.
Qed.

Lemma pages_concat_all table f n :
  no_math_error table f ->
  (1 <= Filters.page_size f)%Z ->
  (List.length (ranked table f) <= n * Z.to_nat (Filters.page_size f))%nat ->
  pages_concat table f n = ranked table f.
Proof.
  intros Herr Hs Hn. unfold pages_concat.
  rewrite <- (firstn_all2 (n := (n * Z.to_nat (Filters.page_size f))%nat)
                (ranked table f)) at 1 by exact Hn.
  rewrite <- windows_concat.
  apply flat_map_agree. intros p Hp. apply in_seq in Hp.
  rewrite (@page_items_window table f (Z.of_nat p) Herr) by lia.
  now rewrite Nat2Z.id.
Qed.

(** The pages where no distance computation raises.  For a valid page
    and page size: the rows within the radius are put in ascending order of
    distance, rows at the same distance staying in scan order; the total is
    their number, before the slice; the page returned is the window of
    [page_size] rows that starts at [(page - 1) * page_size] in that order;
    and pages 1 to [ceil(total / page_size)], one after the other, are that
    ordered list itself: every row within the radius once, no row twice,
    distances ascending across the pages. *)
Theorem radius_search_pagination table f :
  (1 <= Filters.page f)%Z ->
  (1 <= Filters.page_size f)%Z ->
  no_math_error table f ->
  let kept := within_radius f (query_all table f) in
  let sorted := ranked table f in
  let total := Z.of_nat (List.length kept) in
  let total_pages :=
    Qceiling (inject_Z total / inject_Z (Filters.page_size f)) in
  search_addresses_by_location table f
  = Some (firstn (Z.to_nat (Filters.page_size f))
            (skipn (Z.to_nat ((Filters.page f - 1) * Filters.page_size f))
                   sorted),
          total)
  /\ Permutation sorted kept
  /\ ascending (@snd Row.t Q) sorted
  /\ (forall d, filter (fun x => Qeq_bool (snd x) d) sorted
                = filter (fun x => Qeq_bool (snd x) d) kept)
  /\ pages_concat table f (Z.to_nat total_pages) = sorted
  /\ (NoDup table -> NoDup (map fst (pages_concat table f (Z.to_nat total_pages)))).
Proof.
  intros Hp Hs Herr kept sorted total total_pages.
  assert (Hperm : Permutation sorted kept) by apply py_sort_perm.
  assert (Hlen : List.length sorted = List.length kept)
    by exact (Permutation_length Hperm).
  assert (Hall : pages_concat table f (Z.to_nat total_pages) = sorted).
  { apply pages_concat_all; try assumption. fold sorted. rewrite Hlen.
    destruct (total_pages_enough (total := total)
                (page_size := Filters.page_size f)) as [H1 H2];
      [unfold total; lia | exact Hs |].
    fold total_pages in H1, H2. unfold total in H1. nia. }
  split; [|split; [|split; [|split; [|split]]]].
  - rewrite (search_total Herr). fold sorted. rewrite Hlen.
    rewrite py_slice_window by nia. reflexivity.
  - exact Hperm.
  - apply py_sort_ascending.
  - intros d. apply py_sort_stable.
  - exact Hall.
  - intros Hnd. rewrite Hall.
    apply (Permutation_NoDup
             (Permutation_map fst (Permutation_sym Hperm))).
    apply within_radius_NoDup. unfold query_all. now apply NoDup_filter.
Qed.

Variable round_2 : Q -> Q.
Variable response : Type.
Variable model_validate : Row.t -> option response.

Local Abbreviation search_by_location_endpoint :=
  (search_by_location_endpoint ilike fl float_pow math_radians math_sin
     math_cos math_atan2 math_sqrt round_2 model_validate).

(** C7 (amended).  A radius of 0 (or below) does not pass the validation
    of [LocationSearchFilters], which wants [0 < radius_km <= 1000]: the
    endpoint answers 422 and no row is searched.  Whatever the radius of
    the filters that reach the repository, every row that the search
    returns has a computed distance of at most that radius. *)
Theorem radius_zero_rejected table center_lat center_lng radius_km
    country state city page page_size :
  (radius_km <= 0)%Q ->
  Filters.new center_lat center_lng radius_km country state city
              page page_size = None
  /\ search_by_location_endpoint table center_lat center_lng radius_km
       country state city page page_size = HttpError 422
  /\ (forall f paginated total,
        search_addresses_by_location table f = Some (paginated, total) ->
        forall x, In x paginated -> (snd x <= Filters.radius_km f)%Q).
Proof.
  intros Hr.
  assert (Hnew : Filters.new center_lat center_lng radius_km country state
                   city page page_size = None).
  { unfold Filters.new, Filters.valid. cbn [Filters.radius_km].
    replace (PyFloat.lt 0 radius_km) with false
      by (symmetry; now apply float_lt_false).
    cbn [andb]. now rewrite !andb_false_r. }
  split; [exact Hnew|]. split.
  - unfold search_by_location_endpoint. now rewrite Hnew.
  - intros f paginated total Hsearch [row d] Hin.
    apply search_some in Hsearch. destruct Hsearch as [-> _].
    assert (Hr' : In (row, d) (ranked table f)).
    { unfold py_slice in Hin. exact (In_window_inv _ _ _ _ Hin). }
    apply In_ranked, In_within_radius in Hr'. cbn [snd]. tauto.
Qed.

End RepositoryProperties.

(* ================================================================= *)
(** * The search at an antipode *)

Section SearchRaises.

Variable ilike : string -> string -> bool.
Variable fl : Q -> Q.
Variable float_pow : Q -> Z -> Q.
Variable math_radians math_sin math_cos : Q -> Q.
Variable math_atan2 : Q -> Q -> Q.
Variable math_sqrt : Q -> option Q.

Local Abbreviation distance_of :=
  (distance_of fl float_pow math_radians math_sin math_cos math_atan2
     math_sqrt).
Local Abbreviation distance_loop :=
  (distance_loop fl float_pow math_radians math_sin math_cos math_atan2
     math_sqrt).
Local Abbreviation query_all := (query_all ilike).
Local Abbreviation search_addresses_by_location :=
  (search_addresses_by_location ilike fl float_pow math_radians math_sin
     math_cos math_atan2 math_sqrt).

(** One row on which the distance computation raises stops the loop,
    wherever the row stands. *)
Lemma distance_loop_raises f row : forall rows acc,
  In row rows -> distance_of f row = None ->
  distance_loop f rows acc = None.
Proof.
  induction rows as [|r rest IH]; intros acc Hin Hnone; [destruct Hin|].
  cbn [distance_loop].
  destruct Hin as [-> | Hin].
  - unfold distance_of in Hnone.
    destruct (Row.lat row) as [la|]; [|reflexivity].
    destruct (Row.lng row) as [ln|]; [|reflexivity].
    now rewrite Hnone.
  - destruct (Row.lat r) as [la|]; [|reflexivity].
    destruct (Row.lng r) as [ln|]; [|reflexivity].
    destruct (_calculate_distance _ _ _ _ _ _ _ _ _ _ _);
      [|reflexivity].
    now apply IH.
Qed.

Lemma search_raises table f row :
  In row (query_all table f) -> distance_of f row = None ->
  search_addresses_by_location table f = None.
Proof.
  intros Hin Hnone. unfold search_addresses_by_location. cbv zeta.
  now rewrite (distance_loop_raises f row _ [] Hin Hnone).
Qed.

End SearchRaises.

Section Antipode.

Variable ilike : string -> string -> bool.
Variable math_sin math_cos : Q -> Q.
Variable math_atan2 : Q -> Q -> Q.
Variable math_sqrt : Q -> option Q.

Local Abbreviation _calculate_distance :=
  (_calculate_distance Binary64.round Binary64.pow Binary64.radians
     math_sin math_cos math_atan2 math_sqrt).

(** What CPython's [math] returns on the way from (2.5, 0) to
    (-2.5, 180): [sin(-0.04363323129985824)], [cos] of the two latitudes,
    [sin(1.5707963267948966)], and the [ValueError] of
    [sqrt(-2.220446049250313e-16)]. *)
Hypothesis sin_half_dlat :
  math_sin (Binary64.double (-0x1657184ae74487) (-57))
  = Binary64.double (-0x165547c4694e11) (-57).
Hypothesis cos_lat1 :
  math_cos (Binary64.double 0x1657184ae74487 (-57))
  = Binary64.double 0x1ff833f9da45f7 (-53).
Hypothesis cos_lat2 :
  math_cos (Binary64.double (-0x1657184ae74487) (-57))
  = Binary64.double 0x1ff833f9da45f7 (-53).
Hypothesis sin_half_dlng :
  math_sin (Binary64.double 0x1921fb54442d18 (-52)) = 1.
Hypothesis sqrt_negative :
  math_sqrt (Binary64.double (-1) (-52)) = None.

Lemma distance_to_antipode :
  _calculate_distance (5 # 2) 0 (-5 # 2) 180 = None.
Proof.
  unfold _calculate_distance. cbv zeta.
  assert (E1 : Binary64.round
                 (Binary64.round (Binary64.radians (-5 # 2)
                                  - Binary64.radians (5 # 2)) / 2)
               = Binary64.double (-0x1657184ae74487) (-57))
    by (vm_compute; reflexivity).
  assert (E2 : Binary64.round
                 (Binary64.round (Binary64.radians 180
                                  - Binary64.radians 0) / 2)
               = Binary64.double 0x1921fb54442d18 (-52))
    by (vm_compute; reflexivity).
  assert (E3 : Binary64.radians (5 # 2)
               = Binary64.double 0x1657184ae74487 (-57))
    by (vm_compute; reflexivity).
  assert (E4 : Binary64.radians (-5 # 2)
               = Binary64.double (-0x1657184ae74487) (-57))
    by (vm_compute; reflexivity).
  rewrite E1, E2, E3, E4, sin_half_dlat, sin_half_dlng, cos_lat1, cos_lat2.
  assert (Ea : Binary64.round
                 (Binary64.pow (Binary64.double (-0x165547c4694e11) (-57)) 2
                  + Binary64.round
                      (Binary64.round
                         (Binary64.double 0x1ff833f9da45f7 (-53)
                          * Binary64.double 0x1ff833f9da45f7 (-53))
                       * Binary64.pow 1 2))
               = Binary64.double 0x10000000000001 (-52))
    by (vm_compute; reflexivity).
  rewrite Ea.
  destruct (math_sqrt (Binary64.double 0x10000000000001 (-52)));
    [|reflexivity].
  assert (E1a : Binary64.round (1 - Binary64.double 0x10000000000001 (-52))
                = Binary64.double (-1) (-52))
    by (vm_compute; reflexivity).
  now rewrite E1a, sqrt_negative.
Qed.

(** And on the way from (2.5, 0) to itself: [sin(0.0)], [sqrt(0.0)],
    [sqrt(1.0)] and [atan2(0.0, 1.0)]. *)
Hypothesis sin_zero : math_sin 0 = 0.
Hypothesis sqrt_zero : math_sqrt 0 = Some 0.
Hypothesis sqrt_one : math_sqrt 1 = Some 1.
Hypothesis atan2_zero : math_atan2 0 1 = 0.

Lemma distance_to_centre :
  _calculate_distance (5 # 2) 0 (5 # 2) 0 = Some 0.
Proof.
  unfold _calculate_distance. cbv zeta.
  assert (E1 : Binary64.round
                 (Binary64.round (Binary64.radians (5 # 2)
                                  - Binary64.radians (5 # 2)) / 2) = 0)
    by (vm_compute; reflexivity).
  assert (E2 : Binary64.round
                 (Binary64.round (Binary64.radians 0
                                  - Binary64.radians 0) / 2) = 0)
    by (vm_compute; reflexivity).
  assert (E3 : Binary64.radians (5 # 2)
               = Binary64.double 0x1657184ae74487 (-57))
    by (vm_compute; reflexivity).
  rewrite E1, E2, E3, sin_zero, cos_lat1.
  assert (Ea : Binary64.round
                 (Binary64.pow 0 2
                  + Binary64.round
                      (Binary64.round
                         (Binary64.double 0x1ff833f9da45f7 (-53)
                          * Binary64.double 0x1ff833f9da45f7 (-53))
                       * Binary64.pow 0 2)) = 0)
    by (vm_compute; reflexivity).
  rewrite Ea, sqrt_zero.
  assert (E1a : Binary64.round (1 - 0) = 1) by (vm_compute; reflexivity).
  rewrite E1a, sqrt_one, atan2_zero.
  vm_compute. reflexivity.
Qed.

Variable round_2 : Q -> Q.
Variable response : Type.
Variable model_validate : Row.t -> option response.

Local Abbreviation distance_of :=
  (distance_of Binary64.round Binary64.pow Binary64.radians math_sin
     math_cos math_atan2 math_sqrt).
Local Abbreviation query_all := (query_all ilike).
Local Abbreviation search_addresses_by_location :=
  (search_addresses_by_location ilike Binary64.round Binary64.pow
     Binary64.radians math_sin math_cos math_atan2 math_sqrt).
Local Abbreviation page_items :=
  (page_items ilike Binary64.round Binary64.pow Binary64.radians math_sin
     math_cos math_atan2 math_sqrt).
Local Abbreviation search_by_location_endpoint :=
  (search_by_location_endpoint ilike Binary64.round Binary64.pow
     Binary64.radians math_sin math_cos math_atan2 math_sqrt round_2
     model_validate).

Lemma In_query_around table row radius_km page page_size la ln :
  In row table -> Row.lat row = Some la -> Row.lng row = Some ln ->
  In row (query_all table (around_centre radius_km page page_size)).
Proof.
  intros Hin Hla Hln. unfold query_all. apply filter_In.
  split; [exact Hin|]. unfold query_where. now rewrite Hla, Hln.
Qed.

Lemma search_around_antipode table far radius_km page page_size :
  In far table ->
  Row.lat far = Some (-5 # 2) -> Row.lng far = Some 180 ->
  search_addresses_by_location table (around_centre radius_km page page_size)
  = None.
Proof.
  intros Hin Hla Hln.
  apply (@search_raises ilike Binary64.round Binary64.pow Binary64.radians
           math_sin math_cos math_atan2 math_sqrt table _ far).
  - exact (@In_query_around table far radius_km page page_size _ _
             Hin Hla Hln).
  - unfold distance_of. rewrite Hla, Hln. exact distance_to_antipode.
Qed.

(** C5 (code defect).  A table holds a row at the centre (2.5, 0) of the
    search and a row at its antipode (-2.5, 180).  The first is a
    candidate at distance 0, within every radius; but the distance to the
    second makes [math.sqrt(1 - a)] raise ([a] is rounded to
    1.0000000000000002), the exception leaves the search, and no row is
    returned on any page: the endpoint never answers with a body.  The
    text filters do come before the distances: when a country filter
    keeps the first row and drops the second, no distance to the second
    is computed, and the search returns the first row at distance 0. *)
Theorem radius_search_raises_at_antipode table near far radius_km
    page page_size :
  In near table -> Row.lat near = Some (5 # 2) -> Row.lng near = Some 0 ->
  In far table -> Row.lat far = Some (-5 # 2) -> Row.lng far = Some 180 ->
  (0 <= radius_km)%Q ->
  let f := around_centre radius_km page page_size in
  (In near (query_all table f)
   /\ distance_of f near = Some 0
   /\ (0 <= Filters.radius_km f)%Q)
  /\ search_addresses_by_location table f = None
  /\ (forall p d, ~ In (near, d) (page_items table f p))
  /\ (forall body,
        search_by_location_endpoint table (5 # 2) 0 radius_km None None None
          page page_size <> Ok body)
  /\ (forall country size,
        PyStr.truthy country = true ->
        ilike (Row.country near) ("%" ++ country ++ "%") = true ->
        ilike (Row.country far) ("%" ++ country ++ "%") = false ->
        (1 <= size)%Z ->
        search_addresses_by_location [near; far]
          (around_centre_in country radius_km size)
        = Some ([(near, 0)], 1%Z)).
Proof.
  intros Hn Hnla Hnln Hf Hfla Hfln Hr f. subst f.
  split; [|split; [|split; [|split]]].
  - split; [exact (@In_query_around table near radius_km page page_size
                     _ _ Hn Hnla Hnln)|].
    split; [|exact Hr].
    unfold distance_of. rewrite Hnla, Hnln. exact distance_to_centre.
  - apply search_around_antipode with (far := far); assumption.
  - intros p d. unfold page_items.
    change (Filters.with_page (around_centre radius_km page page_size) p)
      with (around_centre radius_km p page_size).
    rewrite (@search_around_antipode table far radius_km p page_size
               Hf Hfla Hfln).
    intros [].
  - intros body. unfold search_by_location_endpoint.
    destruct (Filters.new (5 # 2) 0 radius_km None None None page page_size)
      as [f|] eqn:Hnew; [|discriminate].
    unfold Filters.new in Hnew.
    destruct (Filters.valid _) in Hnew; [|discriminate].
    injection Hnew as <-.
    change (search_addresses_by_location table
              (around_centre radius_km page page_size))
      with (search_addresses_by_location table
              (around_centre radius_km page page_size)).
    fold (around_centre radius_km page page_size).
    rewrite (@search_around_antipode table far radius_km page page_size
               Hf Hfla Hfln).
    discriminate.
  - intros country size Ht Hkeep Hdrop Hsize.
    unfold search_addresses_by_location, query_all. cbv zeta.
    assert (Hq : filter (query_where ilike
                           (around_centre_in country radius_km size))
                        [near; far] = [near]).
    { cbn [filter]. unfold query_where, ilike_filter, around_centre_in.
      cbn [Filters.country Filters.state Filters.city].
      rewrite Hnla, Hnln, Hfla, Hfln, Ht, Hkeep, Hdrop. reflexivity. }
    rewrite Hq. cbn [distance_loop]. rewrite Hnla, Hnln.
    cbn [around_centre_in Filters.center_lat Filters.center_lng
         Filters.radius_km Filters.page Filters.page_size].
    rewrite distance_to_centre.
    replace (PyFloat.le 0 radius_km) with true
      by (symmetry; now apply float_le_iff).
    cbn [app py_sort sort_insert List.length].
    rewrite (@py_slice_window _ [(near, 0)] ((1 - 1) * size) size)
      by lia.
    replace (Z.to_nat ((1 - 1) * size)) with 0%nat by lia.
    destruct (Z.to_nat size) as [|k] eqn:Ek; [lia|].
    cbn [skipn firstn]. now rewrite firstn_nil.
Qed.

(** C6 (code defect).  For every valid page and page size, and every
    valid radius, a search around (2.5, 0) over a table that holds a row
    at (-2.5, 180) returns no window and no total: the request passes the
    validation, the distance computation raises, and the endpoint answers
    500.  The defect is the one of C5. *)
Theorem radius_search_returns_no_page table far radius_km page page_size :
  In far table -> Row.lat far = Some (-5 # 2) -> Row.lng far = Some 180 ->
  (0 < radius_km)%Q -> (radius_km <= 1000)%Q ->
  (1 <= page)%Z -> (1 <= page_size <= 100)%Z ->
  let f := around_centre radius_km page page_size in
  Filters.new (5 # 2) 0 radius_km None None None page page_size = Some f
  /\ search_addresses_by_location table f = None
  /\ search_by_location_endpoint table (5 # 2) 0 radius_km None None None
       page page_size = HttpError 500.
Proof.
  intros Hf Hfla Hfln Hr0 Hr1 Hp Hs f. subst f.
  assert (Hnew : Filters.new (5 # 2) 0 radius_km None None None page page_size
                 = Some (around_centre radius_km page page_size)).
  { unfold Filters.new. cbv zeta. fold (around_centre radius_km page page_size).
    replace (Filters.valid (around_centre radius_km page page_size)) with true;
      [reflexivity|].
    symmetry. unfold Filters.valid, around_centre.
    cbn [Filters.center_lat Filters.center_lng Filters.radius_km
         Filters.page Filters.page_size].
    rewrite !andb_true_iff. repeat split; try reflexivity.
    - now apply float_lt_iff.
    - now apply float_le_iff.
    - now apply Z.leb_le.
    - apply Z.leb_le. lia.
    - apply Z.leb_le. lia. }
  split; [exact Hnew|].
  split; [apply search_around_antipode with (far := far); assumption|].
  unfold search_by_location_endpoint. rewrite Hnew.
  now rewrite (@search_around_antipode table far radius_km page page_size
                 Hf Hfla Hfln).
Qed.

End Antipode.

(* ================================================================= *)
(** * The search on a concrete table *)

Lemma stub_no_math_error radius_km page page_size :
  no_math_error Stub.ilike_any Stub.fl Stub.float_pow Stub.math_radians
    Stub.math_sin Stub.math_cos Stub.math_atan2 Stub.math_sqrt
    Stub.table (Stub.filters radius_km page page_size).
Proof.
  intros row Hin. simpl in Hin.
  destruct Hin as [<- | [<- | []]]; vm_compute; discriminate.
Qed.

(** With a radius of 1 km, the row at the centre is on some page, at
    distance 0. *)
Lemma radius_search_inclusion_witness :
  exists p,
    (1 <= p)%Z
    /\ In (Stub.row 1 (Some 0) (Some 0), 0)
          (page_items Stub.ilike_any Stub.fl Stub.float_pow Stub.math_radians
             Stub.math_sin Stub.math_cos Stub.math_atan2 Stub.math_sqrt
             Stub.table (Stub.filters 1 1 2) p).
Proof.
  destruct (@radius_search_inclusion Stub.ilike_any Stub.fl Stub.float_pow
              Stub.math_radians Stub.math_sin Stub.math_cos Stub.math_atan2
              Stub.math_sqrt Stub.table (Stub.filters 1 1 2))
    as (_ & _ & Hiff).
  - vm_compute. discriminate.
  - apply stub_no_math_error.
  - apply Hiff. split; [|split].
    + simpl. now left.
    + reflexivity.
    + vm_compute. discriminate.
Defined.

(** With a radius of 1 km and one row a page, the two pages, one after
    the other, are the two rows within the radius in order of distance. *)
Lemma radius_search_pagination_witness :
  pages_concat Stub.ilike_any Stub.fl Stub.float_pow Stub.math_radians
    Stub.math_sin Stub.math_cos Stub.math_atan2 Stub.math_sqrt
    Stub.table (Stub.filters 1 1 1) 2
  = [(Stub.row 1 (Some 0) (Some 0), 0);
     (Stub.row 3 (Some (1 # 1000)) (Some 0), 6371 # 2000000)].
Proof.
  destruct (@radius_search_pagination Stub.ilike_any Stub.fl Stub.float_pow
              Stub.math_radians Stub.math_sin Stub.math_cos Stub.math_atan2
              Stub.math_sqrt Stub.table (Stub.filters 1 1 1))
    as (_ & _ & _ & _ & Hpages & _).
  - vm_compute. discriminate.
  - vm_compute. discriminate.
  - apply stub_no_math_error.
  - exact Hpages.
Defined.

(** The table of [Libm]: the row at the centre is at distance 0, and the
    search raises. *)
Lemma radius_search_raises_at_antipode_witness :
  let f := around_centre 1 1 20 in
  distance_of Binary64.round Binary64.pow Binary64.radians Libm.math_sin
    Libm.math_cos Stub.math_atan2 Stub.math_sqrt f
    (Stub.row 1 (Some (5 # 2)) (Some 0)) = Some 0
  /\ search_addresses_by_location Stub.ilike_any Binary64.round Binary64.pow
       Binary64.radians Libm.math_sin Libm.math_cos Stub.math_atan2
       Stub.math_sqrt Libm.table f = None.
Proof.
  intros f.
  assert (H : In (Stub.row 1 (Some (5 # 2)) (Some 0)) Libm.table
              /\ In (Stub.row 2 (Some (-5 # 2)) (Some 180)) Libm.table)
    by (simpl; auto).
  destruct (@radius_search_raises_at_antipode Stub.ilike_any Libm.math_sin
              Libm.math_cos Stub.math_atan2 Stub.math_sqrt
              eq_refl eq_refl eq_refl eq_refl eq_refl
              eq_refl eq_refl eq_refl eq_refl
              Stub.round_2 Row.t Stub.model_validate Libm.table
              (Stub.row 1 (Some (5 # 2)) (Some 0))
              (Stub.row 2 (Some (-5 # 2)) (Some 180)) 1 1%Z 20%Z
              (proj1 H) eq_refl eq_refl (proj2 H) eq_refl eq_refl
              ltac:(discriminate))
    as ((_ & Hd & _) & Hs & _).
  split; [exact Hd | exact Hs].
Defined.

(** The first page of twenty over the table of [Libm]. *)
Lemma radius_search_returns_no_page_witness :
  search_by_location_endpoint Stub.ilike_any Binary64.round Binary64.pow
    Binary64.radians Libm.math_sin Libm.math_cos Stub.math_atan2
    Stub.math_sqrt Stub.round_2 Stub.model_validate Libm.table
    (5 # 2) 0 1 None None None 1 20 = HttpError 500.
Proof.
  assert (H : In (Stub.row 2 (Some (-5 # 2)) (Some 180)) Libm.table)
    by (simpl; auto).
  destruct (@radius_search_returns_no_page Stub.ilike_any Libm.math_sin
              Libm.math_cos Stub.math_atan2 Stub.math_sqrt
              eq_refl eq_refl eq_refl eq_refl eq_refl
              Stub.round_2 Row.t Stub.model_validate Libm.table
              (Stub.row 2 (Some (-5 # 2)) (Some 180)) 1 1%Z 20%Z
              H eq_refl eq_refl eq_refl ltac:(discriminate)
              ltac:(lia) ltac:(lia))
    as (_ & _ & He).
  exact He.
Defined.

(** C7 (counterexample).  The table has a row at the centre (0, 0), but a
    search around (0, 0) with radius 0 returns no rows at all: the request
    is refused with status 422. *)
Lemma radius_zero_is_refused :
  let answer :=
    search_by_location_endpoint Stub.ilike_any Stub.fl Stub.float_pow
      Stub.math_radians Stub.math_sin Stub.math_cos Stub.math_atan2
      Stub.math_sqrt Stub.round_2 Stub.model_validate Stub.table
      0 0 0 None None None 1 20 in
  answer = HttpError 422
  /\ ~ (exists body,
          answer = Ok body
          /\ forall x, In x (items body) -> (snd x == 0)%Q).
Proof.
  intros answer. split; [reflexivity|].
  intros (body & H & _). discriminate H.
Qed.

(** The validation of a radius of 0. *)
Lemma radius_zero_rejected_witness :
  Filters.new 0 0 0 None None None 1 20 = None.
Proof.
  destruct (@radius_zero_rejected Stub.ilike_any Stub.fl Stub.float_pow
              Stub.math_radians Stub.math_sin Stub.math_cos Stub.math_atan2
              Stub.math_sqrt Stub.round_2 Row.t Stub.model_validate
              Stub.table 0 0 0 None None None
              1%Z 20%Z (Qle_refl 0)) as (Hnew & _).
  exact Hnew.
Defined.

(* ================================================================= *)
(** * More properties of the resolver *)

(** ** The cache as a list *)

Lemma key_eqb_eq k1 k2 : key_eqb k1 k2 = true <-> k1 = k2.
Proof.
  destruct k1 as [h1 a1], k2 as [h2 a2]. unfold key_eqb. cbn [fst snd].
  rewrite andb_true_iff, !String.eqb_eq. split.
  - intros [-> ->]. reflexivity.
  - intros [= -> ->]. auto.
Qed.

Lemma key_eqb_neq k1 k2 : key_eqb k1 k2 = false <-> k1 <> k2.
Proof.
  rewrite <- not_true_iff_false, key_eqb_eq. tauto.
Qed.

Lemma cache_find_None k l :
  cache_find k l = None <-> ~ In k (map fst l).
Proof.
  induction l as [|[k' v] l IH]; cbn [cache_find map fst In].
  - tauto.
  - destruct (key_eqb k k') eqn:E.
    + apply key_eqb_eq in E. subst k'. split; [discriminate | tauto].
    + apply key_eqb_neq in E. rewrite IH. split.
      * intros H [H1 | H1]; [congruence | tauto].
      * tauto.
Qed.

Lemma cache_remove_incl k l x :
  In x (cache_remove k l) -> In x l.
Proof.
  induction l as [|[k' v] l IH]; cbn [cache_remove]; [tauto|].
  destruct (key_eqb k k'); cbn [In]; tauto.
Qed.

Lemma cache_remove_keys k l :
  NoDup (map fst l) ->
  NoDup (map fst (cache_remove k l)) /\ ~ In k (map fst (cache_remove k l)).
Proof.
  induction l as [|[k' v] l IH]; cbn [cache_remove map fst]; intros Hnd.
  - split; [constructor | tauto].
  - inversion Hnd as [|x xs Hnot Hrest]; subst.
    destruct (IH Hrest) as [IH1 IH2].
    destruct (key_eqb k k') eqn:E.
    + apply key_eqb_eq in E. subst k'. tauto.
    + apply key_eqb_neq in E. cbn [map fst]. split.
      * constructor; [|exact IH1]. intros Hin. apply Hnot.
        apply in_map_iff in Hin. destruct Hin as (e & He & Hin).
        apply in_map_iff. exists e. split; [exact He|].
        exact (cache_remove_incl _ _ _ Hin).
      * intros [H | H]; [congruence | tauto].
Qed.

Lemma cache_remove_length k l v :
  cache_find k l = Some v ->
  S (List.length (cache_remove k l)) = List.length l.
Proof.
  induction l as [|[k' v'] l IH]; cbn [cache_find cache_remove];
    [discriminate|].
  destruct (key_eqb k k'); [reflexivity|].
  intros H. cbn [List.length]. now rewrite (IH H).
Qed.

Lemma cache_find_remove_other k k' l :
  k <> k' -> cache_find k (cache_remove k' l) = cache_find k l.
Proof.
  intros Hne. induction l as [|[k2 v2] l IH]; cbn [cache_remove cache_find];
    [reflexivity|].
  destruct (key_eqb k' k2) eqn:E.
  - apply key_eqb_eq in E. subst k2.
    now replace (key_eqb k k') with false
      by (symmetry; now apply key_eqb_neq).
  - cbn [cache_find]. now rewrite IH.
Qed.

Lemma NoDup_firstn_keep {A} n (l : list A) : NoDup l -> NoDup (firstn n l).
Proof.
  revert l. induction n as [|n IH]; intros l H; simpl; [constructor|].
  destruct H as [|x l Hnot Hnd]; constructor; [|now apply IH].
  intros Hin. apply Hnot.
  rewrite <- (firstn_skipn n l). apply in_or_app. now left.
Qed.

Lemma firstn_maxsize_cons {A} (x y : A) (l : list A) :
  firstn maxsize (x :: y :: l) = x :: y :: firstn (maxsize - 2) l.
Proof. reflexivity. Qed.

Lemma firstn_maxsize_one {A} (x : A) (l : list A) :
  firstn maxsize (x :: l) = x :: firstn (pred maxsize) l.
Proof. reflexivity. Qed.

Section ServiceMoreProperties.

Variable provider : Type.
Variable geocode_api :
  provider -> string -> outcome (list geocode_result) * provider.
Variable md5_hexdigest : string -> string.

Local Abbreviation world := (world provider).
Local Abbreviation geocode_attempts := (geocode_attempts geocode_api).
Local Abbreviation _geocode_with_retry := (_geocode_with_retry geocode_api).
Local Abbreviation get_coordinates :=
  (get_coordinates geocode_api md5_hexdigest).
Local Abbreviation batch_geocode := (batch_geocode geocode_api md5_hexdigest).
Local Abbreviation batch_loop := (batch_loop geocode_api md5_hexdigest).
Local Abbreviation get_place_details := (get_place_details geocode_api).
Local Abbreviation cache_key := (cache_key md5_hexdigest).
Local Abbreviation hit := (get_coordinates_hit geocode_api md5_hexdigest).
Local Abbreviation miss := (get_coordinates_miss geocode_api md5_hexdigest).
Local Abbreviation blank := (get_coordinates_blank geocode_api md5_hexdigest).

(** ** Trimming and the cache *)

Lemma cache_key_strip a1 a2 :
  PyStr.strip a1 = PyStr.strip a2 -> cache_key a1 = cache_key a2.
Proof. intros H. unfold cache_key. now rewrite H. Qed.

Lemma cached_after_lookup self a (w : world) :
  PyStr.truthy (PyStr.strip a) = true ->
  cache_find (cache_key a) (entries (w_cache (snd (get_coordinates self a w))))
  = Some (fst (get_coordinates self a w)).
Proof.
  intros Ht.
  destruct (cache_find (cache_key a) (entries (w_cache w))) as [v|] eqn:Hf.
  - rewrite (hit self a w Ht Hf). cbn [fst snd w_cache].
    apply cache_touch_find.
  - rewrite (miss self a w Ht Hf). cbn [fst snd w_cache].
    apply cache_store_find.
Qed.

(** X1. Two addresses that are equal once trimmed share one cache entry:
    after the first has been resolved, resolving the second returns the
    same result and touches neither the provider nor the clock. *)
Theorem trimmed_addresses_share_entry self a1 a2 (w : world) :
  PyStr.strip a1 = PyStr.strip a2 ->
  let first := get_coordinates self a1 w in
  let second := get_coordinates self a2 (snd first) in
  fst second = fst first
  /\ w_log (snd second) = w_log (snd first)
  /\ w_provider (snd second) = w_provider (snd first).
Proof.
  intros Heq first second. subst first second.
  destruct (PyStr.truthy (PyStr.strip a1)) eqn:Ht.
  - assert (Ht2 : PyStr.truthy (PyStr.strip a2) = true) by now rewrite <- Heq.
    assert (Hin := cached_after_lookup self a1 w Ht).
    rewrite (cache_key_strip _ _ Heq) in Hin.
    rewrite (hit self a2 _ Ht2 Hin). cbn [fst snd w_log w_provider]. auto.
  - assert (Ht2 : PyStr.truthy (PyStr.strip a2) = false) by now rewrite <- Heq.
    rewrite (blank self a1 w Ht), (blank self a2 _ Ht2).
    cbn [fst snd]. auto.
Qed.

Lemma front_after_lookup self a (w : world) :
  PyStr.truthy (PyStr.strip a) = true ->
  exists rest,
    entries (w_cache (snd (get_coordinates self a w)))
    = (cache_key a, fst (get_coordinates self a w)) :: rest.
Proof.
  intros Ht.
  destruct (cache_find (cache_key a) (entries (w_cache w))) as [v|] eqn:Hf.
  - rewrite (hit self a w Ht Hf). cbn [fst snd w_cache].
    eexists. reflexivity.
  - rewrite (miss self a w Ht Hf). cbn [fst snd w_cache].
    unfold cache_store. cbn [entries]. rewrite firstn_maxsize_one.
    eexists. reflexivity.
Qed.

Lemma geocode_with_retry_cache self a (w : world) :
  w_cache (snd (_geocode_with_retry self a w)) = w_cache w.
Proof.
  unfold _geocode_with_retry. destruct (client self); [|reflexivity].
  destruct (geocode_attempts_bound geocode_api self a
              (py_range (max_retries self)) w) as (_ & _ & _ & Hc & _).
  exact Hc.
Qed.

(** X2. A cached address survives the lookup of another address: after
    [a], then [b], resolving [a] again is answered from the cache with the
    first result, whatever [b] is (cached, new, or blank). *)
Theorem entry_survives_next_lookup self a b (w : world) :
  let w1 := snd (get_coordinates self a w) in
  let w2 := snd (get_coordinates self b w1) in
  fst (get_coordinates self a w2) = fst (get_coordinates self a w)
  /\ w_log (snd (get_coordinates self a w2)) = w_log w2
  /\ w_provider (snd (get_coordinates self a w2)) = w_provider w2.
Proof.
  intros w1 w2.
  destruct (PyStr.truthy (PyStr.strip a)) eqn:Ht.
  - assert (Hin1 := cached_after_lookup self a w Ht). fold w1 in Hin1.
    destruct (front_after_lookup self a w Ht) as [rest Hfront].
    fold w1 in Hfront.
    assert (Hin2 : cache_find (cache_key a) (entries (w_cache w2))
                   = Some (fst (get_coordinates self a w))).
    { subst w2. destruct (PyStr.truthy (PyStr.strip b)) eqn:Htb.
      - destruct (key_eqb (cache_key a) (cache_key b)) eqn:Ek.
        + apply key_eqb_eq in Ek.
          rewrite Ek in *. rewrite (hit self b w1 Htb Hin1).
          cbn [snd w_cache]. apply cache_touch_find.
        + destruct (cache_find (cache_key b) (entries (w_cache w1)))
            as [vb|] eqn:Hfb.
          * rewrite (hit self b w1 Htb Hfb). cbn [snd w_cache].
            unfold cache_touch. cbn [entries cache_find]. rewrite Ek.
            rewrite cache_find_remove_other by now apply key_eqb_neq.
            exact Hin1.
          * rewrite (miss self b w1 Htb Hfb). cbn [snd w_cache].
            rewrite geocode_with_retry_cache.
            unfold cache_store. cbn [entries]. rewrite Hfront.
            rewrite firstn_maxsize_cons. cbn [cache_find].
            now rewrite Ek, key_eqb_refl.
      - rewrite (blank self b w1 Htb). exact Hin1. }
    rewrite (hit self a w2 Ht Hin2). cbn [fst snd w_log w_provider]. auto.
  - rewrite (blank self a w2 Ht), (blank self a w Ht). cbn [fst snd]. auto.
Qed.


(** ** What the cache holds *)

Lemma geocode_attempts_paired self a : forall attempts (w : world),
  paired (fst (geocode_attempts self a attempts w)).
Proof.
  induction attempts as [|attempt rest IH]; intros w.
  - simpl. unfold paired. simpl. tauto.
  - rewrite geocode_attempts_cons.
    destruct (geocode_api (w_provider w) a) as [[[|first rs]| |] p];
      cbn [fst first_location]; unfold paired; cbn [fst snd Unresolved];
      try (split; congruence);
      (destruct (attempt <? max_retries self - 1)%Z;
       [apply IH | cbn [fst snd Unresolved]; tauto]).
Qed.

Lemma geocode_with_retry_paired self a (w : world) :
  paired (fst (_geocode_with_retry self a w)).
Proof.
  unfold _geocode_with_retry. destruct (client self).
  - apply geocode_attempts_paired.
  - simpl. unfold paired. simpl. tauto.
Qed.

Lemma get_coordinates_cache_ok self a (w : world) :
  cache_ok (w_cache w) ->
  cache_ok (w_cache (snd (get_coordinates self a w)))
  /\ paired (fst (get_coordinates self a w)).
Proof.
  intros (Hlen & Hnd & Hall).
  destruct (PyStr.truthy (PyStr.strip a)) eqn:Ht.
  - destruct (cache_find (cache_key a) (entries (w_cache w))) as [v|] eqn:Hf.
    + rewrite (hit self a w Ht Hf). cbn [fst snd w_cache].
      destruct (cache_find_In _ _ Hf) as [k' Hin].
      assert (Hv : paired v)
        by exact (proj1 (Forall_forall _ _) Hall _ Hin).
      split; [|exact Hv].
      unfold cache_ok, cache_touch. cbn [entries map fst List.length].
      destruct (cache_remove_keys (cache_key a) _ Hnd) as [Hnd' Hnot].
      split; [|split].
      * rewrite (cache_remove_length _ _ Hf). exact Hlen.
      * now constructor.
      * constructor; [exact Hv | now apply Forall_cache_remove].
    + rewrite (miss self a w Ht Hf). cbn [fst snd w_cache].
      rewrite geocode_with_retry_cache.
      assert (Hv := geocode_with_retry_paired self (PyStr.strip a) w).
      split; [|exact Hv].
      unfold cache_ok, cache_store. cbn [entries].
      split; [|split].
      * apply firstn_le_length.
      * rewrite <- firstn_map. apply NoDup_firstn_keep. cbn [map fst].
        constructor; [|exact Hnd]. now apply cache_find_None.
      * apply Forall_firstn_keep. now constructor.
  - rewrite (blank self a w Ht). cbn [fst snd]. split.
    + repeat split; assumption.
    + unfold paired. simpl. tauto.
Qed.

Lemma batch_loop_cache_ok self n : forall pairs acc (w : world),
  cache_ok (w_cache w) ->
  cache_ok (w_cache (snd (batch_loop self n pairs acc w))).
Proof.
  induction pairs as [|[i address] rest IH]; intros acc w Hok.
  - exact Hok.
  - rewrite batch_loop_cons. cbv zeta. apply IH.
    destruct (get_coordinates_cache_ok self address w Hok) as [Hok' _].
    destruct (i <? n - 1)%Z; exact Hok'.
Qed.

Variable reverse_api :
  provider -> Q -> Q -> outcome (list string) * provider.

Local Abbreviation reverse_attempts := (reverse_attempts reverse_api).
Local Abbreviation reverse_geocode := (reverse_geocode reverse_api).
Local Abbreviation serve := (serve geocode_api reverse_api md5_hexdigest).
Local Abbreviation reachable :=
  (reachable geocode_api reverse_api md5_hexdigest).

Lemma reverse_attempts_cache self lat lng : forall attempts (w : world),
  w_cache (snd (reverse_attempts self lat lng attempts w)) = w_cache w.
Proof.
  induction attempts as [|attempt rest IH]; intros w; [reflexivity|].
  cbn [reverse_attempts]. unfold bind at 1.
  unfold client_reverse_geocode.
  destruct (reverse_api (w_provider w) lat lng) as [[[|address rs]| |] p];
    try reflexivity;
    (destruct (attempt <? max_retries self - 1)%Z; [|reflexivity];
     unfold bind, time_sleep; now rewrite IH).
Qed.

Lemma reachable_cache_ok self (w : world) :
  reachable self w -> cache_ok (w_cache w).
Proof.
  induction 1 as [p | w r Hw IH].
  - repeat split; simpl; try constructor. unfold maxsize.
    apply Nat.le_0_l.
  - destruct r as [a | l | lat lng | a |]; cbn [serve].
    + apply (get_coordinates_cache_ok self a w IH).
    + now apply batch_loop_cache_ok.
    + unfold reverse_geocode. destruct (client self); [|exact IH].
      now rewrite reverse_attempts_cache.
    + unfold get_place_details. destruct (client self); [|exact IH].
      unfold bind, client_geocode.
      destruct (geocode_api (w_provider w) a) as [[[|r0 rs]| |] p]; exact IH.
    + repeat split; simpl; try constructor. apply Nat.le_0_l.
Qed.

(** X3. Whatever requests the service has answered, its cache holds at
    most 1000 entries and no key twice: the size reported by
    [get_cache_info] never exceeds the reported [maxsize]. *)
Theorem cache_stays_within_maxsize int_truediv self (w : world) :
  reachable self w ->
  let info := fst (get_cache_info int_truediv self w) in
  (0 <= ci_currsize info <= ci_maxsize info)%Z
  /\ ci_maxsize info = 1000%Z
  /\ NoDup (map fst (entries (w_cache w))).
Proof.
  intros Hr info. destruct (reachable_cache_ok Hr) as (Hlen & Hnd & _).
  subst info. cbn [fst get_cache_info ci_currsize ci_maxsize].
  split; [|split; [reflexivity | exact Hnd]].
  split; [apply Nat2Z.is_nonneg | now apply Nat2Z.inj_le].
Qed.

(** X4. Whatever requests the service has answered, the resolver returns
    both coordinates or none, and the geocode endpoint answers 404 exactly
    when the resolver returns Unresolved. *)
Theorem coordinates_come_in_pairs self address (w : world) :
  reachable self w ->
  let c := fst (get_coordinates self address w) in
  (c = Unresolved \/ exists lat lng, c = (Some lat, Some lng))
  /\ (fst (geocode_address geocode_api md5_hexdigest self address w)
      = HttpError 404 <-> c = Unresolved).
Proof.
  intros Hr c.
  destruct (get_coordinates_cache_ok self address w (reachable_cache_ok Hr))
    as [_ Hp].
  fold c in Hp. unfold geocode_address, bind.
  destruct (get_coordinates self address w) as [c' w'] eqn:E.
  cbn [fst] in c. subst c. unfold paired in Hp.
  destruct c' as [[lat|] [lng|]]; cbn [fst snd] in Hp.
  - split; [right; eauto|]. split; [discriminate | discriminate].
  - exfalso. destruct Hp as [_ Hp]. discriminate (Hp eq_refl).
  - exfalso. destruct Hp as [Hp _]. discriminate (Hp eq_refl).
  - split; [now left|]. split; reflexivity.
Qed.

(** X5. When the cache is full, a miss drops the least recently used
    entry, and only that one: the new entry comes first and the others
    follow in their order, the last one gone. *)
Theorem full_cache_evicts_least_recent self address (w : world) :
  PyStr.truthy (PyStr.strip address) = true ->
  cache_find (cache_key address) (entries (w_cache w)) = None ->
  List.length (entries (w_cache w)) = maxsize ->
  entries (w_cache (snd (get_coordinates self address w)))
  = (cache_key address, fst (get_coordinates self address w))
      :: removelast (entries (w_cache w)).
Proof.
  intros Ht Hf Hlen. rewrite (miss self address w Ht Hf).
  cbn [fst snd w_cache]. rewrite geocode_with_retry_cache.
  unfold cache_store. cbn [entries]. rewrite firstn_maxsize_one.
  now rewrite removelast_firstn_len, Hlen.
Qed.

(** X6. [clear_cache] empties the cache and resets its counters, and the
    next lookup of a non-blank address goes to the provider again (when
    there is a client and at least one attempt is allowed), also for an
    address that was cached before. *)
Theorem clear_cache_forces_lookup int_truediv self key address (w : world) :
  client self = Some key ->
  (0 < max_retries self)%Z ->
  PyStr.truthy (PyStr.strip address) = true ->
  let w1 := snd (clear_cache self w) in
  let info := fst (get_cache_info int_truediv self w1) in
  (ci_hits info = 0 /\ ci_misses info = 0 /\ ci_currsize info = 0)%Z
  /\ ci_hit_rate info = 0
  /\ w_log w1 = w_log w
  /\ exists evs,
       w_log (snd (get_coordinates self address w1))
       = w_log w ++ EvGeocode (PyStr.strip address) :: evs.
Proof.
  intros Hc Hn Ht w1 info. subst info.
  split; [repeat split|]. split; [reflexivity|]. split; [reflexivity|].
  rewrite (miss self address w1 Ht eq_refl). cbn [snd w_log].
  unfold _geocode_with_retry. rewrite Hc.
  destruct (geocode_attempts_bound geocode_api self (PyStr.strip address)
              (py_range (max_retries self)) w1)
    as (evs & Hlog & _ & _ & Hfirst).
  destruct Hfirst as [evs' ->].
  { unfold py_range.
    destruct (Z.to_nat (max_retries self)) eqn:E; [lia | discriminate]. }
  exists evs'. exact Hlog.
Qed.

(** X7. The counters of [get_cache_info] count the lookups: a blank
    address changes nothing; a non-blank address found in the cache adds
    one hit and leaves the log alone; a non-blank address not found adds
    one miss.  The size grows by at most one. *)
Theorem cache_info_counts_lookups int_truediv self address (w : world) :
  let before := fst (get_cache_info int_truediv self w) in
  let w' := snd (get_coordinates self address w) in
  let after := fst (get_cache_info int_truediv self w') in
  (PyStr.truthy (PyStr.strip address) = false ->
     w' = w)
  /\ (PyStr.truthy (PyStr.strip address) = true ->
      cache_find (cache_key address) (entries (w_cache w)) <> None ->
      ci_hits after = (ci_hits before + 1)%Z
      /\ ci_misses after = ci_misses before
      /\ ci_currsize after = ci_currsize before
      /\ w_log w' = w_log w)
  /\ (PyStr.truthy (PyStr.strip address) = true ->
      cache_find (cache_key address) (entries (w_cache w)) = None ->
      ci_hits after = ci_hits before
      /\ ci_misses after = (ci_misses before + 1)%Z
      /\ (ci_currsize after <= ci_currsize before + 1)%Z).
Proof.
  intros before w' after. subst before after w'. split; [|split].
  - intros Ht. now rewrite (blank self address w Ht).
  - intros Ht Hf.
    destruct (cache_find (cache_key address) (entries (w_cache w)))
      as [v|] eqn:E; [|congruence].
    rewrite (hit self address w Ht E).
    cbn [fst snd get_cache_info w_cache w_log cache_touch hits misses entries
         ci_hits ci_misses ci_currsize List.length].
    rewrite (cache_remove_length _ _ E). repeat split. lia.
  - intros Ht Hf. rewrite (miss self address w Ht Hf).
    cbn [fst snd get_cache_info w_cache]. rewrite geocode_with_retry_cache.
    cbn [cache_store hits misses entries ci_hits ci_misses ci_currsize].
    repeat split; [lia|].
    rewrite length_firstn. cbn [List.length]. lia.
Qed.

(** X8. [get_place_details] goes round the cache: with a client it calls
    the provider exactly once, with the address as given, also when the
    address has just been resolved and cached; it never sleeps and leaves
    the cache as it was. *)
Theorem place_details_bypasses_cache self key address (w : world) :
  client self = Some key ->
  let w1 := snd (get_coordinates self address w) in
  let w2 := snd (get_place_details self address w1) in
  w_log w2 = w_log w1 ++ [EvGeocode address]
  /\ w_cache w2 = w_cache w1
  /\ (fst (get_place_details self address w1) = None
      <-> forall r rs, fst (geocode_api (w_provider w1) address)
                       <> Returned (r :: rs)).
Proof.
  intros Hc w1 w2. subst w2. unfold get_place_details. rewrite Hc.
  unfold bind, client_geocode.
  destruct (geocode_api (w_provider w1) address) as [[[|r0 rs0]| |] p];
    cbn [fst snd w_log w_cache ret]; repeat split;
    try discriminate; try (intros; discriminate).
  intros H. exfalso. exact (H r0 rs0 eq_refl).
Qed.

(** X9. The batch endpoint refuses more than 100 addresses with status
    400 before anything is resolved; otherwise it answers with one result
    per address, in order, and its two counts add up to the total. *)
Theorem batch_endpoint_counts self addresses (w : world) :
  let answer := batch_geocode_addresses geocode_api md5_hexdigest self
                  addresses w in
  ((100 < List.length addresses)%nat -> answer = (HttpError 400, w))
  /\ ((List.length addresses <= 100)%nat ->
      exists body,
        fst answer = Ok body
        /\ snd answer = snd (batch_geocode self addresses w)
        /\ map be_address (br_results body) = addresses
        /\ br_total body = Z.of_nat (List.length addresses)
        /\ (br_success_count body + br_failure_count body = br_total body)%Z).
Proof.
  intros answer. subst answer. unfold batch_geocode_addresses. split.
  - intros H.
    replace (Z.of_nat (List.length addresses) >? 100)%Z with true
      by (symmetry; apply Z.gtb_lt; lia).
    reflexivity.
  - intros H.
    replace (Z.of_nat (List.length addresses) >? 100)%Z with false
      by (symmetry; rewrite Z.gtb_ltb; apply Z.ltb_ge; lia).
    unfold bind.
    destruct (@batch_loop_run provider geocode_api md5_hexdigest self
                (List.length addresses) addresses 0%nat [] w eq_refl)
      as (results & w' & Heq & Hrun).
    assert (E : batch_geocode self addresses w = (results, w')).
    { unfold batch_geocode, enumerate, py_range.
      rewrite Nat2Z.id. exact Heq. }
    rewrite E. cbn [fst snd ret].
    eexists. split; [reflexivity|].
    cbn [br_results br_total br_success_count br_failure_count].
    destruct (batch_run_entries Hrun) as (Hmap & _ & _).
    repeat split; [exact Hmap|].
    rewrite <- Nat2Z.inj_add, filter_length.
    rewrite <- Hmap. now rewrite length_map.
Qed.

(** ** The reverse retry loop *)

Local Abbreviation nth_reverse_response := (nth_reverse_response reverse_api).
Local Abbreviation after_reverse_calls := (after_reverse_calls reverse_api).
Local Abbreviation reverse_failed_from := (reverse_failed_from reverse_api).
Local Abbreviation reverse_exhausted := (reverse_exhausted reverse_api).

Lemma reverse_attempts_cons self lat lng attempt rest (w : world) :
  reverse_attempts self lat lng (attempt :: rest) w =
    let (r, p) := reverse_api (w_provider w) lat lng in
    let w1 := {| w_provider := p;
                 w_log := w_log w ++ [EvReverseGeocode lat lng];
                 w_cache := w_cache w |} in
    match r with
    | Returned rs => (first_address rs, w1)
    | _ =>
        if (attempt <? max_retries self - 1)%Z
        then reverse_attempts self lat lng rest
               {| w_provider := p;
                  w_log := (w_log w ++ [EvReverseGeocode lat lng])
                             ++ [EvSleep (reverse_wait_after self r (attempt + 1))];
                  w_cache := w_cache w |}
        else (None, w1)
    end.
Proof.
  cbn [reverse_attempts]. unfold bind, client_reverse_geocode.
  destruct (reverse_api (w_provider w) lat lng) as [[[|first rs]| |] p];
    try reflexivity;
    destruct (attempt <? max_retries self - 1)%Z; reflexivity.
Qed.

Lemma reverse_failed_from_succ self lat lng p j k :
  reverse_failed_from self lat lng p j (S k) =
    EvReverseGeocode lat lng
    :: EvSleep (reverse_wait_after self (fst (reverse_api p lat lng))
                  (Z.of_nat j + 1))
    :: reverse_failed_from self lat lng (snd (reverse_api p lat lng)) (S j) k.
Proof.
  unfold reverse_failed_from. rewrite flat_map_seq_succ. simpl.
  rewrite Nat.add_0_r. do 2 f_equal.
  apply flat_map_ext. intros i. unfold nth_reverse_response. simpl.
  now replace (Z.of_nat (j + S i)) with (Z.of_nat (S (j + i))) by lia.
Qed.

Lemma reverse_attempts_answered self lat lng : forall k m j (w : world) rs,
  (j + m)%nat = Z.to_nat (max_retries self) ->
  (k < m)%nat ->
  (forall i, (i < k)%nat ->
             is_error (nth_reverse_response lat lng (w_provider w) i) = true) ->
  nth_reverse_response lat lng (w_provider w) k = Returned rs ->
  reverse_attempts self lat lng (map Z.of_nat (seq j m)) w =
    (first_address rs,
     {| w_provider := after_reverse_calls lat lng (S k) (w_provider w);
        w_log := w_log w ++ reverse_failed_from self lat lng (w_provider w) j k
                       ++ [EvReverseGeocode lat lng];
        w_cache := w_cache w |}).
Proof.
  induction k as [|k IH]; intros m j w rs Hn Hk Herr Hans.
  - destruct m as [|m]; [lia|].
    change (map Z.of_nat (seq j (S m)))
      with (Z.of_nat j :: map Z.of_nat (seq (S j) m)).
    rewrite reverse_attempts_cons.
    change (nth_reverse_response lat lng (w_provider w) 0)
      with (fst (reverse_api (w_provider w) lat lng)) in Hans.
    cbn [after_reverse_calls].
    destruct (reverse_api (w_provider w) lat lng) as [r p].
    cbn [fst snd] in *. subst r. reflexivity.
  - destruct m as [|[|m]]; try lia.
    assert (H0 := Herr 0%nat ltac:(lia)).
    change (nth_reverse_response lat lng (w_provider w) 0)
      with (fst (reverse_api (w_provider w) lat lng)) in H0.
    change (map Z.of_nat (seq j (S (S m))))
      with (Z.of_nat j :: map Z.of_nat (seq (S j) (S m))).
    rewrite reverse_attempts_cons, reverse_failed_from_succ.
    rewrite (retry_test self j m Hn).
    change (nth_reverse_response lat lng (w_provider w) (S k))
      with (nth_reverse_response lat lng
              (snd (reverse_api (w_provider w) lat lng)) k) in Hans.
    assert (Herr' : forall i, (i < k)%nat ->
              is_error (nth_reverse_response lat lng
                          (snd (reverse_api (w_provider w) lat lng)) i) = true).
    { intros i Hi. apply (Herr (S i)). lia. }
    change (after_reverse_calls lat lng (S (S k)) (w_provider w))
      with (after_reverse_calls lat lng (S k)
              (snd (reverse_api (w_provider w) lat lng))).
    destruct (reverse_api (w_provider w) lat lng) as [r p].
    cbn [fst snd] in *.
    destruct r as [rs0| |]; [discriminate H0| |];
      (rewrite IH with (rs := rs); cbn [w_provider w_log w_cache];
       [ rewrite <- !app_assoc; reflexivity | lia | lia | assumption | assumption ]).
Qed.

Lemma reverse_attempts_exhausted self lat lng : forall m j (w : world),
  (j + m)%nat = Z.to_nat (max_retries self) ->
  (forall i, (i < m)%nat ->
             is_error (nth_reverse_response lat lng (w_provider w) i) = true) ->
  reverse_attempts self lat lng (map Z.of_nat (seq j m)) w =
    (None,
     {| w_provider := after_reverse_calls lat lng m (w_provider w);
        w_log := w_log w ++
                 match m with
                 | O => []
                 | S m' => reverse_failed_from self lat lng (w_provider w) j m'
                             ++ [EvReverseGeocode lat lng]
                 end;
        w_cache := w_cache w |}).
Proof.
  induction m as [|m IH]; intros j w Hn Herr.
  - simpl. rewrite app_nil_r. now destruct w.
  - assert (H0 := Herr 0%nat ltac:(lia)).
    change (nth_reverse_response lat lng (w_provider w) 0)
      with (fst (reverse_api (w_provider w) lat lng)) in H0.
    change (map Z.of_nat (seq j (S m)))
      with (Z.of_nat j :: map Z.of_nat (seq (S j) m)).
    rewrite reverse_attempts_cons.
    assert (Herr' : forall i, (i < m)%nat ->
              is_error (nth_reverse_response lat lng
                          (snd (reverse_api (w_provider w) lat lng)) i) = true).
    { intros i Hi. apply (Herr (S i)). lia. }
    change (after_reverse_calls lat lng (S m) (w_provider w))
      with (after_reverse_calls lat lng m
              (snd (reverse_api (w_provider w) lat lng))).
    destruct m as [|m].
    + rewrite (last_test self j) by lia.
      cbn [reverse_failed_from flat_map seq app
           after_reverse_calls].
      destruct (reverse_api (w_provider w) lat lng) as [[rs| |] p];
        cbn [fst snd] in *; [discriminate H0| |]; reflexivity.
    + rewrite (retry_test self j m Hn), reverse_failed_from_succ.
      destruct (reverse_api (w_provider w) lat lng) as [r p].
      cbn [fst snd] in *.
      destruct r as [rs0| |]; [discriminate H0| |];
        (rewrite IH; cbn [w_provider w_log w_cache];
         [ rewrite <- !app_assoc; reflexivity | lia | assumption ]).
Qed.

(** X10. The reverse operation follows the retry policy of the resolver,
    without a cache.  With a client and [n = max_retries]: if attempt
    [k + 1 <= n] is the first that the provider answers, the log grows by
    [k] failed attempts, each followed by its wait ([retry_delay *
    attempt_number] after an API-level error, [retry_delay] after another
    exception), and by the answered call; the result is the address of the
    first result, or [None] at once when the list is empty.  If no attempt
    is answered, the result is [None] after [n] calls, with no wait after
    the last.  The cache is never touched. *)
Theorem reverse_retry_policy self key lat lng (w : world) :
  client self = Some key ->
  let n := Z.to_nat (max_retries self) in
  let p := w_provider w in
  (forall k rs,
     (k < n)%nat ->
     (forall i, (i < k)%nat ->
                is_error (nth_reverse_response lat lng p i) = true) ->
     nth_reverse_response lat lng p k = Returned rs ->
     reverse_geocode self lat lng w =
       (first_address rs,
        {| w_provider := after_reverse_calls lat lng (S k) p;
           w_log := w_log w ++ reverse_failed_from self lat lng p 0 k
                          ++ [EvReverseGeocode lat lng];
           w_cache := w_cache w |}))
  /\ ((forall i, (i < n)%nat ->
                 is_error (nth_reverse_response lat lng p i) = true) ->
      reverse_geocode self lat lng w =
        (None,
         {| w_provider := after_reverse_calls lat lng n p;
            w_log := w_log w ++ reverse_exhausted self lat lng p n;
            w_cache := w_cache w |})).
Proof.
  intros Hc n p. unfold reverse_geocode, py_range. rewrite Hc.
  fold n. split.
  - intros k rs Hk Herr Hans.
    apply (@reverse_attempts_answered self lat lng k n 0%nat w rs);
      try assumption. reflexivity.
  - intros Herr.
    apply (@reverse_attempts_exhausted self lat lng n 0%nat w);
      try assumption. reflexivity.
Qed.

(** C8 (amended).  The reverse operation performs no range check on its
    coordinates.  [validate_coordinates] is false on exactly the inputs
    with a latitude outside [-90, 90] or a longitude outside [-180, 180],
    but the reverse operation never consults it: for such an input a
    service with a client passes these very coordinates to the provider,
    at least once and at most [max_retries] times, under the retry and
    backoff policy of any other input.  If attempt [k + 1] is the first
    that the provider answers, the log grows by [k] failed calls, each
    followed by its wait ([retry_delay * attempt_number] after an
    API-level error, [retry_delay] after another exception), and by the
    answered call; if no attempt is answered, the result is [None] after
    [max_retries] calls, with no wait after the last. *)
Theorem reverse_forwards_out_of_range self key lat lng (w : world) :
  client self = Some key ->
  (lat < -90 \/ 90 < lat \/ lng < -180 \/ 180 < lng)%Q ->
  let n := Z.to_nat (max_retries self) in
  let p := w_provider w in
  (forall lat' lng',
     validate_coordinates self lat' lng' = false
     <-> (lat' < -90 \/ 90 < lat' \/ lng' < -180 \/ 180 < lng')%Q)
  /\ validate_coordinates self lat lng = false
  /\ ((0 < n)%nat ->
      exists evs,
        w_log (snd (reverse_geocode self lat lng w))
        = w_log w ++ EvReverseGeocode lat lng :: evs
        /\ (1 <= provider_calls (EvReverseGeocode lat lng :: evs) <= n)%nat)
  /\ (forall k rs,
        (k < n)%nat ->
        (forall i, (i < k)%nat ->
                   is_error (nth_reverse_response lat lng p i) = true) ->
        nth_reverse_response lat lng p k = Returned rs ->
        reverse_geocode self lat lng w =
          (first_address rs,
           {| w_provider := after_reverse_calls lat lng (S k) p;
              w_log := w_log w ++ reverse_failed_from self lat lng p 0 k
                             ++ [EvReverseGeocode lat lng];
              w_cache := w_cache w |}))
  /\ ((forall i, (i < n)%nat ->
                 is_error (nth_reverse_response lat lng p i) = true) ->
      reverse_geocode self lat lng w =
        (None,
         {| w_provider := after_reverse_calls lat lng n p;
            w_log := w_log w ++ reverse_exhausted self lat lng p n;
            w_cache := w_cache w |})).
Proof.
  intros Hclient Hout n p.
  assert (Hrange : forall lat' lng',
            validate_coordinates self lat' lng' = false
            <-> (lat' < -90 \/ 90 < lat' \/ lng' < -180 \/ 180 < lng')%Q).
  { intros lat' lng'. unfold validate_coordinates, PyFloat.le.
    rewrite <- not_true_iff_false, !andb_true_iff, !Qle_bool_iff. split.
    - intros H.
      destruct (Qlt_le_dec lat' (-90)); [auto|].
      destruct (Qlt_le_dec 90 lat'); [auto|].
      destruct (Qlt_le_dec lng' (-180)); [auto|].
      destruct (Qlt_le_dec 180 lng'); [auto 6|].
      exfalso. apply H. auto.
    - intros H [[H1 H2] [H3 H4]]. lra. }
  split; [exact Hrange|]. split; [now apply Hrange|].
  split; [|split].
  - intros Hn. unfold reverse_geocode. rewrite Hclient.
    destruct (@reverse_attempts_bound provider reverse_api self lat lng
                (py_range (max_retries self)) w)
      as (evs & Hlog & Hcalls & Hfirst).
    unfold py_range in *. rewrite length_map, length_seq in Hcalls.
    fold n in Hcalls, Hfirst, Hlog.
    destruct Hfirst as [evs' ->].
    { destruct n; [lia | discriminate]. }
    exists evs'. split; [exact Hlog|]. split; [|exact Hcalls].
    unfold provider_calls. simpl. lia.
  - intros k rs Hk Herr Hans. unfold reverse_geocode, py_range.
    rewrite Hclient. fold n.
    apply (@reverse_attempts_answered self lat lng k n 0%nat w rs);
      try assumption. reflexivity.
  - intros Herr. unfold reverse_geocode, py_range. rewrite Hclient. fold n.
    apply (@reverse_attempts_exhausted self lat lng n 0%nat w);
      try assumption. reflexivity.
Qed.

(** ** The time spent waiting *)

Lemma wait_budget_nonneg : forall m j, (0 <= wait_budget j m)%Z.
Proof.
  induction m as [|m IH]; intros j; [reflexivity|].
  cbn [wait_budget]. destruct m; [lia|].
  specialize (IH (S j)). lia.
Qed.

Lemma wait_budget_closed : forall m j,
  (2 * wait_budget j (S m) = Z.of_nat m * (2 * Z.of_nat j + Z.of_nat m + 1))%Z.
Proof.
  induction m as [|m IH]; intros j; [reflexivity|].
  change (wait_budget j (S (S m)))
    with (Z.of_nat j + 1 + wait_budget (S j) (S m))%Z.
  specialize (IH (S j)). nia.
Qed.

Lemma wait_budget_triangle n :
  wait_budget 0 n = (Z.of_nat n * (Z.of_nat n - 1) / 2)%Z.
Proof.
  destruct n as [|m]; [reflexivity|].
  assert (H := wait_budget_closed m 0).
  apply Z.div_unique_exact; [lia|]. lia.
Qed.

Lemma budget_nonneg (delay : Q) (z : Z) :
  (0 <= delay)%Q -> (0 <= z)%Z -> (0 <= delay * inject_Z z)%Q.
Proof.
  intros Hd Hz. apply Qmult_le_0_compat; [exact Hd|].
  change 0%Q with (inject_Z 0). now rewrite <- Zle_Qle.
Qed.

Lemma geocode_attempts_wait self a : forall m j (w : world),
  (j + m)%nat = Z.to_nat (max_retries self) ->
  (0 <= retry_delay self)%Q ->
  exists evs,
    w_log (snd (geocode_attempts self a (map Z.of_nat (seq j m)) w))
    = w_log w ++ evs
    /\ (total_sleep evs <= retry_delay self * inject_Z (wait_budget j m))%Q.
Proof.
  induction m as [|m IH]; intros j w Hn Hd.
  - exists []. cbn [seq map]. rewrite app_nil_r. split; [reflexivity|].
    cbn [total_sleep wait_budget]. change (inject_Z 0) with 0%Q. lra.
  - change (map Z.of_nat (seq j (S m)))
      with (Z.of_nat j :: map Z.of_nat (seq (S j) m)).
    rewrite geocode_attempts_cons.
    assert (Hb := wait_budget_nonneg (S m) j).
    assert (Hstop : exists evs,
              w_log w ++ [EvGeocode a] = w_log w ++ evs
              /\ (total_sleep evs
                  <= retry_delay self * inject_Z (wait_budget j (S m)))%Q).
    { exists [EvGeocode a]. split; [reflexivity|]. cbn [total_sleep].
      now apply budget_nonneg. }
    destruct (geocode_api (w_provider w) a) as [r p].
    destruct m as [|m].
    { rewrite (last_test self j) by lia.
      destruct r; cbn [snd w_log]; exact Hstop. }
    rewrite (retry_test self j m Hn).
    destruct r as [rs| |]; cbn [snd w_log]; try exact Hstop;
      match goal with
      | |- context [geocode_attempts self a ?l ?w1] =>
          destruct (IH (S j) w1) as (evs & Hlog & Hsum); [lia | exact Hd |];
          rewrite Hlog; cbn [w_log];
          eexists; split; [rewrite <- !app_assoc; simpl; reflexivity|]
      end;
      change (wait_budget j (S (S m)))
        with (Z.of_nat j + 1 + wait_budget (S j) (S m))%Z;
      rewrite (inject_Z_plus (Z.of_nat j + 1) (wait_budget (S j) (S m)));
      cbn [total_sleep wait_after];
      assert (H1 : (1 <= inject_Z (Z.of_nat j + 1))%Q)
        by (change 1%Q with (inject_Z 1); rewrite <- Zle_Qle; lia);
      set (x := inject_Z (Z.of_nat j + 1)) in *;
      set (y := inject_Z (wait_budget (S j) (S m))) in *;
      nra.
Qed.

Lemma reverse_attempts_wait self lat lng : forall m j (w : world),
  (j + m)%nat = Z.to_nat (max_retries self) ->
  (0 <= retry_delay self)%Q ->
  exists evs,
    w_log (snd (reverse_attempts self lat lng (map Z.of_nat (seq j m)) w))
    = w_log w ++ evs
    /\ (total_sleep evs <= retry_delay self * inject_Z (wait_budget j m))%Q.
Proof.
  induction m as [|m IH]; intros j w Hn Hd.
  - exists []. cbn [seq map]. rewrite app_nil_r. split; [reflexivity|].
    cbn [total_sleep wait_budget]. change (inject_Z 0) with 0%Q. lra.
  - change (map Z.of_nat (seq j (S m)))
      with (Z.of_nat j :: map Z.of_nat (seq (S j) m)).
    rewrite reverse_attempts_cons.
    assert (Hb := wait_budget_nonneg (S m) j).
    assert (Hstop : exists evs,
              w_log w ++ [EvReverseGeocode lat lng] = w_log w ++ evs
              /\ (total_sleep evs
                  <= retry_delay self * inject_Z (wait_budget j (S m)))%Q).
    { exists [EvReverseGeocode lat lng]. split; [reflexivity|].
      cbn [total_sleep]. now apply budget_nonneg. }
    destruct (reverse_api (w_provider w) lat lng) as [r p].
    destruct m as [|m].
    { rewrite (last_test self j) by lia.
      destruct r; cbn [snd w_log]; exact Hstop. }
    rewrite (retry_test self j m Hn).
    destruct r as [rs| |]; cbn [snd w_log]; try exact Hstop;
      match goal with
      | |- context [reverse_attempts self lat lng ?l ?w1] =>
          destruct (IH (S j) w1) as (evs & Hlog & Hsum); [lia | exact Hd |];
          rewrite Hlog; cbn [w_log];
          eexists; split; [rewrite <- !app_assoc; simpl; reflexivity|]
      end;
      change (wait_budget j (S (S m)))
        with (Z.of_nat j + 1 + wait_budget (S j) (S m))%Z;
      rewrite (inject_Z_plus (Z.of_nat j + 1) (wait_budget (S j) (S m)));
      cbn [total_sleep reverse_wait_after];
      assert (H1 : (1 <= inject_Z (Z.of_nat j + 1))%Q)
        by (change 1%Q with (inject_Z 1); rewrite <- Zle_Qle; lia);
      set (x := inject_Z (Z.of_nat j + 1)) in *;
      set (y := inject_Z (wait_budget (S j) (S m))) in *;
      nra.
Qed.

(** X11. One call of the resolver, and one call of the reverse operation,
    sleeps for at most [retry_delay * (1 + 2 + ... + (max_retries - 1))]
    seconds in all (3 s with the default settings), whatever the provider
    does, when [retry_delay] is not negative. *)
Theorem retry_wait_is_bounded self address lat lng (w : world) :
  (0 <= retry_delay self)%Q ->
  let n := Z.of_nat (Z.to_nat (max_retries self)) in
  let bound := (retry_delay self * inject_Z (n * (n - 1) / 2))%Q in
  (exists evs,
     w_log (snd (get_coordinates self address w)) = w_log w ++ evs
     /\ (total_sleep evs <= bound)%Q)
  /\ (exists evs,
        w_log (snd (reverse_geocode self lat lng w)) = w_log w ++ evs
        /\ (total_sleep evs <= bound)%Q).
Proof.
  intros Hd n bound. subst bound n.
  rewrite <- wait_budget_triangle.
  assert (Hnone : exists evs : list event,
            w_log w = w_log w ++ evs
            /\ (total_sleep evs
                <= retry_delay self
                   * inject_Z (wait_budget 0 (Z.to_nat (max_retries self))))%Q).
  { exists []. rewrite app_nil_r. split; [reflexivity|]. cbn [total_sleep].
    apply budget_nonneg; [exact Hd | apply wait_budget_nonneg]. }
  split.
  - destruct (PyStr.truthy (PyStr.strip address)) eqn:Ht.
    + destruct (cache_find (cache_key address) (entries (w_cache w)))
        as [v|] eqn:Hf.
      * rewrite (hit self address w Ht Hf). exact Hnone.
      * rewrite (miss self address w Ht Hf). cbn [snd w_log].
        unfold _geocode_with_retry, py_range.
        destruct (client self); [|exact Hnone].
        now apply geocode_attempts_wait.
    + rewrite (blank self address w Ht). exact Hnone.
  - unfold reverse_geocode, py_range.
    destruct (client self); [|exact Hnone].
    now apply reverse_attempts_wait.
Qed.

End ServiceMoreProperties.

(* ================================================================= *)
(** * Properties of the repository *)

Lemma update_where_id_ids rows record_id (change : Row.t -> Row.t) :
  (forall r, Row.id (change r) = Row.id r) ->
  map Row.id (update_where_id rows record_id change) = map Row.id rows.
Proof.
  intros Hid. unfold update_where_id. rewrite map_map.
  apply map_ext. intros r. destruct (Row.id r =? record_id)%Z; auto.
Qed.

Lemma find_delete_where_id rows record_id other :
  find (fun r => (Row.id r =? other)%Z) (delete_where_id rows record_id)
  = if (other =? record_id)%Z then None
    else find (fun r => (Row.id r =? other)%Z) rows.
Proof.
  induction rows as [|r rows IH]; cbn [find delete_where_id filter].
  - now destruct (other =? record_id)%Z.
  - fold (delete_where_id rows record_id).
    destruct (Row.id r =? record_id)%Z eqn:E; cbn [negb].
    + rewrite IH. apply Z.eqb_eq in E.
      destruct (other =? record_id)%Z eqn:E2; [reflexivity|].
      apply Z.eqb_neq in E2.
      now replace (Row.id r =? other)%Z with false
        by (symmetry; apply Z.eqb_neq; congruence).
    + cbn [find]. rewrite IH.
      destruct (other =? record_id)%Z eqn:E2; [|reflexivity].
      apply Z.eqb_eq in E2. subst other. now rewrite E.
Qed.

Lemma find_app_fresh (rows : list Row.t) row record_id :
  find (fun r => (Row.id r =? record_id)%Z) (rows ++ [row])
  = match find (fun r => (Row.id r =? record_id)%Z) rows with
    | Some r => Some r
    | None => if (Row.id row =? record_id)%Z then Some row else None
    end.
Proof.
  induction rows as [|r rows IH]; cbn [app find]; [reflexivity|].
  destruct (Row.id r =? record_id)%Z; [reflexivity | exact IH].
Qed.

Lemma find_none_fresh (rows : list Row.t) (bound : Z) :
  Forall (fun row => (Row.id row < bound)%Z) rows ->
  find (fun r => (Row.id r =? bound)%Z) rows = None.
Proof.
  induction 1 as [|r rows Hr Hrows IH]; cbn [find]; [reflexivity|].
  now replace (Row.id r =? bound)%Z with false
    by (symmetry; apply Z.eqb_neq; lia).
Qed.

Lemma NoDup_app_swap_one {A} (l : list A) (x : A) :
  NoDup l -> ~ In x l -> NoDup (l ++ [x]).
Proof.
  intros Hnd Hnot.
  apply (Permutation_NoDup (l := x :: l)); [|now constructor].
  apply Permutation_cons_append.
Qed.

Lemma offset_limit_some {A} (rows : list A) (skip limit : Z) :
  (0 <= skip)%Z -> (0 <= limit)%Z ->
  offset_limit rows skip limit
  = Some (firstn (Z.to_nat limit) (skipn (Z.to_nat skip) rows)).
Proof.
  intros Hs Hl. unfold offset_limit.
  replace (skip <? 0)%Z with false by (symmetry; apply Z.ltb_ge; lia).
  now replace (limit <? 0)%Z with false by (symmetry; apply Z.ltb_ge; lia).
Qed.

Section RepositoryMoreProperties.

Variable ilike : string -> string -> bool.
Variable sql_eq : string -> string -> bool.
Variable sql_order_by : SortField -> bool -> list Row.t -> list Row.t.
Variable json_dumps : list string -> string.

Local Abbreviation create_customer_address :=
  (create_customer_address json_dumps).
Local Abbreviation apply_update := (apply_update json_dumps).
Local Abbreviation update_customer_address :=
  (update_customer_address json_dumps).
Local Abbreviation search_where := (search_where ilike sql_eq).
Local Abbreviation search_query := (search_query ilike sql_eq sql_order_by).
Local Abbreviation search_customer_addresses :=
  (search_customer_addresses ilike sql_eq sql_order_by).
Local Abbreviation search_page := (search_page ilike sql_eq sql_order_by).

(** X12. Deleting an unknown record answers [False] and changes nothing.
    Deleting a known record answers [True]; afterwards the record is not
    found any more, every other record is found as before, and the next id
    is unchanged. *)
Theorem delete_then_lookup db record_id :
  (get_address_by_id db record_id = None ->
     delete_customer_address db record_id = (false, db))
  /\ (get_address_by_id db record_id <> None ->
      fst (delete_customer_address db record_id) = true
      /\ get_address_by_id (snd (delete_customer_address db record_id))
           record_id = None
      /\ (forall other, other <> record_id ->
            get_address_by_id (snd (delete_customer_address db record_id)) other
            = get_address_by_id db other)
      /\ db_next_id (snd (delete_customer_address db record_id))
         = db_next_id db).
Proof.
  unfold delete_customer_address. split.
  - intros H. now rewrite H.
  - intros H. destruct (get_address_by_id db record_id) as [r|]; [|congruence].
    cbn [fst snd]. unfold get_address_by_id. cbn [db_rows db_next_id].
    repeat split.
    + rewrite find_delete_where_id. now rewrite Z.eqb_refl.
    + intros other Hne. rewrite find_delete_where_id.
      now replace (other =? record_id)%Z with false
        by (symmetry; now apply Z.eqb_neq).
Qed.

Lemma apply_update_id row patch lat lng row' :
  apply_update row patch lat lng = Some row' ->
  Row.id row' = Row.id row
  /\ Row.customer_id row' = Row.customer_id row
  /\ Row.address_id row' = Row.address_id row
  /\ Row.total_amount row' = Row.total_amount row
  /\ Row.lat row' = match lat with Some _ => lat | None => Row.lat row end
  /\ Row.lng row' = match lng with Some _ => lng | None => Row.lng row end
  /\ Some (Row.full_address row')
     = assign_required (Patch.full_address patch) (Row.full_address row).
Proof.
  unfold apply_update.
  destruct (assign_required (Patch.customer_name patch) (Row.customer_name row));
    [|discriminate].
  destruct (assign_required (Patch.country patch) (Row.country row));
    [|discriminate].
  destruct (assign_required (Patch.address_line1 patch) (Row.address_line1 row));
    [|discriminate].
  destruct (assign_required (Patch.zip_code patch) (Row.zip_code row));
    [|discriminate].
  destruct (assign_required (Patch.city patch) (Row.city row));
    [|discriminate].
  destruct (assign_required (Patch.state patch) (Row.state row));
    [|discriminate].
  destruct (assign_required (Patch.full_address patch) (Row.full_address row));
    [|discriminate].
  intros [= <-]. cbn. repeat split.
Qed.

Lemma update_customer_address_found db record_id patch lat lng row row' db' :
  get_address_by_id db record_id = Some row ->
  update_customer_address db record_id patch lat lng = Some (Some row', db') ->
  Row.id row' = record_id
  /\ Row.customer_id row' = Row.customer_id row
  /\ Row.address_id row' = Row.address_id row
  /\ Row.total_amount row' = Row.total_amount row
  /\ Row.lat row' = match lat with Some _ => lat | None => Row.lat row end
  /\ Row.lng row' = match lng with Some _ => lng | None => Row.lng row end
  /\ get_address_by_id db' record_id = Some row'
  /\ (forall other, other <> record_id ->
        get_address_by_id db' other = get_address_by_id db other)
  /\ map Row.id (db_rows db') = map Row.id (db_rows db)
  /\ db_next_id db' = db_next_id db.
Proof.
  unfold update_customer_address.
  intros Hfind. rewrite Hfind.
  destruct (apply_update row patch lat lng) as [updated|] eqn:E;
    [|discriminate].
  intros [= <- <-].
  destruct (apply_update_id _ _ _ _ E) as (Hid & Hc & Ha & Ht & Hlat & Hlng & _).
  assert (Hrow : Row.id row = record_id).
  { unfold get_address_by_id in Hfind. apply find_some in Hfind.
    now apply Z.eqb_eq. }
  unfold get_address_by_id in *. cbn [db_rows db_next_id].
  repeat split; try congruence.
  + clear - Hfind Hid Hrow.
    induction (db_rows db) as [|r rows IH];
      cbn [find update_where_id map] in *; [discriminate|].
    destruct (Row.id r =? record_id)%Z eqn:Er.
    * replace (Row.id updated =? record_id)%Z with true
        by (symmetry; apply Z.eqb_eq; congruence).
      reflexivity.
    * rewrite Er. now apply IH.
  + intros other Hne. clear - Hid Hrow Hne.
    induction (db_rows db) as [|r rows IH];
      cbn [find update_where_id map]; [reflexivity|].
    destruct (Row.id r =? record_id)%Z eqn:Er.
    * apply Z.eqb_eq in Er.
      replace (Row.id updated =? other)%Z with false
        by (symmetry; apply Z.eqb_neq; congruence).
      replace (Row.id r =? other)%Z with false
        by (symmetry; apply Z.eqb_neq; congruence).
      exact IH.
    * destruct (Row.id r =? other)%Z; [reflexivity | exact IH].
  + unfold update_where_id. rewrite map_map. apply map_ext_in.
    intros r _. destruct (Row.id r =? record_id)%Z eqn:Er; [|reflexivity].
    apply Z.eqb_eq in Er. congruence.
Qed.

(** X13. An update of an unknown record answers [None] and changes
    nothing.  An update that succeeds keeps the id, the customer id, the
    address id and the total amount of the record; it replaces a coordinate
    only when a new one is given, so an update without coordinates never
    clears them; afterwards the record is found in its new state, every
    other record is found as before, and no id has changed. *)
Theorem update_keeps_coordinates db record_id patch lat lng :
  (get_address_by_id db record_id = None ->
     update_customer_address db record_id patch lat lng = Some (None, db))
  /\ (forall row row' db',
        get_address_by_id db record_id = Some row ->
        update_customer_address db record_id patch lat lng
        = Some (Some row', db') ->
        Row.id row' = record_id
        /\ Row.customer_id row' = Row.customer_id row
        /\ Row.address_id row' = Row.address_id row
        /\ Row.total_amount row' = Row.total_amount row
        /\ Row.lat row' = match lat with Some _ => lat | None => Row.lat row end
        /\ Row.lng row' = match lng with Some _ => lng | None => Row.lng row end
        /\ get_address_by_id db' record_id = Some row'
        /\ (forall other, other <> record_id ->
              get_address_by_id db' other = get_address_by_id db other)
        /\ map Row.id (db_rows db') = map Row.id (db_rows db)
        /\ db_next_id db' = db_next_id db).
Proof.
  split.
  - intros H. unfold update_customer_address. now rewrite H.
  - intros row row' db'. apply update_customer_address_found.
Qed.

Lemma create_customer_address_none db address_data lat lng :
  create_customer_address db address_data lat lng = None
  <-> NewRow.zip_code address_data = None
      \/ NewRow.city address_data = None
      \/ NewRow.state address_data = None.
Proof.
  unfold create_customer_address.
  destruct (NewRow.zip_code address_data), (NewRow.city address_data),
    (NewRow.state address_data); split; try discriminate; auto;
    intros [H | [H | H]]; discriminate.
Qed.

Lemma create_customer_address_some db address_data lat lng row db' :
  keyed db ->
  create_customer_address db address_data lat lng = Some (row, db') ->
  Row.id row = db_next_id db
  /\ Row.lat row = lat /\ Row.lng row = lng
  /\ Row.full_address row = NewRow.full_address address_data
  /\ get_address_by_id db' (Row.id row) = Some row
  /\ (forall other, other <> Row.id row ->
        get_address_by_id db' other = get_address_by_id db other)
  /\ keyed db'.
Proof.
  intros [Hnd Hlt]. unfold create_customer_address.
  destruct (NewRow.zip_code address_data) as [zip|]; [|discriminate].
  destruct (NewRow.city address_data) as [city|]; [|discriminate].
  destruct (NewRow.state address_data) as [state|]; [|discriminate].
  intros [= <- <-]. cbn [Row.id Row.lat Row.lng Row.full_address].
  unfold get_address_by_id, keyed. cbn [db_rows db_next_id].
  repeat split.
  + rewrite find_app_fresh, (find_none_fresh Hlt). cbn [Row.id].
    now rewrite Z.eqb_refl.
  + intros other Hne. rewrite find_app_fresh. cbn [Row.id].
    destruct (find (fun r => (Row.id r =? other)%Z) (db_rows db));
      [reflexivity|].
    now replace (db_next_id db =? other)%Z with false
      by (symmetry; apply Z.eqb_neq; congruence).
  + rewrite map_app. cbn [map Row.id].
    apply NoDup_app_swap_one; [exact Hnd|].
    intros Hin. apply in_map_iff in Hin. destruct Hin as (r & Hr & Hin).
    assert (H := proj1 (Forall_forall _ _) Hlt r Hin). cbn in H. lia.
  + apply Forall_app. split.
    * apply (Forall_impl _ (fun r (H : (Row.id r < db_next_id db)%Z) =>
                              Z.lt_trans _ _ _ H (Z.lt_succ_diag_r _)) Hlt).
    * constructor; [cbn [Row.id]; lia | constructor].
Qed.

(** X14. A record is created exactly when its zip code, city and state
    are given.  In a table where every id is below the next id, the new
    record gets the next id and the coordinates passed in; it is found
    under its id, every older record is found as before, and every id is
    again below the next id, none twice. *)
Theorem create_then_lookup db address_data lat lng :
  keyed db ->
  (create_customer_address db address_data lat lng = None
   <-> NewRow.zip_code address_data = None
       \/ NewRow.city address_data = None
       \/ NewRow.state address_data = None)
  /\ (forall row db',
        create_customer_address db address_data lat lng = Some (row, db') ->
        Row.id row = db_next_id db
        /\ Row.lat row = lat /\ Row.lng row = lng
        /\ Row.full_address row = NewRow.full_address address_data
        /\ get_address_by_id db' (Row.id row) = Some row
        /\ (forall other, other <> Row.id row ->
              get_address_by_id db' other = get_address_by_id db other)
        /\ keyed db').
Proof.
  intros Hk. split.
  - apply create_customer_address_none.
  - intros row db'. now apply create_customer_address_some.
Qed.

Lemma search_query_with_page db filters p :
  search_query db (SearchFilters.with_page filters p) = search_query db filters.
Proof. reflexivity. Qed.

Lemma search_query_perm db filters :
  (forall field desc rows, Permutation (sql_order_by field desc rows) rows) ->
  Permutation (search_query db filters)
              (filter (search_where filters) (db_rows db)).
Proof.
  intros Hperm. unfold search_query.
  destruct (SearchFilters.sort_by filters); [apply Hperm | apply Permutation_refl].
Qed.

(** X15. With an [ORDER BY] that only reorders rows, and for a valid page
    and page size: a search returns; its total is the number of rows that
    pass the filters, whatever the page and the order; the page holds at
    most [page_size] rows, each a row of the table that passes the filters;
    and pages 1 to [ceil(total / page_size)], one after the other, are the
    ordered result itself. *)
Theorem search_filters_and_pages db filters :
  (forall field desc rows, Permutation (sql_order_by field desc rows) rows) ->
  (1 <= SearchFilters.page filters)%Z ->
  (1 <= SearchFilters.page_size filters)%Z ->
  let matching := filter (search_where filters) (db_rows db) in
  let total := Z.of_nat (List.length matching) in
  let total_pages :=
    Qceiling (inject_Z total / inject_Z (SearchFilters.page_size filters)) in
  exists addresses,
    search_customer_addresses db filters = Some (addresses, total)
    /\ (List.length addresses <= Z.to_nat (SearchFilters.page_size filters))%nat
    /\ (forall row, In row addresses ->
                    In row (db_rows db) /\ search_where filters row = true)
    /\ flat_map (search_page db filters) (seq 1 (Z.to_nat total_pages))
       = search_query db filters
    /\ Permutation (search_query db filters) matching.
Proof.
  intros Hperm Hp Hs matching total total_pages.
  assert (Hq := search_query_perm db filters Hperm). fold matching in Hq.
  assert (Hlen : List.length (search_query db filters) = List.length matching)
    by exact (Permutation_length Hq).
  unfold search_customer_addresses.
  rewrite offset_limit_some by nia.
  eexists. split; [now rewrite Hlen|]. split; [apply firstn_le_length|].
  split; [|split; [|exact Hq]].
  - intros row Hin. apply In_window_inv in Hin.
    apply (Permutation_in _ Hq) in Hin. unfold matching in Hin.
    now apply filter_In in Hin.
  - destruct (total_pages_enough (total := total)
                (page_size := SearchFilters.page_size filters)) as [H1 H2];
      [unfold total; lia | exact Hs |].
    fold total_pages in H1, H2.
    rewrite <- (firstn_all2
                  (n := (Z.to_nat total_pages
                         * Z.to_nat (SearchFilters.page_size filters))%nat)
                  (search_query db filters)) at 1
      by (rewrite Hlen; unfold total in H1; nia).
    rewrite <- windows_concat.
    apply flat_map_agree. intros p Hin. apply in_seq in Hin.
    unfold search_page, search_customer_addresses.
    rewrite search_query_with_page.
    cbn [SearchFilters.page SearchFilters.page_size SearchFilters.with_page].
    rewrite offset_limit_some by nia.
    do 2 f_equal. nia.
Qed.

End RepositoryMoreProperties.

(* ================================================================= *)
(** * Properties of the endpoints *)

Lemma In_update_where_id_other rows record_id (change : Row.t -> Row.t) row :
  In row rows -> Row.id row <> record_id ->
  In row (update_where_id rows record_id change).
Proof.
  intros Hin Hne. unfold update_where_id. apply in_map_iff.
  exists row. split; [|exact Hin].
  now replace (Row.id row =? record_id)%Z with false
    by (symmetry; now apply Z.eqb_neq).
Qed.

Lemma In_update_where_id_inv rows record_id (change : Row.t -> Row.t) row' :
  In row' (update_where_id rows record_id change) ->
  exists row, In row rows
              /\ (row' = row \/ (Row.id row = record_id /\ row' = change row)).
Proof.
  unfold update_where_id. intros H. apply in_map_iff in H.
  destruct H as (row & Heq & Hin). exists row. split; [exact Hin|].
  destruct (Row.id row =? record_id)%Z eqn:E.
  - apply Z.eqb_eq in E. right. auto.
  - left. auto.
Qed.

Lemma NoDup_ids_inj (rows : list Row.t) a b :
  NoDup (map Row.id rows) -> In a rows -> In b rows ->
  Row.id a = Row.id b -> a = b.
Proof.
  induction rows as [|r rows IH]; cbn [map In]; [tauto|].
  intros Hnd Ha Hb Heq. inversion Hnd as [|x xs Hnot Hrest]; subst.
  destruct Ha as [-> | Ha], Hb as [-> | Hb]; auto.
  - exfalso. apply Hnot. rewrite Heq. now apply in_map.
  - exfalso. apply Hnot. rewrite <- Heq. now apply in_map.
Qed.

(** Giving coordinates to the one row of an id that has none adds one row
    with coordinates. *)
Lemma set_coordinates_counts rows row lat lng :
  NoDup (map Row.id rows) -> In row rows ->
  with_coordinates row = false ->
  List.length
    (filter with_coordinates
       (update_where_id rows (Row.id row)
          (fun r => set_coordinates r (Some lat) (Some lng))))
  = S (List.length (filter with_coordinates rows)).
Proof.
  induction rows as [|r rows IH]; cbn [map In]; [tauto|].
  intros Hnd Hin Hwc. inversion Hnd as [|x xs Hnot Hrest]; subst.
  cbn [update_where_id map filter].
  fold (update_where_id rows (Row.id row)
          (fun r => set_coordinates r (Some lat) (Some lng))).
  destruct Hin as [-> | Hin].
  - assert (Hsame : update_where_id rows (Row.id row)
                      (fun r => set_coordinates r (Some lat) (Some lng)) = rows).
    { unfold update_where_id. rewrite <- (map_id rows) at 2.
      apply map_ext_in. intros r Hr.
      replace (Row.id r =? Row.id row)%Z with false; [reflexivity|].
      symmetry. apply Z.eqb_neq. intros Heq. apply Hnot. rewrite <- Heq.
      now apply in_map. }
    rewrite Hsame, Z.eqb_refl, Hwc.
    reflexivity.
  - replace (Row.id r =? Row.id row)%Z with false.
    + destruct (with_coordinates r); cbn [List.length];
        now rewrite (IH Hrest Hin Hwc).
    + symmetry. apply Z.eqb_neq. intros Heq. apply Hnot. rewrite Heq.
      now apply in_map.
Qed.

Lemma NoDup_map_firstn_skipn {A B} (f : A -> B) (n m : nat) (l : list A) :
  NoDup (map f l) -> NoDup (map f (firstn n (skipn m l))).
Proof.
  intros H. rewrite <- firstn_map. apply NoDup_firstn_keep.
  rewrite <- (firstn_skipn m l), map_app in H.
  now apply NoDup_app_remove_l in H.
Qed.

Lemma NoDup_ids_filter (keep : Row.t -> bool) (rows : list Row.t) :
  NoDup (map Row.id rows) -> NoDup (map Row.id (filter keep rows)).
Proof.
  induction rows as [|row rest IH]; cbn [map filter]; [auto|].
  intros Hnd. inversion Hnd as [|y ys Hnot Hrest]; subst.
  destruct (keep row); [|now apply IH].
  cbn [map]. constructor; [|now apply IH].
  intros Hin. apply Hnot. apply in_map_iff in Hin.
  destruct Hin as (z & Hz & Hin). apply in_map_iff. exists z.
  split; [exact Hz|]. now apply filter_In in Hin.
Qed.

Section ApiProperties.

Variable provider : Type.
Variable geocode_api :
  provider -> string -> outcome (list geocode_result) * provider.
Variable md5_hexdigest : string -> string.
Variable sql_eq : string -> string -> bool.
Variable json_dumps : list string -> string.
Variable response : Type.
Variable model_validate : Row.t -> option response.

Local Abbreviation world := (world provider).
Local Abbreviation get_coordinates :=
  (get_coordinates geocode_api md5_hexdigest).
Local Abbreviation create_endpoint :=
  (create_endpoint geocode_api md5_hexdigest sql_eq json_dumps model_validate).
Local Abbreviation update_endpoint :=
  (update_endpoint geocode_api md5_hexdigest json_dumps model_validate).
Local Abbreviation list_endpoint := (list_endpoint model_validate).
Local Abbreviation batch_update_loop :=
  (batch_update_loop geocode_api md5_hexdigest).
Local Abbreviation batch_update_coordinates :=
  (batch_update_coordinates geocode_api md5_hexdigest).
Local Abbreviation create_customer_address :=
  (create_customer_address json_dumps).
Local Abbreviation update_customer_address :=
  (update_customer_address json_dumps).
Local Abbreviation apply_update := (apply_update json_dumps).

(** ** The listing *)

(** X16. For a page size of at least 1, pages 1 to
    [ceil(count / page_size)] of the listing, one after the other, are the
    table itself, and each holds at most [page_size] rows.  When the
    listing endpoint answers a valid request with a body, the body reports
    that count and that number of pages, and its items are the responses of
    the rows of the page asked for. *)
Theorem listing_pages_cover_table db page_size :
  (1 <= page_size)%Z ->
  let total := get_addresses_count db in
  let total_pages := Qceiling (inject_Z total / inject_Z page_size) in
  flat_map (listing_page db page_size) (seq 1 (Z.to_nat total_pages))
  = db_rows db
  /\ (forall p, (1 <= p)%nat ->
        (List.length (listing_page db page_size p) <= Z.to_nat page_size)%nat)
  /\ (forall page body,
        list_endpoint db page page_size = Ok body ->
        (1 <= page)%Z
        /\ pr_total body = total
        /\ pr_total_pages body = total_pages
        /\ traverse model_validate (listing_page db page_size (Z.to_nat page))
           = Some (pr_items body)).
Proof.
  intros Hs total total_pages.
  assert (Hpage : forall p, (1 <= p)%nat ->
            listing_page db page_size p
            = firstn (Z.to_nat page_size)
                (skipn ((p - 1) * Z.to_nat page_size) (db_rows db))).
  { intros p Hp. unfold listing_page, get_customer_addresses.
    rewrite offset_limit_some by nia. do 2 f_equal. nia. }
  split; [|split].
  - destruct (total_pages_enough (total := total) (page_size := page_size))
      as [H1 H2]; [unfold total, get_addresses_count; lia | exact Hs |].
    fold total_pages in H1, H2.
    rewrite <- (firstn_all2
                  (n := (Z.to_nat total_pages * Z.to_nat page_size)%nat)
                  (db_rows db)) at 1
      by (unfold total, get_addresses_count in H1; nia).
    rewrite <- windows_concat.
    apply flat_map_agree. intros p Hin. apply in_seq in Hin.
    apply Hpage. lia.
  - intros p Hp. rewrite (Hpage p Hp). apply firstn_le_length.
  - intros page body. unfold list_endpoint.
    destruct ((1 <=? page) && (1 <=? page_size) && (page_size <=? 100))%Z
      eqn:Hv; [|discriminate].
    apply andb_true_iff in Hv. destruct Hv as [Hv _].
    apply andb_true_iff in Hv. destruct Hv as [Hv _].
    apply Z.leb_le in Hv.
    unfold listing_page. rewrite Z2Nat.id by lia.
    destruct (get_customer_addresses db ((page - 1) * page_size) page_size)
      as [addresses|]; [|discriminate].
    destruct (traverse model_validate addresses) as [items|]; [|discriminate].
    intros [= <-]. cbn [pr_total pr_total_pages pr_items]. auto.
Qed.

(** ** Updates and creations *)

(** X17. The update endpoint answers 404 for an unknown record and leaves
    table and world alone.  For a known record it calls the resolver only
    when the patch sets a non-empty full address that differs from the
    stored one: otherwise the provider, the clock and the cache are not
    touched. *)
Theorem update_endpoint_skips_geocoding self db record_id patch (w : world) :
  (get_address_by_id db record_id = None ->
     update_endpoint self db record_id patch w = (HttpError 404, db, w))
  /\ (forall existing,
        get_address_by_id db record_id = Some existing ->
        (Patch.get (Patch.full_address patch) = None
         \/ Patch.get (Patch.full_address patch) = Some EmptyString
         \/ Patch.get (Patch.full_address patch)
            = Some (Row.full_address existing)) ->
        snd (update_endpoint self db record_id patch w) = w).
Proof.
  unfold update_endpoint. split.
  - intros H. now rewrite H.
  - intros existing Hfind Hsame. rewrite Hfind. unfold bind.
    assert (Hret : (match Patch.get (Patch.full_address patch) with
                    | Some full_address =>
                        if PyStr.truthy full_address
                           && negb (String.eqb full_address
                                      (Row.full_address existing))
                        then get_coordinates self full_address
                        else ret Unresolved
                    | None => ret Unresolved
                    end) w = (Unresolved, w)).
    { destruct Hsame as [-> | [-> | ->]]; try reflexivity.
      now rewrite String.eqb_refl, andb_false_r. }
    rewrite Hret.
    destruct (update_customer_address db record_id patch (fst Unresolved)
                (snd Unresolved)) as [[[updated|] db']|]; try reflexivity.
    now destruct (model_validate updated).
Qed.

(** X18. When the patch sets a new full address that the resolver cannot
    resolve, the update endpoint stores the new address with the old
    coordinates: a failed lookup never clears or replaces them. *)
Theorem update_endpoint_keeps_old_coordinates self db record_id patch
    full_address existing updated (w : world) :
  get_address_by_id db record_id = Some existing ->
  Patch.full_address patch = Some (Some full_address) ->
  PyStr.truthy full_address = true ->
  full_address <> Row.full_address existing ->
  fst (get_coordinates self full_address w) = Unresolved ->
  apply_update existing patch None None = Some updated ->
  let out := update_endpoint self db record_id patch w in
  let db' := snd (fst out) in
  snd out = snd (get_coordinates self full_address w)
  /\ get_address_by_id db' record_id = Some updated
  /\ Row.full_address updated = full_address
  /\ Row.lat updated = Row.lat existing
  /\ Row.lng updated = Row.lng existing.
Proof.
  intros Hfind Hset Ht Hne Hres Happly out db'. subst db' out.
  assert (Hupd : update_customer_address db record_id patch None None
                 = Some (Some updated,
                         {| db_rows := update_where_id (db_rows db) record_id
                                         (fun _ => updated);
                            db_next_id := db_next_id db |})).
  { unfold update_customer_address. now rewrite Hfind, Happly. }
  destruct (@update_customer_address_found json_dumps _ _ _ _ _ _ _ _ Hfind Hupd)
    as (_ & _ & _ & _ & Hlat & Hlng & Hfound & _).
  destruct (apply_update_id _ _ _ _ _ Happly) as (_ & _ & _ & _ & _ & _ & Hfa).
  rewrite Hset in Hfa. cbn [assign_required] in Hfa.
  unfold update_endpoint. rewrite Hfind, Hset.
  cbn [Patch.get]. rewrite Ht.
  replace (String.eqb full_address (Row.full_address existing)) with false
    by (symmetry; now apply String.eqb_neq).
  cbn [negb andb]. unfold bind.
  destruct (get_coordinates self full_address w) as [c w1] eqn:E.
  cbn [fst snd] in Hres |- *. subst c. cbn [fst snd Unresolved].
  rewrite Hupd.
  destruct (model_validate updated); cbn [fst snd ret];
    (repeat split; [exact Hfound | congruence | exact Hlat | exact Hlng]).
Qed.

(** X19. The create endpoint refuses a record whose customer id and
    address id are already in the table with status 400, before any
    lookup: table and world are left alone.  Otherwise it resolves the full
    address once and, when the record can be stored, stores it under the
    next id with exactly the coordinates that the resolver returned. *)
Theorem create_endpoint_stores_resolved_coordinates self db address_data
    (w : world) :
  keyed db ->
  let out := create_endpoint self db address_data w in
  (get_address_by_address_id sql_eq db (NewRow.customer_id address_data)
     (NewRow.address_id address_data) <> None ->
   out = (HttpError 400, db, w))
  /\ (get_address_by_address_id sql_eq db (NewRow.customer_id address_data)
        (NewRow.address_id address_data) = None ->
      snd out = snd (get_coordinates self (NewRow.full_address address_data) w)
      /\ (NewRow.zip_code address_data <> None ->
          NewRow.city address_data <> None ->
          NewRow.state address_data <> None ->
          exists row,
            get_address_by_id (snd (fst out)) (db_next_id db) = Some row
            /\ (Row.lat row, Row.lng row)
               = fst (get_coordinates self
                        (NewRow.full_address address_data) w)
            /\ Row.full_address row = NewRow.full_address address_data
            /\ keyed (snd (fst out)))).
Proof.
  intros Hk out. subst out. unfold create_endpoint. split.
  - intros H.
    destruct (get_address_by_address_id sql_eq db
                (NewRow.customer_id address_data)
                (NewRow.address_id address_data)); [reflexivity | congruence].
  - intros H. rewrite H. unfold bind.
    destruct (get_coordinates self (NewRow.full_address address_data) w)
      as [c w1] eqn:E. cbn [fst snd].
    destruct (create_customer_address db address_data (fst c) (snd c))
      as [[row db']|] eqn:Ec.
    + destruct (@create_customer_address_some json_dumps _ _ _ _ _ _ Hk Ec)
        as (Hid & Hlat & Hlng & Hfa & Hfound & _ & Hk').
      split; [now destruct (model_validate row)|].
      intros _ _ _. exists row.
      destruct (model_validate row); cbn [fst snd ret];
        (split; [congruence|];
         split; [destruct c; cbn in *; congruence|];
         split; [exact Hfa | exact Hk']).
    + split; [reflexivity|]. intros Hz Hc Hs.
      exfalso.
      destruct (proj1 (@create_customer_address_none json_dumps _ _ _ _) Ec)
        as [H0 | [H0 | H0]]; congruence.
Qed.

(** ** The batch update *)

Lemma batch_update_loop_cons self address rest db results (w : world) :
  batch_update_loop self (address :: rest) db results w =
    let w2 := snd (time_sleep (2 # 10)
                     (snd (get_coordinates self (Row.full_address address) w))) in
    match fst (get_coordinates self (Row.full_address address) w) with
    | (Some lat, Some lng) =>
        batch_update_loop self rest (write_coordinates db address lat lng)
          (record_success results address lat lng) w2
    | _ =>
        batch_update_loop self rest db (record_failure results address) w2
    end.
Proof.
  cbn [batch_update_loop]. unfold bind.
  destruct (get_coordinates self (Row.full_address address) w)
    as [[[lat|] [lng|]] w1]; reflexivity.
Qed.

Lemma batch_update_loop_counts self : forall addresses db results (w : world),
  let out := batch_update_loop self addresses db results w in
  let n := List.length addresses in
  ur_processed (fst (fst out)) = (ur_processed results + Z.of_nat n)%Z
  /\ (ur_successful (fst (fst out)) + ur_failed (fst (fst out))
      = ur_successful results + ur_failed results + Z.of_nat n)%Z
  /\ (ur_successful results <= ur_successful (fst (fst out)))%Z
  /\ List.length (ur_details (fst (fst out)))
     = (List.length (ur_details results) + n)%nat
  /\ map Row.id (db_rows (snd (fst out))) = map Row.id (db_rows db)
  /\ db_next_id (snd (fst out)) = db_next_id db
  /\ exists evs, w_log (snd out) = w_log w ++ evs /\ (n <= sleeps evs)%nat.
Proof.
  induction addresses as [|address rest IH]; intros db results w.
  - cbn. repeat split; try lia. exists []. rewrite app_nil_r.
    split; [reflexivity | apply Nat.le_0_l].
  - cbv zeta. rewrite batch_update_loop_cons. cbv zeta.
    destruct (get_coordinates_log geocode_api md5_hexdigest self
                (Row.full_address address) w) as (evs0 & Hlog0).
    set (w2 := snd (time_sleep (2 # 10)
                      (snd (get_coordinates self (Row.full_address address) w)))).
    assert (Hw2 : w_log w2 = w_log w ++ evs0 ++ [EvSleep (2 # 10)]).
    { subst w2. unfold time_sleep. cbn [snd w_log].
      now rewrite Hlog0, <- app_assoc. }
    assert (Hsl : forall evs, (List.length rest <= sleeps evs)%nat ->
              (List.length (address :: rest)
               <= sleeps ((evs0 ++ [EvSleep (2 # 10)]) ++ evs))%nat).
    { intros evs H. rewrite !sleeps_app.
      change (sleeps [EvSleep (2 # 10)]) with 1%nat. cbn [List.length]. lia. }
    assert (Hfail :
      let out := batch_update_loop self rest db
                   (record_failure results address) w2 in
      ur_processed (fst (fst out))
      = (ur_processed results + Z.of_nat (List.length (address :: rest)))%Z
      /\ (ur_successful (fst (fst out)) + ur_failed (fst (fst out))
          = ur_successful results + ur_failed results
            + Z.of_nat (List.length (address :: rest)))%Z
      /\ (ur_successful results <= ur_successful (fst (fst out)))%Z
      /\ List.length (ur_details (fst (fst out)))
         = (List.length (ur_details results)
            + List.length (address :: rest))%nat
      /\ map Row.id (db_rows (snd (fst out))) = map Row.id (db_rows db)
      /\ db_next_id (snd (fst out)) = db_next_id db
      /\ exists evs, w_log (snd out) = w_log w ++ evs
                     /\ (List.length (address :: rest) <= sleeps evs)%nat).
    { cbv zeta.
      destruct (IH db (record_failure results address) w2)
        as (H1 & H2 & H3 & H4 & H5 & H6 & evs & H7 & H8).
      cbn [record_failure ur_processed ur_successful ur_failed ur_details]
        in H1, H2, H3, H4.
      rewrite length_app in H4. cbn [List.length] in *.
      split; [lia|]. split; [lia|]. split; [lia|]. split; [lia|].
      split; [exact H5|]. split; [exact H6|].
      exists ((evs0 ++ [EvSleep (2 # 10)]) ++ evs).
      split; [rewrite H7, Hw2, <- !app_assoc; reflexivity | now apply Hsl]. }
    destruct (fst (get_coordinates self (Row.full_address address) w))
      as [[lat|] [lng|]]; try exact Hfail.
    destruct (IH (write_coordinates db address lat lng)
                (record_success results address lat lng) w2)
      as (H1 & H2 & H3 & H4 & H5 & H6 & evs & H7 & H8).
    cbn [record_success ur_processed ur_successful ur_failed ur_details]
      in H1, H2, H3, H4.
    rewrite length_app in H4. cbn [List.length] in *.
    split; [lia|]. split; [lia|]. split; [lia|]. split; [lia|].
    split.
    { rewrite H5. cbn [write_coordinates db_rows].
      apply update_where_id_ids. reflexivity. }
    split; [exact H6|].
    exists ((evs0 ++ [EvSleep (2 # 10)]) ++ evs).
    split; [rewrite H7, Hw2, <- !app_assoc; reflexivity | now apply Hsl].
Qed.

Lemma batch_update_loop_coordinates self :
  forall addresses db results (w : world),
    NoDup (map Row.id (db_rows db)) ->
    NoDup (map Row.id addresses) ->
    (forall a, In a addresses ->
       exists r, In r (db_rows db) /\ Row.id r = Row.id a
                 /\ with_coordinates r = false) ->
    let out := batch_update_loop self addresses db results w in
    (Z.of_nat (count_with_coordinates (snd (fst out)))
     = Z.of_nat (count_with_coordinates db)
       + (ur_successful (fst (fst out)) - ur_successful results))%Z
    /\ (forall row, In row (db_rows db) ->
          ~ In (Row.id row) (map Row.id addresses) ->
          In row (db_rows (snd (fst out)))).
Proof.
  induction addresses as [|address rest IH]; intros db results w Hnd Hsel Hlack.
  - cbn. split; [lia | auto].
  - cbv zeta. rewrite batch_update_loop_cons. cbv zeta.
    set (w2 := snd (time_sleep (2 # 10)
                      (snd (get_coordinates self (Row.full_address address) w)))).
    inversion Hsel as [|x xs Hnot Hrest]; subst.
    destruct (Hlack address (or_introl eq_refl)) as (r0 & Hr0 & Hid0 & Hwc0).
    destruct (fst (get_coordinates self (Row.full_address address) w))
      as [[lat|] [lng|]].
    + destruct (IH (write_coordinates db address lat lng)
                  (record_success results address lat lng) w2)
        as [Hcount Hkeep].
      * cbn [write_coordinates db_rows].
        rewrite update_where_id_ids by reflexivity. exact Hnd.
      * exact Hrest.
      * intros a Ha. destruct (Hlack a (or_intror Ha)) as (r & Hr & Hid & Hwc).
        exists r. split; [|auto]. cbn [write_coordinates db_rows].
        apply In_update_where_id_other; [exact Hr|].
        intros Heq. apply Hnot. rewrite <- Heq, Hid. now apply in_map.
      * split.
        -- rewrite Hcount. unfold count_with_coordinates.
           cbn [write_coordinates db_rows record_success ur_successful].
           rewrite <- Hid0, (@set_coordinates_counts (db_rows db) r0 lat lng Hnd Hr0 Hwc0).
           lia.
        -- intros row Hin Hnotin. apply Hkeep.
           ++ cbn [write_coordinates db_rows].
              apply In_update_where_id_other; [exact Hin|].
              intros Heq. apply Hnotin. left. auto.
           ++ intros H. apply Hnotin. now right.
    + destruct (IH db (record_failure results address) w2 Hnd Hrest)
        as [Hcount Hkeep].
      * intros a Ha. exact (Hlack a (or_intror Ha)).
      * split; [exact Hcount|].
        intros row Hin Hnotin. apply Hkeep; [exact Hin|].
        intros H. apply Hnotin. now right.
    + destruct (IH db (record_failure results address) w2 Hnd Hrest)
        as [Hcount Hkeep].
      * intros a Ha. exact (Hlack a (or_intror Ha)).
      * split; [exact Hcount|].
        intros row Hin Hnotin. apply Hkeep; [exact Hin|].
        intros H. apply Hnotin. now right.
    + destruct (IH db (record_failure results address) w2 Hnd Hrest)
        as [Hcount Hkeep].
      * intros a Ha. exact (Hlack a (or_intror Ha)).
      * split; [exact Hcount|].
        intros row Hin Hnotin. apply Hkeep; [exact Hin|].
        intros H. apply Hnotin. now right.
Qed.

Lemma batch_update_valid self db limit offset (w : world) :
  (1 <= limit <= 100)%Z -> (0 <= offset)%Z ->
  let selected :=
    firstn (Z.to_nat limit)
      (skipn (Z.to_nat offset)
         (filter (fun row => negb (with_coordinates row)) (db_rows db))) in
  addresses_without_coords db offset limit = Some selected
  /\ batch_update_coordinates self db limit offset w
     = match selected with
       | [] => (Ok NothingToUpdate, db, w)
       | _ =>
           let out := batch_update_loop self selected db
                        {| ur_processed := 0; ur_successful := 0;
                           ur_failed := 0; ur_details := [] |} w in
           (Ok (Updated (fst (fst out))), snd (fst out), snd out)
       end.
Proof.
  intros Hl Ho selected.
  assert (Hsel : addresses_without_coords db offset limit = Some selected).
  { unfold addresses_without_coords. now rewrite offset_limit_some by lia. }
  split; [exact Hsel|].
  unfold batch_update_coordinates.
  replace ((1 <=? limit) && (limit <=? 100) && (0 <=? offset))%Z with true.
  - rewrite Hsel. destruct selected as [|a rest]; [reflexivity|].
    unfold bind.
    now destruct (batch_update_loop self (a :: rest) db
                    {| ur_processed := 0; ur_successful := 0; ur_failed := 0;
                       ur_details := [] |} w) as [[res db'] w'].
  - symmetry. rewrite !andb_true_iff, !Z.leb_le. lia.
Qed.

Lemma lacks_coordinates_eq (row : Row.t) :
  negb (with_coordinates row)
  = match Row.lat row, Row.lng row with
    | Some _, Some _ => false
    | _, _ => true
    end.
Proof.
  unfold with_coordinates. now destruct (Row.lat row), (Row.lng row).
Qed.

Lemma batch_update_loop_log self : forall addresses db results (w : world),
  let out := batch_update_loop self addresses db results w in
  map ud_id (ur_details (fst (fst out)))
  = map ud_id (ur_details results) ++ map Row.id addresses
  /\ exists lookups,
       Forall2 (fun row evs =>
                  exists w0,
                    w_log (snd (get_coordinates self (Row.full_address row) w0))
                    = w_log w0 ++ evs)
               addresses lookups
       /\ w_log (snd out)
          = w_log w ++ flat_map (fun evs => evs ++ [EvSleep (2 # 10)]) lookups.
Proof.
  induction addresses as [|address rest IH]; intros db results w.
  - cbn. rewrite app_nil_r. split; [reflexivity|].
    exists []. split; [constructor | now rewrite app_nil_r].
  - cbv zeta. rewrite batch_update_loop_cons. cbv zeta.
    destruct (get_coordinates_log geocode_api md5_hexdigest self
                (Row.full_address address) w) as (evs0 & Hlog0).
    set (w2 := snd (time_sleep (2 # 10)
                      (snd (get_coordinates self (Row.full_address address) w)))).
    assert (Hw2 : w_log w2 = w_log w ++ evs0 ++ [EvSleep (2 # 10)]).
    { subst w2. unfold time_sleep. cbn [snd w_log].
      now rewrite Hlog0, <- app_assoc. }
    assert (Hstep : forall db1 results1,
              map ud_id (ur_details results1)
              = map ud_id (ur_details results) ++ [Row.id address] ->
              let out := batch_update_loop self rest db1 results1 w2 in
              map ud_id (ur_details (fst (fst out)))
              = map ud_id (ur_details results)
                ++ map Row.id (address :: rest)
              /\ exists lookups,
                   Forall2 (fun row evs =>
                              exists w0,
                                w_log (snd (get_coordinates self
                                              (Row.full_address row) w0))
                                = w_log w0 ++ evs)
                           (address :: rest) lookups
                   /\ w_log (snd out)
                      = w_log w
                        ++ flat_map (fun evs => evs ++ [EvSleep (2 # 10)])
                                    lookups).
    { intros db1 results1 Hd. cbv zeta.
      destruct (IH db1 results1 w2) as (Hids & lookups & Hall & Hlog).
      split.
      - rewrite Hids, Hd, <- app_assoc. reflexivity.
      - exists (evs0 :: lookups). split.
        + constructor; [|exact Hall]. now exists w.
        + rewrite Hlog, Hw2. cbn [flat_map].
          now rewrite <- !app_assoc. }
    destruct (fst (get_coordinates self (Row.full_address address) w))
      as [[lat|] [lng|]]; apply Hstep;
      cbn [record_success record_failure ur_details];
      now rewrite map_app.
Qed.

(** X20. The batch update refuses parameters out of range with status
    422.  Otherwise it selects, in scan order, the rows that lack a
    latitude or a longitude, at most [limit] of them after skipping
    [offset]; with none, it answers that there is nothing to update and
    touches nothing; else every selected row is processed, as a success or
    as a failure, with one detail each, in the order of the selection; the
    ids of the table stay as they are; and the log grows, row by row, by
    one lookup of the row's full address followed by a sleep of exactly
    0.2 s (after the last row too, and after rows served from the cache
    too). *)
Theorem batch_update_counts self db limit offset (w : world) :
  let out := batch_update_coordinates self db limit offset w in
  let lacking :=
    filter (fun row => match Row.lat row, Row.lng row with
                       | Some _, Some _ => false
                       | _, _ => true
                       end) (db_rows db) in
  let selected := firstn (Z.to_nat limit) (skipn (Z.to_nat offset) lacking) in
  (~ ((1 <= limit <= 100)%Z /\ (0 <= offset)%Z) ->
     out = (HttpError 422, db, w))
  /\ ((1 <= limit <= 100)%Z -> (0 <= offset)%Z ->
      (forall row, In row selected ->
         In row (db_rows db) /\ (Row.lat row = None \/ Row.lng row = None))
      /\ (List.length selected <= Z.to_nat limit)%nat
      /\ (selected = [] -> out = (Ok NothingToUpdate, db, w))
      /\ (selected <> [] ->
          exists results,
            fst (fst out) = Ok (Updated results)
            /\ ur_processed results = Z.of_nat (List.length selected)
            /\ (ur_successful results + ur_failed results
                = ur_processed results)%Z
            /\ (0 <= ur_successful results)%Z
            /\ map ud_id (ur_details results) = map Row.id selected
            /\ map Row.id (db_rows (snd (fst out))) = map Row.id (db_rows db)
            /\ exists lookups,
                 Forall2 (fun row evs =>
                            exists w0,
                              w_log (snd (get_coordinates self
                                            (Row.full_address row) w0))
                              = w_log w0 ++ evs)
                         selected lookups
                 /\ w_log (snd out)
                    = w_log w
                      ++ flat_map (fun evs => evs ++ [EvSleep (2 # 10)])
                                  lookups)).
Proof.
  intros out lacking selected. subst out. split.
  - intros H. unfold batch_update_coordinates.
    replace ((1 <=? limit) && (limit <=? 100) && (0 <=? offset))%Z with false;
      [reflexivity|].
    symmetry. apply not_true_iff_false. intros Hv. apply H.
    rewrite !andb_true_iff, !Z.leb_le in Hv. lia.
  - intros Hl Ho.
    destruct (batch_update_valid self db w Hl Ho) as [_ Hout].
    assert (Hsame : filter (fun row => negb (with_coordinates row)) (db_rows db)
                    = lacking).
    { apply filter_ext. intros row. apply lacks_coordinates_eq. }
    rewrite Hsame in Hout. fold selected in Hout.
    split.
    { intros row Hin. apply In_window_inv in Hin.
      apply filter_In in Hin. destruct Hin as [Hin Hlack].
      split; [exact Hin|].
      destruct (Row.lat row); [|now left].
      destruct (Row.lng row); [discriminate | now right]. }
    split; [apply firstn_le_length|].
    rewrite Hout. clear Hout. split.
    + intros ->. reflexivity.
    + intros Hne.
      destruct selected as [|a rest] eqn:Es; [congruence|].
      cbv zeta. cbn [fst snd].
      destruct (batch_update_loop_counts self (a :: rest) db
                  {| ur_processed := 0; ur_successful := 0; ur_failed := 0;
                     ur_details := [] |} w)
        as (H1 & H2 & H3 & _ & H5 & _).
      destruct (batch_update_loop_log self (a :: rest) db
                  {| ur_processed := 0; ur_successful := 0; ur_failed := 0;
                     ur_details := [] |} w)
        as (Hids & lookups & Hall & Hlog).
      cbn [ur_processed ur_successful ur_failed ur_details] in H1, H2, H3.
      eexists. split; [reflexivity|].
      split; [lia|]. split; [lia|]. split; [lia|].
      split; [exact Hids|]. split; [exact H5|].
      exists lookups. split; [exact Hall | exact Hlog].
Qed.

(** ** Coordinates in the table *)

Lemma Forall_update_where_id (P : Row.t -> Prop) rows record_id
    (change : Row.t -> Row.t) :
  Forall P rows ->
  (forall r, In r rows -> Row.id r = record_id -> P (change r)) ->
  Forall P (update_where_id rows record_id change).
Proof.
  intros Hall Hch. apply Forall_forall. intros row' Hin.
  apply In_update_where_id_inv in Hin.
  destruct Hin as (row & Hrow & [-> | [Hid ->]]).
  - exact (proj1 (Forall_forall _ _) Hall _ Hrow).
  - now apply Hch.
Qed.

Lemma batch_update_loop_paired self : forall addresses db results (w : world),
  cache_ok (w_cache w) ->
  rows_paired db ->
  rows_paired (snd (fst (batch_update_loop self addresses db results w)))
  /\ cache_ok (w_cache (snd (batch_update_loop self addresses db results w))).
Proof.
  induction addresses as [|address rest IH]; intros db results w Hc Hp.
  - cbn. auto.
  - rewrite batch_update_loop_cons. cbv zeta.
    destruct (get_coordinates_cache_ok geocode_api md5_hexdigest self
                (Row.full_address address) w Hc) as [Hc' _].
    assert (Hc2 : cache_ok (w_cache (snd (time_sleep (2 # 10)
                    (snd (get_coordinates self (Row.full_address address) w))))))
      by exact Hc'.
    destruct (fst (get_coordinates self (Row.full_address address) w))
      as [[lat|] [lng|]]; try (apply IH; assumption).
    apply IH; [exact Hc2|].
    unfold rows_paired, write_coordinates. cbn [db_rows].
    apply Forall_update_where_id; [exact Hp|].
    intros r _ _. unfold paired. cbn. split; discriminate.
Qed.

(** X21. The endpoints write coordinates in pairs.  When the cache is
    what [lru_cache] keeps and every row of the table has both coordinates
    or none, the same holds of the table after a creation, after an update
    and after a batch update, and the cache stays as [lru_cache] keeps
    it. *)
Theorem endpoints_write_coordinates_in_pairs self db (w : world) :
  cache_ok (w_cache w) ->
  rows_paired db ->
  (forall address_data,
     rows_paired (snd (fst (create_endpoint self db address_data w)))
     /\ cache_ok (w_cache (snd (create_endpoint self db address_data w))))
  /\ (forall record_id patch,
        rows_paired (snd (fst (update_endpoint self db record_id patch w)))
        /\ cache_ok (w_cache (snd (update_endpoint self db record_id patch w))))
  /\ (forall limit offset,
        rows_paired
          (snd (fst (batch_update_coordinates self db limit offset w)))
        /\ cache_ok
             (w_cache (snd (batch_update_coordinates self db limit offset w)))).
Proof.
  intros Hc Hp. split; [|split].
  - intros address_data. unfold create_endpoint.
    destruct (get_address_by_address_id sql_eq db
                (NewRow.customer_id address_data)
                (NewRow.address_id address_data)); [now split|].
    unfold bind.
    destruct (get_coordinates_cache_ok geocode_api md5_hexdigest self
                (NewRow.full_address address_data) w Hc) as [Hc' Hpair].
    destruct (get_coordinates self (NewRow.full_address address_data) w)
      as [c w1]. cbn [fst snd] in *.
    destruct (create_customer_address db address_data (fst c) (snd c))
      as [[row db']|] eqn:Ec; [|now split].
    assert (Hp' : rows_paired db').
    { unfold create_customer_address in Ec.
      destruct (NewRow.zip_code address_data); [|discriminate].
      destruct (NewRow.city address_data); [|discriminate].
      destruct (NewRow.state address_data); [|discriminate].
      injection Ec as <- <-. unfold rows_paired. cbn [db_rows].
      apply Forall_app. split; [exact Hp|].
      constructor; [|constructor]. exact Hpair. }
    destruct (model_validate row); now split.
  - intros record_id patch. unfold update_endpoint.
    destruct (get_address_by_id db record_id) as [existing|] eqn:Hfind;
      [|now split].
    unfold bind.
    assert (Hlookup : forall (m : M provider coordinates),
              (m = ret Unresolved
               \/ exists a, m = get_coordinates self a) ->
              cache_ok (w_cache (snd (m w))) /\ paired (fst (m w))).
    { intros m [-> | [a ->]].
      - split; [exact Hc|]. unfold paired. cbn. tauto.
      - apply (get_coordinates_cache_ok geocode_api md5_hexdigest self a w Hc). }
    match goal with
    | |- context [let (a0, w') := ?m w in _] =>
        destruct (Hlookup m) as [Hc' Hpair];
          [ destruct (Patch.get (Patch.full_address patch)) as [fa|];
            [ destruct (PyStr.truthy fa
                        && negb (String.eqb fa (Row.full_address existing)));
              [right; eexists; reflexivity | now left]
            | now left ]
          | destruct (m w) as [c w1] ]
    end.
    cbn [fst snd] in *.
    destruct (update_customer_address db record_id patch (fst c) (snd c))
      as [[[updated|] db']|] eqn:Eu; try (now split).
    + assert (Hp' : rows_paired db').
      { unfold update_customer_address in Eu. rewrite Hfind in Eu.
        destruct (apply_update existing patch (fst c) (snd c)) as [u|] eqn:Ea;
          [|discriminate].
        injection Eu as <- <-. unfold rows_paired. cbn [db_rows].
        apply Forall_update_where_id; [exact Hp|]. intros r _ _.
        destruct (apply_update_id _ _ _ _ _ Ea)
          as (_ & _ & _ & _ & Hlat & Hlng & _).
        rewrite Hlat, Hlng.
        assert (Hex : paired (Row.lat existing, Row.lng existing)).
        { unfold get_address_by_id in Hfind. apply find_some in Hfind.
          exact (proj1 (Forall_forall _ _) Hp _ (proj1 Hfind)). }
        unfold paired in *. destruct c as [[x|] [y|]]; cbn in *;
          try exact Hex; split; intros H; try discriminate;
          try (apply Hpair in H; discriminate);
          destruct Hpair as [H1 H2];
          try (discriminate (H1 eq_refl)); try (discriminate (H2 eq_refl)). }
      destruct (model_validate updated); now split.
    + unfold update_customer_address in Eu. rewrite Hfind in Eu.
      destruct (apply_update existing patch (fst c) (snd c)); discriminate.
  - intros limit offset. unfold batch_update_coordinates.
    destruct ((1 <=? limit) && (limit <=? 100) && (0 <=? offset))%Z;
      [|now split].
    destruct (addresses_without_coords db offset limit) as [[|a rest]|];
      try (now split).
    unfold bind.
    destruct (@batch_update_loop_paired self (a :: rest) db
                {| ur_processed := 0; ur_successful := 0; ur_failed := 0;
                   ur_details := [] |} w Hc Hp) as [H1 H2].
    destruct (batch_update_loop self (a :: rest) db
                {| ur_processed := 0; ur_successful := 0; ur_failed := 0;
                   ur_details := [] |} w) as [[res db'] w'].
    now split.
Qed.

Variable int_truediv : Z -> Z -> Q.
Variable fl : Q -> Q.
Variable round_2 : Q -> Q.

Local Abbreviation get_geocode_status :=
  (get_geocode_status int_truediv fl round_2).

(** X22. In a table where no id is used twice, a batch update leaves
    every row that has both coordinates exactly as it is, and the number of
    rows with coordinates reported by the status endpoint grows by the
    number of successes reported by the update; the total does not
    change, and the two numbers of the status always add up to it. *)
Theorem batch_update_fills_coordinates self db limit offset results
    (w : world) :
  NoDup (map Row.id (db_rows db)) ->
  let out := batch_update_coordinates self db limit offset w in
  let db' := snd (fst out) in
  fst (fst out) = Ok (Updated results) ->
  (forall row, In row (db_rows db) -> with_coordinates row = true ->
               In row (db_rows db'))
  /\ gs_with_coordinates (get_geocode_status db')
     = (gs_with_coordinates (get_geocode_status db) + ur_successful results)%Z
  /\ gs_total_addresses (get_geocode_status db')
     = gs_total_addresses (get_geocode_status db)
  /\ (gs_with_coordinates (get_geocode_status db')
      + gs_without_coordinates (get_geocode_status db')
      = gs_total_addresses (get_geocode_status db'))%Z.
Proof.
  intros Hnd out db'. subst db' out.
  destruct ((1 <=? limit) && (limit <=? 100) && (0 <=? offset))%Z eqn:Hv.
  2:{ unfold batch_update_coordinates. rewrite Hv. discriminate. }
  rewrite !andb_true_iff, !Z.leb_le in Hv.
  destruct (batch_update_valid self db w (limit := limit) (offset := offset))
    as [_ Hout]; [lia | lia |].
  rewrite Hout. clear Hout.
  set (selected := firstn (Z.to_nat limit)
         (skipn (Z.to_nat offset)
            (filter (fun row => negb (with_coordinates row)) (db_rows db)))).
  assert (Hsub : forall a, In a selected ->
            In a (db_rows db) /\ with_coordinates a = false).
  { intros a Ha. apply In_window_inv in Ha. apply filter_In in Ha.
    destruct Ha as [Hin Hwc]. split; [exact Hin|].
    now apply negb_true_iff. }
  assert (Hsnd : NoDup (map Row.id selected)).
  { apply NoDup_map_firstn_skipn. now apply NoDup_ids_filter. }
  destruct selected as [|a rest] eqn:Es; [discriminate|].
  cbv zeta. cbn [fst snd]. intros Hres.
  assert (Hr : fst (fst (batch_update_loop self (a :: rest) db
                           {| ur_processed := 0; ur_successful := 0;
                              ur_failed := 0; ur_details := [] |} w))
               = results) by congruence.
  rewrite <- Hr. clear Hres Hr.
  destruct (@batch_update_loop_coordinates self (a :: rest) db
              {| ur_processed := 0; ur_successful := 0; ur_failed := 0;
                 ur_details := [] |} w Hnd Hsnd) as [Hcount Hkeep].
  { intros x Hx. exists x. destruct (Hsub x Hx). auto. }
  destruct (batch_update_loop_counts self (a :: rest) db
              {| ur_processed := 0; ur_successful := 0; ur_failed := 0;
                 ur_details := [] |} w)
    as (_ & _ & _ & _ & Hids & _).
  cbv zeta in Hcount, Hkeep, Hids. cbn [ur_successful] in Hcount.
  split; [|split; [|split]].
  - intros row Hin Hwc. apply Hkeep; [exact Hin|].
    intros Hid. apply in_map_iff in Hid. destruct Hid as (x & Hx & Hxin).
    destruct (Hsub x Hxin) as [Hxdb Hxwc].
    assert (x = row) by exact (@NoDup_ids_inj (db_rows db) x row Hnd Hxdb Hin Hx).
    congruence.
  - unfold get_geocode_status. cbv zeta. cbn [gs_with_coordinates].
    unfold count_with_coordinates in Hcount. lia.
  - unfold get_geocode_status. cbv zeta. cbn [gs_total_addresses].
    f_equal. rewrite <- (length_map Row.id), Hids. apply length_map.
  - unfold get_geocode_status. cbv zeta.
    cbn [gs_with_coordinates gs_without_coordinates gs_total_addresses]. lia.
Qed.

End ApiProperties.

(* ================================================================= *)
(** * Worked examples of the service, the repository and the endpoints *)

(** Two spellings of one address that differ in blanks: the second is
    answered from the entry of the first. *)
Lemma trimmed_addresses_share_entry_witness :
  let self := __init__ (Some "AIza"%string) in
  let first := get_coordinates Stub.geocode_answers Stub.digest self
                 "Main St" (initial_world 0%nat) in
  let second := get_coordinates Stub.geocode_answers Stub.digest self
                  "  Main St " (snd first) in
  fst second = fst first
  /\ w_log (snd second) = w_log (snd first)
  /\ w_provider (snd second) = w_provider (snd first).
Proof.
  exact (@trimmed_addresses_share_entry nat Stub.geocode_answers Stub.digest
           (__init__ (Some "AIza"%string)) "Main St"%string
           "  Main St "%string (initial_world 0%nat) eq_refl).
Defined.

(** The cache after a batch of two addresses. *)
Lemma cache_stays_within_maxsize_witness :
  let self := __init__ (Some "AIza"%string) in
  let w := serve Stub.geocode_answers Stub.reverse_always_fails Stub.digest
             self (ReqBatchGeocode ["Main St"; "Elm St"]%string)
             (initial_world 0%nat) in
  let info := fst (get_cache_info Fixture.int_truediv self w) in
  (0 <= ci_currsize info <= ci_maxsize info)%Z
  /\ ci_maxsize info = 1000%Z
  /\ NoDup (map fst (entries (w_cache w))).
Proof.
  intros self w.
  exact (@cache_stays_within_maxsize nat Stub.geocode_answers Stub.digest
           Stub.reverse_always_fails Fixture.int_truediv self w
           (reachable_serve _ (reachable_initial _ _ _ self 0%nat))).
Defined.

(** After a batch on a provider that always fails, an address is
    Unresolved in both coordinates and the endpoint answers 404. *)
Lemma coordinates_come_in_pairs_witness :
  let self := __init__ (Some "AIza"%string) in
  let w := serve Stub.geocode_always_fails Stub.reverse_always_fails
             Stub.digest self (ReqBatchGeocode ["Main St"]%string)
             (initial_world 0%nat) in
  let c := fst (get_coordinates Stub.geocode_always_fails Stub.digest self
                  "Elm St" w) in
  (c = Unresolved \/ exists lat lng, c = (Some lat, Some lng))
  /\ (fst (geocode_address Stub.geocode_always_fails Stub.digest self
             "Elm St" w) = HttpError 404
      <-> c = Unresolved).
Proof.
  intros self w.
  exact (@coordinates_come_in_pairs nat Stub.geocode_always_fails Stub.digest
           Stub.reverse_always_fails self "Elm St"%string w
           (reachable_serve _ (reachable_initial _ _ _ self 0%nat))).
Defined.

(** A new address in a cache of 1000 entries takes the front; the entry
    at the back is gone. *)
Lemma full_cache_evicts_least_recent_witness :
  let self := __init__ (Some "AIza"%string) in
  let w' := snd (get_coordinates Stub.geocode_answers Stub.digest self
                   "Main St" Fixture.full_world) in
  entries (w_cache w')
  = (cache_key Stub.digest "Main St",
     fst (get_coordinates Stub.geocode_answers Stub.digest self
            "Main St" Fixture.full_world))
    :: removelast (entries (w_cache Fixture.full_world)).
Proof.
  apply (@full_cache_evicts_least_recent nat Stub.geocode_answers Stub.digest
           (__init__ (Some "AIza"%string)) "Main St"%string
           Fixture.full_world).
  - reflexivity.
  - vm_compute. reflexivity.
  - vm_compute. reflexivity.
Defined.

(** After a lookup and a clearing, the same address goes to the provider
    again. *)
Lemma clear_cache_forces_lookup_witness :
  let self := __init__ (Some "AIza"%string) in
  let w := snd (get_coordinates Stub.geocode_answers Stub.digest self
                  "Main St" (initial_world 0%nat)) in
  let w1 := snd (clear_cache self w) in
  exists evs,
    w_log (snd (get_coordinates Stub.geocode_answers Stub.digest self
                  "Main St" w1))
    = w_log w ++ EvGeocode (PyStr.strip "Main St") :: evs.
Proof.
  intros self w w1.
  destruct (@clear_cache_forces_lookup nat Stub.geocode_answers Stub.digest
              Fixture.int_truediv self "AIza"%string "Main St"%string w
              eq_refl eq_refl eq_refl) as (_ & _ & _ & H).
  exact H.
Defined.

(** A first lookup of an address is a miss. *)
Lemma cache_info_counts_lookups_witness :
  let self := __init__ (Some "AIza"%string) in
  let w := initial_world 0%nat in
  let w' := snd (get_coordinates Stub.geocode_answers Stub.digest self
                   "Main St" w) in
  ci_misses (fst (get_cache_info Fixture.int_truediv self w'))
  = (ci_misses (fst (get_cache_info Fixture.int_truediv self w)) + 1)%Z.
Proof.
  intros self w w'.
  destruct (@cache_info_counts_lookups nat Stub.geocode_answers Stub.digest
              Fixture.int_truediv self "Main St"%string w) as (_ & _ & H).
  destruct (H eq_refl eq_refl) as (_ & Hm & _).
  exact Hm.
Defined.

(** The details of an address that was just resolved still cost a call. *)
Lemma place_details_bypasses_cache_witness :
  let self := __init__ (Some "AIza"%string) in
  let w1 := snd (get_coordinates Stub.geocode_answers Stub.digest self
                   "Main St" (initial_world 0%nat)) in
  let w2 := snd (get_place_details Stub.geocode_answers self "Main St" w1) in
  w_log w2 = w_log w1 ++ [EvGeocode "Main St"]
  /\ w_cache w2 = w_cache w1.
Proof.
  intros self w1 w2.
  destruct (@place_details_bypasses_cache nat Stub.geocode_answers Stub.digest
              self "AIza"%string "Main St"%string (initial_world 0%nat)
              eq_refl) as (Hlog & Hcache & _).
  split; [exact Hlog | exact Hcache].
Defined.

(** A batch of 101 addresses is refused, a batch of two is counted. *)
Lemma batch_endpoint_counts_witness :
  let self := __init__ (Some "AIza"%string) in
  batch_geocode_addresses Stub.geocode_answers Stub.digest self
    (repeat "Main St"%string 101) (initial_world 0%nat)
  = (HttpError 400, initial_world 0%nat)
  /\ exists body,
       fst (batch_geocode_addresses Stub.geocode_answers Stub.digest self
              ["Main St"; "   "]%string (initial_world 0%nat)) = Ok body
       /\ br_total body = 2%Z
       /\ (br_success_count body + br_failure_count body)%Z = br_total body.
Proof.
  intros self. split.
  - apply (@batch_endpoint_counts nat Stub.geocode_answers Stub.digest self
             (repeat "Main St"%string 101) (initial_world 0%nat)).
    vm_compute. reflexivity.
  - destruct (@batch_endpoint_counts nat Stub.geocode_answers Stub.digest self
                ["Main St"; "   "]%string (initial_world 0%nat))
      as [_ H].
    destruct H as (body & Hbody & _ & _ & Htotal & Hsum);
      [simpl; lia|].
    exists body. split; [exact Hbody|]. split; [exact Htotal | exact Hsum].
Defined.

(** What the reverse operation does with latitude 91 on a provider that
    always fails: three calls, with waits of 1 s and 2 s in between. *)
Lemma reverse_forwards_out_of_range_witness :
  let self := __init__ (Some "AIza"%string) in
  reverse_geocode Stub.reverse_always_fails self 91 0 (initial_world 0%nat)
  = (None,
     {| w_provider := after_reverse_calls Stub.reverse_always_fails
                        91 0 3 0%nat;
        w_log := [] ++ reverse_exhausted Stub.reverse_always_fails self
                         91 0 0%nat 3;
        w_cache := empty_cache |}).
Proof.
  intros self.
  destruct (@reverse_forwards_out_of_range nat Stub.reverse_always_fails
              self "AIza"%string 91 0 (initial_world 0%nat) eq_refl
              (or_intror (or_introl eq_refl)))
    as (_ & _ & _ & _ & Hexh).
  apply Hexh. intros i Hi. reflexivity.
Defined.

(** The reverse operation on a provider that fails twice: a transport
    error (wait 1 s), an API-level error (wait 2 s), then the answer. *)
Lemma reverse_retry_policy_witness :
  let self := __init__ (Some "AIza"%string) in
  reverse_geocode Fixture.reverse_fails_twice self 10 20 (initial_world 0%nat)
  = (first_address ["1 Main St, New York"%string],
     {| w_provider := after_reverse_calls Fixture.reverse_fails_twice
                        10 20 3 0%nat;
        w_log := [] ++ reverse_failed_from Fixture.reverse_fails_twice self
                         10 20 0%nat 0 2
                 ++ [EvReverseGeocode 10 20];
        w_cache := empty_cache |}).
Proof.
  intros self.
  destruct (@reverse_retry_policy nat Fixture.reverse_fails_twice self
              "AIza"%string 10 20 (initial_world 0%nat) eq_refl)
    as [Hans _].
  apply (Hans 2%nat ["1 Main St, New York"%string]).
  - simpl. lia.
  - intros [|[|i]] Hi; [reflexivity | reflexivity | lia].
  - reflexivity.
Defined.

(** With three attempts and a delay of 1 s, no call waits longer than
    3 s in all. *)
Lemma retry_wait_is_bounded_witness :
  let self := __init__ (Some "AIza"%string) in
  exists evs,
    w_log (snd (get_coordinates Stub.geocode_always_fails Stub.digest self
                  "Main St" (initial_world 0%nat)))
    = [] ++ evs
    /\ total_sleep evs <= 1 * inject_Z (3 * (3 - 1) / 2).
Proof.
  intros self.
  destruct (@retry_wait_is_bounded nat Stub.geocode_always_fails Stub.digest
              Stub.reverse_always_fails self "Main St"%string 10 20
              (initial_world 0%nat)) as [H _].
  - unfold Qle. simpl. lia.
  - exact H.
Defined.

(** The table of the desk: two records, ids 1 and 2, next id 3. *)
Lemma desk_keyed : keyed Desk.db.
Proof.
  split.
  - repeat constructor; simpl; intuition discriminate.
  - repeat constructor; simpl; lia.
Defined.

Lemma desk_rows_paired : rows_paired Desk.db.
Proof.
  repeat constructor; simpl; try discriminate; reflexivity.
Defined.

Lemma initial_cache_ok (p : nat) : cache_ok (w_cache (initial_world p)).
Proof.
  repeat split; simpl; try constructor. apply Nat.le_0_l.
Defined.

(** Record 1 is deleted, record 2 stays. *)
Lemma delete_then_lookup_witness :
  fst (delete_customer_address Desk.db 1) = true
  /\ get_address_by_id (snd (delete_customer_address Desk.db 1)) 1 = None
  /\ get_address_by_id (snd (delete_customer_address Desk.db 1)) 2
     = get_address_by_id Desk.db 2.
Proof.
  destruct (delete_then_lookup Desk.db 1) as [_ H].
  destruct H as (Hres & Hgone & Hother & _); [discriminate|].
  split; [exact Hres|]. split; [exact Hgone|].
  apply Hother. discriminate.
Defined.

(** A new address for record 1, without coordinates: the coordinates
    stay. *)
Lemma update_keeps_coordinates_witness :
  exists row' db',
    update_customer_address Desk.json_dumps Desk.db 1
      (Desk.patch_address "9 Oak Ave") None None = Some (Some row', db')
    /\ Row.lat row' = Some 0 /\ Row.lng row' = Some 0
    /\ get_address_by_id db' 1 = Some row'.
Proof.
  destruct (update_keeps_coordinates Desk.json_dumps Desk.db 1
              (Desk.patch_address "9 Oak Ave") None None) as [_ H].
  eexists. eexists.
  split; [reflexivity|].
  destruct (H _ _ _ eq_refl eq_refl) as (_ & _ & _ & _ & Hlat & Hlng & Hf & _).
  split; [exact Hlat|]. split; [exact Hlng | exact Hf].
Defined.

(** A new record on the desk gets id 3. *)
Lemma create_then_lookup_witness :
  exists row db',
    create_customer_address Desk.json_dumps Desk.db Desk.new_row
      (Some 1) (Some 2) = Some (row, db')
    /\ Row.id row = 3%Z
    /\ get_address_by_id db' 3 = Some row
    /\ keyed db'.
Proof.
  destruct (@create_then_lookup Desk.json_dumps Desk.db Desk.new_row
              (Some 1) (Some 2) desk_keyed) as [_ H].
  eexists. eexists.
  split; [reflexivity|].
  destruct (H _ _ eq_refl) as (Hid & _ & _ & _ & Hf & _ & Hk).
  split; [exact Hid|]. split; [exact Hf | exact Hk].
Defined.

(** The first page of one of an unfiltered search on the desk. *)
Lemma search_filters_and_pages_witness :
  exists addresses,
    search_customer_addresses Stub.ilike_any Desk.sql_eq Desk.sql_order_by
      Desk.db (Desk.no_filters 1 1) = Some (addresses, 2%Z)
    /\ (List.length addresses <= 1)%nat.
Proof.
  destruct (@search_filters_and_pages Stub.ilike_any Desk.sql_eq
              Desk.sql_order_by Desk.db (Desk.no_filters 1 1))
    as (addresses & Hres & Hlen & _).
  - intros field desc rows. apply Permutation_refl.
  - simpl. lia.
  - simpl. lia.
  - exists addresses. split; [exact Hres | exact Hlen].
Defined.

(** The desk listed one record a page. *)
Lemma listing_pages_cover_table_witness :
  flat_map (listing_page Desk.db 1) (seq 1 2) = db_rows Desk.db.
Proof.
  destruct (@listing_pages_cover_table Row.t Desk.model_validate Desk.db 1)
    as (H & _).
  - lia.
  - exact H.
Defined.

(** A patch that repeats the stored address costs no lookup. *)
Lemma update_endpoint_skips_geocoding_witness :
  let self := __init__ (Some "AIza"%string) in
  snd (update_endpoint Stub.geocode_answers Stub.digest Desk.json_dumps
         Desk.model_validate self Desk.db 1
         (Desk.patch_address "1 Main St, New York, NY") (initial_world 0%nat))
  = initial_world 0%nat.
Proof.
  intros self.
  destruct (@update_endpoint_skips_geocoding nat Stub.geocode_answers
              Stub.digest Desk.json_dumps Row.t Desk.model_validate self
              Desk.db 1 (Desk.patch_address "1 Main St, New York, NY")
              (initial_world 0%nat)) as [_ H].
  apply (H (Stub.row 1 (Some 0) (Some 0)) eq_refl).
  right. right. reflexivity.
Defined.

(** A new address that the provider cannot resolve: the record keeps the
    coordinates (0, 0). *)
Lemma update_endpoint_keeps_old_coordinates_witness :
  let self := __init__ (Some "AIza"%string) in
  let out := update_endpoint Stub.geocode_always_fails Stub.digest
               Desk.json_dumps Desk.model_validate self Desk.db 1
               (Desk.patch_address "9 Oak Ave") (initial_world 0%nat) in
  exists updated,
    get_address_by_id (snd (fst out)) 1 = Some updated
    /\ Row.full_address updated = "9 Oak Ave"%string
    /\ Row.lat updated = Some 0
    /\ Row.lng updated = Some 0.
Proof.
  intros self out. eexists.
  destruct (@update_endpoint_keeps_old_coordinates nat
              Stub.geocode_always_fails Stub.digest Desk.json_dumps Row.t
              Desk.model_validate self Desk.db 1
              (Desk.patch_address "9 Oak Ave") "9 Oak Ave"%string
              (Stub.row 1 (Some 0) (Some 0)) _ (initial_world 0%nat)
              eq_refl eq_refl eq_refl ltac:(discriminate) eq_refl eq_refl)
    as (_ & Hf & Hfa & Hlat & Hlng).
  split; [exact Hf|]. split; [exact Hfa|].
  split; [exact Hlat | exact Hlng].
Defined.

(** A new record on the desk is stored with the coordinates of New
    York. *)
Lemma create_endpoint_stores_resolved_coordinates_witness :
  let self := __init__ (Some "AIza"%string) in
  let out := create_endpoint Stub.geocode_answers Stub.digest Desk.sql_eq
               Desk.json_dumps Desk.model_validate self Desk.db Desk.new_row
               (initial_world 0%nat) in
  exists row,
    get_address_by_id (snd (fst out)) 3 = Some row
    /\ (Row.lat row, Row.lng row)
       = fst (get_coordinates Stub.geocode_answers Stub.digest self
                "5 Elm St, New York, NY" (initial_world 0%nat)).
Proof.
  intros self out.
  destruct (@create_endpoint_stores_resolved_coordinates nat
              Stub.geocode_answers Stub.digest Desk.sql_eq Desk.json_dumps
              Row.t Desk.model_validate self Desk.db Desk.new_row
              (initial_world 0%nat) desk_keyed) as [_ H].
  destruct (H eq_refl) as [_ Hrow].
  destruct Hrow as (row & Hf & Hc & _); try discriminate.
  exists row. split; [exact Hf | exact Hc].
Defined.

(** A limit of 0 is refused; with limit 10 the one record without
    coordinates is processed, and the log ends with the sleep of 0.2 s. *)
Lemma batch_update_counts_witness :
  let self := __init__ (Some "AIza"%string) in
  batch_update_coordinates Stub.geocode_answers Stub.digest self Desk.db
    0 0 (initial_world 0%nat)
  = (HttpError 422, Desk.db, initial_world 0%nat)
  /\ exists results lookup,
       fst (fst (batch_update_coordinates Stub.geocode_answers Stub.digest
                   self Desk.db 10 0 (initial_world 0%nat)))
       = Ok (Updated results)
       /\ ur_processed results = 1%Z
       /\ map ud_id (ur_details results) = [2%Z]
       /\ w_log (snd (batch_update_coordinates Stub.geocode_answers
                        Stub.digest self Desk.db 10 0 (initial_world 0%nat)))
          = [] ++ (lookup ++ [EvSleep (2 # 10)]) ++ [].
Proof.
  intros self. split.
  - apply (@batch_update_counts nat Stub.geocode_answers Stub.digest self
             Desk.db 0 0 (initial_world 0%nat)).
    lia.
  - destruct (@batch_update_counts nat Stub.geocode_answers Stub.digest self
                Desk.db 10 0 (initial_world 0%nat)) as [_ H].
    destruct H as (_ & _ & _ & Hsome); [lia | lia |].
    destruct Hsome as (results & Hres & Hproc & _ & _ & Hids & _
                       & lookups & Hall & Hlog);
      [discriminate|].
    inversion Hall as [|row lookup rows rest _ Hrest]; subst.
    inversion Hrest; subst.
    exists results, lookup.
    split; [exact Hres|]. split; [exact Hproc|].
    split; [exact Hids | exact Hlog].
Defined.

(** After the batch update of the desk both records have coordinates. *)
Lemma batch_update_fills_coordinates_witness :
  let self := __init__ (Some "AIza"%string) in
  let db' := snd (fst (batch_update_coordinates Stub.geocode_answers
                         Stub.digest self Desk.db 10 0
                         (initial_world 0%nat))) in
  gs_with_coordinates
    (get_geocode_status Fixture.int_truediv Stub.fl Stub.round_2 db')
  = (gs_with_coordinates
       (get_geocode_status Fixture.int_truediv Stub.fl Stub.round_2 Desk.db)
     + 1)%Z.
Proof.
  intros self db'.
  destruct (@batch_update_fills_coordinates nat Stub.geocode_answers
              Stub.digest Fixture.int_truediv Stub.fl Stub.round_2 self
              Desk.db 10 0
              _
              (initial_world 0%nat) (proj1 desk_keyed) eq_refl)
    as (_ & H & _).
  exact H.
Defined.

(** The desk after a creation, an update and a batch update. *)
Lemma endpoints_write_coordinates_in_pairs_witness :
  let self := __init__ (Some "AIza"%string) in
  rows_paired
    (snd (fst (create_endpoint Stub.geocode_answers Stub.digest Desk.sql_eq
                 Desk.json_dumps Desk.model_validate self Desk.db
                 Desk.new_row (initial_world 0%nat))))
  /\ rows_paired
       (snd (fst (batch_update_coordinates Stub.geocode_answers Stub.digest
                    self Desk.db 10 0 (initial_world 0%nat)))).
Proof.
  intros self.
  destruct (@endpoints_write_coordinates_in_pairs nat Stub.geocode_answers
              Stub.digest Desk.sql_eq Desk.json_dumps Row.t
              Desk.model_validate self Desk.db (initial_world 0%nat)
              (initial_cache_ok 0) desk_rows_paired)
    as (Hcreate & _ & Hbatch).
  split; [exact (proj1 (Hcreate Desk.new_row))
         | exact (proj1 (Hbatch 10%Z 0%Z))].
Defined.

